(** * Conversation chunker and daily embedding sync: a shallow embedding

    The development follows [smart_chunker.py] and
    [daily_embedding_sync.py].  Python values are modelled as follows.

    - [str] is [string]; the model covers ASCII text, [len] is
      [String.length], [<=] on [str] is [String.leb].
    - A value that may be [None] is an [option].
    - An exception is a [Raise] in the [result] type.
    - [datetime.now()], the object store, the embedding model, the vector
      index and the parameter store are the environment: the wall clock is
      a function from the number of earlier readings to the reading, the
      services are functions of the history of calls made so far. *)

From Stdlib Require Import ZArith String Ascii List Bool Lia DecimalString.
From Stdlib Require Import OrderedTypeEx Sorted.
From Stdlib Require Import DecimalNat.
From stdpp Require Import base list strings gmap.

Local Open Scope Z_scope.

(** ** Exceptions *)

Inductive exn := TypeError | ValueError.

Inductive result (A : Type) :=
| Ok (a : A)
| Raise (e : exn).
Arguments Ok {A} a.
Arguments Raise {A} e.

#[global] Instance result_ret : MRet result := fun _ a => Ok a.
#[global] Instance result_bind : MBind result := fun _ _ f m =>
  match m with Ok a => f a | Raise e => Raise e end.
#[global] Instance result_fmap : FMap result := fun _ _ f m =>
  match m with Ok a => Ok (f a) | Raise e => Raise e end.

(** ** Python string operations *)

Module PyStr.

(** [c.lower()] on an ASCII character. *)
Definition lower_char (c : ascii) : ascii :=
  let n := nat_of_ascii c in
  if ((65 <=? n) && (n <=? 90))%nat then ascii_of_nat (n + 32) else c.

(** [s.lower()] *)
Fixpoint lower (s : string) : string :=
  match s with
  | EmptyString => EmptyString
  | String c s' => String (lower_char c) (lower s')
  end.

(** [needle in hay] *)
Fixpoint contains (needle hay : string) : bool :=
  String.prefix needle hay
  || match hay with
     | EmptyString => false
     | String _ hay' => contains needle hay'
     end.

(** [s.replace(c, by)] for a one-character pattern [c]. *)
Fixpoint replace_char (c : ascii) (by_ : string) (s : string) : string :=
  match s with
  | EmptyString => EmptyString
  | String a s' =>
      if Ascii.eqb a c then by_ +:+ replace_char c by_ s'
      else String a (replace_char c by_ s')
  end.

(** [s.split(c)[0]]: the part of [s] before the first [c]. *)
Fixpoint split_head (c : ascii) (s : string) : string :=
  match s with
  | EmptyString => EmptyString
  | String a s' => if Ascii.eqb a c then EmptyString else String a (split_head c s')
  end.

(** [s[:n]] *)
Fixpoint take (n : nat) (s : string) : string :=
  match n, s with
  | S n', String a s' => String a (take n' s')
  | _, _ => EmptyString
  end.

(** [s.endswith(suffix)] *)
Fixpoint endswith (s suffix : string) : bool :=
  String.eqb s suffix
  || match s with
     | EmptyString => false
     | String _ s' => endswith s' suffix
     end.

(** [s.split(c)]: the list of the parts of [s] between the [c]s. *)
Fixpoint split (c : ascii) (s : string) : list string :=
  match s with
  | EmptyString => [EmptyString]
  | String a s' =>
      if Ascii.eqb a c then EmptyString :: split c s'
      else match split c s' with
           | p :: ps => String a p :: ps
           | [] => [String a EmptyString]
           end
  end.

(** [sep.join(parts)] *)
Definition join (sep : string) (parts : list string) : string :=
  String.concat sep parts.

(** [s.rsplit(c, 2)]: at most two splits, counted from the right. *)
Definition rsplit2 (c : ascii) (s : string) : list string :=
  let parts := split c s in
  let n := length parts in
  if (n <=? 3)%nat then parts
  else join (String c EmptyString) (firstn (n - 2) parts) :: skipn (n - 2) parts.

(** [str(n)] for a natural number. *)
Definition of_nat (n : nat) : string := NilZero.string_of_uint (Nat.to_uint n).

(** [str(v)] for a value that is a string or [None]. *)
Definition of_option (v : option string) : string := default "None" v.

(** Truth value of a string or [None]: both [None] and [''] are false. *)
Definition truthy (v : option string) : bool :=
  match v with
  | Some s => negb (String.eqb s "")
  | None => false
  end.

End PyStr.

Definition newline : string := String (ascii_of_nat 10) EmptyString.

(** ** [datetime] *)

(** A [datetime]: its calendar fields as microseconds since the epoch, and
    its UTC offset in microseconds when it is aware ([None] when naive). *)
Record datetime := mkDatetime {
  dt_wall : Z;
  dt_utcoffset : option Z
}.

(** [a - b], in microseconds.  Python refuses to subtract a naive and an
    aware [datetime]. *)
Definition datetime_sub (a b : datetime) : result Z :=
  match dt_utcoffset a, dt_utcoffset b with
  | None, None => Ok (dt_wall a - dt_wall b)
  | Some oa, Some ob => Ok ((dt_wall a - oa) - (dt_wall b - ob))
  | _, _ => Raise TypeError
  end.

(** ** [float]

    [timedelta.total_seconds()] and the division by 60 give floats: each is
    the exact quotient rounded to the nearest binary64 number, a tie to the
    even significand. *)

(** A finite float: the number [fl_m * 2 ^ fl_e]. *)
Record float := mkFloat {
  fl_m : Z;
  fl_e : Z
}.

(** [n / d] rounded to the nearest whole number, a tie to the even one. *)
Definition half_even (n d : Z) : Z :=
  let k := n / d in
  let r := n mod d in
  if 2 * r <? d then k
  else if d <? 2 * r then k + 1
  else if Z.even k then k else k + 1.

(** The exponent [e] with [2 ^ e <= n / d < 2 ^ (e + 1)], for positive [n]
    and [d]. *)
Definition binade (n d : Z) : Z :=
  let e := Z.log2 n - Z.log2 d in
  if (if 0 <=? e then d * 2 ^ e <=? n else d <=? n * 2 ^ (- e)) then e else e - 1.

(** The float nearest to [n / d], for positive [n] and [d]: the last place
    [2 ^ q] leaves a significand of 53 bits, and is [2 ^ -1074] for a
    subnormal number; the significand is [n / (d * 2 ^ q)] rounded. *)
Definition round_pos (n d : Z) : float :=
  let q := Z.max (binade n d - 52) (-1074) in
  mkFloat (if 0 <=? q then half_even n (d * 2 ^ q) else half_even (n * 2 ^ (- q)) d) q.

(** The float nearest to [n / d], for positive [d].  Overflow is left out:
    the quotients below are of differences of [datetime]s, which are far
    from the largest float. *)
Definition round (n d : Z) : float :=
  match n ?= 0 with
  | Eq => mkFloat 0 0
  | Gt => round_pos n d
  | Lt => let f := round_pos (- n) d in mkFloat (- fl_m f) (fl_e f)
  end.

(** [delta.total_seconds()] for a [timedelta] of [us] microseconds: the
    true division of two whole numbers, correctly rounded. *)
Definition total_seconds (us : Z) : float := round us 1000000.

(** [a / k] for a float [a] and a positive whole number [k] that is a
    float. *)
Definition float_div (a : float) (k : Z) : float :=
  if 0 <=? fl_e a then round (fl_m a * 2 ^ fl_e a) k
  else round (fl_m a) (k * 2 ^ (- fl_e a)).

(** [a > k] for a float [a] and a whole number [k]: Python compares the two
    numbers exactly. *)
Definition float_gt (a : float) (k : Z) : bool :=
  if 0 <=? fl_e a then k <? fl_m a * 2 ^ fl_e a
  else k * 2 ^ (- fl_e a) <? fl_m a.

(** [delta.total_seconds() / 60 > minutes] for a difference [delta] of [us]
    microseconds and a whole number [minutes]: the float quotient is
    compared, not the microseconds.  The two agree for [minutes] from 0 to
    [2 ^ 26] ([minutes_gt_exact] below); for larger values of [minutes] a
    difference that exceeds [minutes] by less than the rounding passes
    unnoticed ([minutes_gt_rounds] below). *)
Definition minutes_gt (us : Z) (minutes : Z) : bool :=
  float_gt (float_div (total_seconds us) 60) minutes.

(** The value of a float in units of [2 ^ -1074], the smallest positive
    float: a whole number when the exponent is not below [-1074]. *)
Definition fl_units (f : float) : Z := fl_m f * 2 ^ (fl_e f + 1074).

(** A float of the format: a significand of 53 bits, an exponent not below
    that of the subnormal numbers. *)
Definition representable (f : float) : Prop :=
  Z.abs (fl_m f) < 2 ^ 53 /\ -1074 <= fl_e f.

(** The wall clock: the reading of the [n]-th call of [datetime.now()]
    (counted from 0), as microseconds of local time. *)
Definition clock := nat -> Z.

(** ** Messages and chunks *)

(** A message as [loadAndTransformMessages] builds it: the five keys are
    always present, [timestamp], [sender] and [message_id] may be [None]. *)
Record message := mkMessage {
  timestamp : option string;
  sender : option string;
  text : string;
  room_id : string;
  message_id : option string
}.

Record chunk_metadata := mkMetadata {
  md_type : string;
  md_channel_id : string;
  md_timestamp : string;
  md_topics : list string;
  md_primary_topic : string;
  md_is_thread_complete : bool;
  md_is_verified : bool;
  md_priority : Z;
  md_start_time : string;
  md_end_time : string;
  md_message_count : nat;
  md_chunk_text : string;
  md_corrects_vector_key : option string;
  md_original_question : option string;
  md_verified_answer : option string
}.

Record chunk := mkChunk {
  chunk_id : string;
  chunk_text : string;
  metadata : chunk_metadata
}.

Definition RESOLUTION_WORDS : list string :=
  [ "thanks"; "thank you"; "thx"; "ty";
    "solved"; "resolved"; "fixed"; "working now";
    "got it"; "that worked"; "perfect"; "awesome";
    "appreciate it"; "makes sense"; "understood";
    "all set"; "good to go"; "sorted";
    "closing this"; "issue resolved"; "problem solved" ].

(** The value of the module-level dictionary [TOPIC_KEYWORDS] when the module
    is loaded, in insertion order. *)
Definition TOPIC_KEYWORDS_initial : list (string * list string) :=
  [ ("vpn", ["vpn"; "network"; "connection"; "proxy"; "tunnel"; "zscaler"]);
    ("terraform", ["terraform"; "tf"; "module"; "provider"; "state"; "tfvars"]);
    ("iam", ["iam"; "role"; "policy"; "permission"; "access"; "saml"; "federation"]);
    ("aws", ["aws"; "amazon"; "s3"; "ec2"; "lambda"; "cloudwatch"; "bedrock"]);
    ("deployment", ["deploy"; "pipeline"; "cicd"; "jenkins"; "github"; "actions"]);
    ("troubleshooting", ["error"; "failed"; "issue"; "problem"; "help"; "fix"; "broken"]);
    ("security", ["security"; "encrypt"; "kms"; "secrets"; "credential"; "token"]);
    ("cost", ["cost"; "billing"; "finops"; "budget"; "spend"; "savings"]) ].

Definition detectResolution (text : string) : bool :=
  let text_lower := PyStr.lower text in
  existsb (fun word => PyStr.contains word text_lower) RESOLUTION_WORDS.

Definition getPrimaryTopic (topics : list string) : string :=
  match List.filter (fun topic => negb (String.eqb topic "general")) topics with
  | topic :: _ => topic
  | [] => "general"
  end.

(** The rendered form of a message, [f"[{sender}]: {text}"]. *)
Definition render (msg : message) : string :=
  "[" +:+ PyStr.of_option (sender msg) +:+ "]: " +:+ text msg.

(** [sorted(l, key=...)] for string keys, on the list of the elements paired
    with their keys: a stable insertion sort, every element put in front of
    the first one whose key is not smaller. *)
Fixpoint insert_by_key {A} (key : string) (x : A) (l : list (string * A))
  : list (string * A) :=
  match l with
  | [] => [(key, x)]
  | (k, y) :: l' =>
      if String.ltb k key then (k, y) :: insert_by_key key x l'
      else (key, x) :: l
  end.

Definition stable_sort {A} (l : list (string * A)) : list A :=
  map snd (foldr (fun kx acc => insert_by_key (fst kx) (snd kx) acc) [] l).

(** The keys [x.get('timestamp', '')] of the messages, when all are strings. *)
Fixpoint string_keys (messages : list message) : option (list (string * message)) :=
  match messages with
  | [] => Some []
  | m :: ms =>
      match timestamp m, string_keys ms with
      | Some k, Some kms => Some ((k, m) :: kms)
      | _, _ => None
      end
  end.

(** [sorted(messages, key=lambda x: x.get('timestamp', ''))].  One message is
    returned without a comparison; with two or more, a key that is [None]
    is compared with another key, which raises [TypeError]. *)
Definition sorted_by_timestamp (messages : list message) : result (list message) :=
  match messages with
  | [] | [_] => Ok messages
  | _ =>
      match string_keys messages with
      | Some kms => Ok (stable_sort kms)
      | None => Raise TypeError
      end
  end.

Definition sum_nat (l : list nat) : nat := foldr Nat.add 0%nat l.

Section Chunker.

(** [datetime.fromisoformat]: [None] stands for the [ValueError] of a string
    that is not in ISO format. *)
Variable fromisoformat : string -> option datetime.

(** The wall clock read by [datetime.now()]. *)
Variable now : clock.

(** The current value of the module-level dictionary [TOPIC_KEYWORDS]. *)
Variable TOPIC_KEYWORDS : list (string * list string).

Definition detectTopics (text : string) : list string :=
  let text_lower := PyStr.lower text in
  let detected :=
    map fst (List.filter
      (fun tk => existsb (fun keyword => PyStr.contains keyword text_lower) (snd tk))
      TOPIC_KEYWORDS) in
  match detected with
  | [] => ["general"]
  | _ => detected
  end.

(** [parseTimestamp ts], given the number of clock readings made before;
    returns the [datetime] and the number of readings made after.  The
    timestamp of a message is a string or [None], never a [datetime], so
    the first test of the function does not apply; what is not a string
    gets the reading of the clock, as a string that does not parse. *)
Definition parseTimestamp (ts : option string) (ticks : nat) : datetime * nat :=
  match ts with
  | Some ts =>
      let ts := PyStr.replace_char "Z" "+00:00" ts in
      let ts := if PyStr.contains "." ts
                then PyStr.split_head "." ts +:+ "+00:00" else ts in
      match fromisoformat ts with
      | Some d => (d, ticks)
      | None => (mkDatetime (now ticks) None, S ticks)
      end
  | None => (mkDatetime (now ticks) None, S ticks)
  end.

(** [createChunk messages channel_id index] *)
Definition createChunk (messages : list message) (channel_id : string) (index : nat)
  : option chunk :=
  match messages, last messages with
  | first :: _, Some final =>
      let start_time := timestamp first in
      let end_time := timestamp final in
      let chunk_text := PyStr.join newline (map render messages) in
      let topics := detectTopics chunk_text in
      let primary_topic := getPrimaryTopic topics in
      let is_complete :=
        existsb (fun msg => detectResolution (text msg))
                (skipn (length messages - 3) messages) in
      let start_str := PyStr.of_option start_time in
      let chunk_date :=
        if PyStr.contains "T" start_str then PyStr.split_head "T" start_str
        else PyStr.take 10 start_str in
      let chunk_id := channel_id +:+ "-" +:+ chunk_date +:+ "-" +:+ PyStr.of_nat index in
      Some {| chunk_id := chunk_id;
              chunk_text := chunk_text;
              metadata := {|
                md_type := "chat_history";
                md_channel_id := channel_id;
                md_timestamp := chunk_date;
                md_topics := topics;
                md_primary_topic := primary_topic;
                md_is_thread_complete := is_complete;
                md_is_verified := false;
                md_priority := 0;
                md_start_time := start_str;
                md_end_time := PyStr.of_option end_time;
                md_message_count := length messages;
                md_chunk_text := PyStr.take 2000 chunk_text;
                md_corrects_vector_key := None;
                md_original_question := None;
                md_verified_answer := None |} |}
  | _, _ => None
  end.

(** The variables of the loop of [chunkByConversation], and the number of
    clock readings made so far. *)
Record loop_state := mkLoop {
  chunks : list chunk;
  current_chunk : list message;
  current_chars : nat;
  last_timestamp : option datetime;
  chunk_index : nat;
  ticks : nat
}.

Variable channel_id : string.
Variables gap_minutes max_messages max_chars : Z.

(** The elapsed time since the last message, in microseconds; [None] before
    the first message. *)
Definition elapsed (ts : datetime) (last : option datetime) : result (option Z) :=
  match last with
  | Some l => us ← datetime_sub ts l; Ok (Some us)
  | None => Ok None
  end.

(** Whether the loop body sets [should_split] for a message, given the open
    chunk, its character count and the elapsed time. *)
Definition should_split (open : list message) (chars : nat) (gap : option Z)
    (msg : message) : bool :=
  let msg_text := render msg in
  (* Time gap detection *)
  match gap with Some us => minutes_gt us gap_minutes | None => false end
  (* Size limits *)
  || (max_messages <=? Z.of_nat (length open))
  || (max_chars <? Z.of_nat (chars + String.length msg_text))
  (* Resolution detection *)
  || match last open with
     | Some last_msg =>
         detectResolution (text last_msg)
         && (PyStr.contains "?" (text msg)
             || match gap with Some us => minutes_gt us 10 | None => false end)
     | None => false
     end.

(** One iteration of the loop of [chunkByConversation]. *)
Definition chunk_step (st : loop_state) (msg : message) : result loop_state :=
  let '(ts, ticks') := parseTimestamp (timestamp msg) (ticks st) in
  let msg_text := render msg in
  gap ← elapsed ts (last_timestamp st);
  let st1 :=
    if should_split (current_chunk st) (current_chars st) gap msg
       && negb (bool_decide (current_chunk st = []))
    then
      {| chunks := chunks st
                   ++ option_list (createChunk (current_chunk st) channel_id (chunk_index st));
         current_chunk := [];
         current_chars := 0;
         last_timestamp := last_timestamp st;
         chunk_index := S (chunk_index st);
         ticks := ticks st |}
    else st in
  Ok {| chunks := chunks st1;
        current_chunk := current_chunk st1 ++ [msg];
        current_chars := (current_chars st1 + String.length msg_text)%nat;
        last_timestamp := Some ts;
        chunk_index := chunk_index st1;
        ticks := ticks' |}.

Fixpoint chunk_loop (st : loop_state) (msgs : list message) : result loop_state :=
  match msgs with
  | [] => Ok st
  | msg :: rest => st' ← chunk_step st msg; chunk_loop st' rest
  end.

Definition chunkByConversation (messages : list message) : result (list chunk) :=
  match messages with
  | [] => Ok []
  | _ =>
      sorted_messages ← sorted_by_timestamp messages;
      st ← chunk_loop (mkLoop [] [] 0 None 0 0) sorted_messages;
      (* Last chunk *)
      Ok (match current_chunk st with
          | [] => chunks st
          | _ => chunks st
                 ++ option_list (createChunk (current_chunk st) channel_id (chunk_index st))
          end)
  end.

(** *** The messages of the chunks

    A chunk keeps the text of its messages, not the messages.  [segments]
    runs the same loop and keeps, for every chunk, its messages with the
    [datetime] that [parseTimestamp] gave each of them; [segments_chunks]
    below shows that [chunkByConversation] returns the chunks of these
    groups, in order. *)

Record stamped := mkStamped {
  st_msg : message;
  st_ts : datetime
}.

Record seg_state := mkSeg {
  seg_done : list (list stamped);
  seg_open : list stamped;
  seg_ticks : nat
}.

Definition rendered_chars (grp : list stamped) : nat :=
  sum_nat (map (fun s => String.length (render (st_msg s))) grp).

Definition seg_step (g : seg_state) (msg : message) : result seg_state :=
  let '(ts, ticks') := parseTimestamp (timestamp msg) (seg_ticks g) in
  gap ← elapsed ts (st_ts <$> last (seg_open g));
  if should_split (map st_msg (seg_open g)) (rendered_chars (seg_open g)) gap msg
     && negb (bool_decide (seg_open g = []))
  then Ok (mkSeg (seg_done g ++ [seg_open g]) [mkStamped msg ts] ticks')
  else Ok (mkSeg (seg_done g) (seg_open g ++ [mkStamped msg ts]) ticks').

Fixpoint seg_loop (g : seg_state) (msgs : list message) : result seg_state :=
  match msgs with
  | [] => Ok g
  | msg :: rest => g' ← seg_step g msg; seg_loop g' rest
  end.

Definition seg_close (g : seg_state) : list (list stamped) :=
  match seg_open g with
  | [] => seg_done g
  | _ => seg_done g ++ [seg_open g]
  end.

Definition segments (messages : list message) : result (list (list stamped)) :=
  sorted_messages ← sorted_by_timestamp messages;
  g ← seg_loop (mkSeg [] [] 0) sorted_messages;
  Ok (seg_close g).

(** The chunks of a list of groups: group [i] gives the chunk of index [i]. *)
Definition chunks_of (groups : list (list stamped)) : list chunk :=
  mjoin (imap (fun i grp => option_list (createChunk (map st_msg grp) channel_id i)) groups).

Definition loop_of (g : seg_state) : loop_state :=
  {| chunks := chunks_of (seg_done g);
     current_chunk := map st_msg (seg_open g);
     current_chars := rendered_chars (seg_open g);
     last_timestamp := st_ts <$> last (seg_open g);
     chunk_index := length (seg_done g);
     ticks := seg_ticks g |}.

End Chunker.

(** ** The daily embedding sync *)

(** An embedding: the floats are carried and never computed with; each is
    kept as the integer of its bits. *)
Definition embedding := list Z.

Record config := mkConfig {
  source_bucket : string;
  vector_bucket : string;
  index_name : string;
  project_id : string;
  ssm_prefix : string;
  max_workers : Z;
  batch_size : Z
}.

(** A message of a chat file.  A key of the JSON object can be absent
    ([None]), [null] ([Some None]) or a string; for [text], [created] and
    [id] the code treats absent and [null] alike. *)
Record raw_message := mkRaw {
  raw_text : option string;
  raw_created : option string;
  raw_personEmail : option (option string);
  raw_personDisplayName : option (option string);
  raw_id : option string
}.

Record s3_object := mkObject {
  obj_Key : string;
  obj_LastModified : Z
}.

Record file_info := mkFile {
  file_key : string;
  file_room_id : string;
  file_date : string;
  file_last_modified : Z
}.

(** A value of the metadata dictionary of a chunk. *)
Inductive md_value :=
| MdStr (s : string)
| MdBool (b : bool)
| MdInt (n : Z)
| MdList (l : list string).

Record vector := mkVector {
  vec_key : string;
  vec_embedding : option embedding;
  vec_metadata : list (string * md_value)
}.

(** An entry of the [vectors] argument of [put_vectors]. *)
Record vector_data := mkVectorData {
  vd_key : string;
  vd_float32 : option embedding;
  vd_metadata : option (list (string * md_value))
}.

Record emb_result := mkEmbResult {
  er_index : nat;
  er_embedding : option embedding;
  er_error : option string
}.

(** The calls made to the services, in the order they were made. *)
Inductive event :=
| EvRemainingTime (ms : Z)
| EvGetParameter (name : string)
| EvGetObject (bucket key : string)
| EvInvokeModel (texts : list string)
| EvPutVectors (bucket index : string) (vectors : list vector_data) (error : option string)
| EvPutParameter (name value : string) (error : option string).

(** The services.  Each is a function of the calls made so far, so that the
    same request can succeed at one time and fail at another. *)
Record environment := mkEnv {
  (** [datetime.fromisoformat] *)
  env_fromisoformat : string -> option datetime;
  (** the wall clock during a call of [chunkByConversation] *)
  env_now : list event -> clock;
  (** the value of [TOPIC_KEYWORDS] *)
  env_topic_keywords : list (string * list string);
  (** [ssm.get_parameter] fails with an error other than [ParameterNotFound] *)
  env_get_parameter_fails : list event -> string -> bool;
  (** [ssm.put_parameter]: [Some e] is an exception of message [e] *)
  env_put_parameter : list event -> string -> string -> option string;
  (** [s3.get_object] and the JSON decoding: [None] is an exception *)
  env_get_object : list event -> string -> string -> option (list raw_message);
  (** [getEmbedding text] in the task of a given index: an exception of
      message [e] is [inl e] *)
  env_getEmbedding : list event -> nat -> string -> string + embedding;
  (** the order in which [as_completed] yields the tasks, for their number *)
  env_as_completed : list event -> nat -> list nat;
  (** [s3vectors.put_vectors]: [Some e] is an exception of message [e] *)
  env_put_vectors : list event -> string -> string -> list vector_data -> option string
}.

(** The state of the services: the parameter store and the calls made. *)
Record world := mkWorld {
  ssm_store : gmap string string;
  history : list event
}.

Definition log (ev : event) (w : world) : world :=
  {| ssm_store := ssm_store w; history := history w ++ [ev] |}.

(** *** State management *)

Definition getSsmParameterName (ssm_prefix project_id : string) : string :=
  ssm_prefix +:+ "/" +:+ project_id +:+ "/last-processed-date".

Definition getLastProcessedDate (env : environment) (ssm_prefix project_id : string)
    (w : world) : option string * world :=
  let param_name := getSsmParameterName ssm_prefix project_id in
  let w' := log (EvGetParameter param_name) w in
  if env_get_parameter_fails env (history w) param_name then (None, w')
  else (ssm_store w !! param_name, w').

Definition setLastProcessedDate (env : environment) (ssm_prefix project_id date_str : string)
    (w : world) : world :=
  let param_name := getSsmParameterName ssm_prefix project_id in
  match env_put_parameter env (history w) param_name date_str with
  | None =>
      {| ssm_store := <[param_name := date_str]> (ssm_store w);
         history := history w ++ [EvPutParameter param_name date_str None] |}
  | Some e => log (EvPutParameter param_name date_str (Some e)) w
  end.

(** *** Core embedding functions *)

Definition embedSingle (getEmbedding : nat -> string -> string + embedding)
    (index : nat) (text : string) : emb_result :=
  match getEmbedding index text with
  | inr embedding => {| er_index := index; er_embedding := Some embedding; er_error := None |}
  | inl e => {| er_index := index; er_embedding := None; er_error := Some e |}
  end.

(** [getEmbeddingsParallel texts max_workers].  [completed] is the order in
    which [as_completed] yields the futures, each named by its position in
    the order of submission.  A pool of no worker is refused. *)
Definition getEmbeddingsParallel (getEmbedding : nat -> string -> string + embedding)
    (completed : list nat) (texts : list string) (max_workers : Z)
  : result (list (option emb_result)) :=
  let results := replicate (length texts) None in
  if max_workers <=? 0 then Raise ValueError
  else
    let futures := imap (embedSingle getEmbedding) texts in
    Ok (foldl (fun results i =>
                 match futures !! i with
                 | Some result => <[er_index result := Some result]> results
                 | None => results
                 end) results completed).

(** [range(0, n, step)] *)
Definition range_step (n : nat) (step : Z) : result (list nat) :=
  if step =? 0 then Raise ValueError
  else if step <? 0 then Ok []
  else let k := Z.to_nat step in
       Ok (map (fun j => (j * k)%nat) (seq 0 ((n + k - 1) / k))).

Definition to_vector_data (v : vector) : vector_data :=
  {| vd_key := vec_key v;
     vd_float32 := vec_embedding v;
     vd_metadata := match vec_metadata v with [] => None | md => Some md end |}.

Inductive error_entry :=
| ChunkError (file chunk_id error : string)
| BatchError (batch_start : nat) (error : string)
| FileError (file : string) (error : exn).

Record store_result := mkStore {
  stored : nat;
  store_errors : option (list error_entry)
}.

(** One iteration of the loop of [storeVectorsBatch]: the batch that starts
    at [i]. *)
Definition store_batch (env : environment) (bucket_name index_name : string)
    (vectors : list vector) (batch_size : Z)
    (acc : world * nat * list error_entry) (i : nat) : world * nat * list error_entry :=
  let '(w, total_stored, errors) := acc in
  let batch := take (Z.to_nat batch_size) (drop i vectors) in
  let vector_data_list := map to_vector_data batch in
  let outcome := env_put_vectors env (history w) bucket_name index_name vector_data_list in
  let w' := log (EvPutVectors bucket_name index_name vector_data_list outcome) w in
  match outcome with
  | None => (w', (total_stored + length batch)%nat, errors)
  | Some e => (w', total_stored, errors ++ [BatchError i e])
  end.

Definition storeVectorsBatch (env : environment) (bucket_name index_name : string)
    (vectors : list vector) (batch_size : Z) (w : world) : result (world * store_result) :=
  starts ← range_step (length vectors) batch_size;
  let '(w', total_stored, errors) :=
    foldl (store_batch env bucket_name index_name vectors batch_size) (w, 0%nat, []) starts in
  Ok (w', {| stored := total_stored;
             store_errors := match errors with [] => None | _ => Some errors end |}).

(** *** Data loading *)

(** The date of the file name [{roomId}_{date}_chat.json] of a key. *)
Definition file_parts (key : string) : list string :=
  let filename := default "" (last (PyStr.split "/" key)) in
  PyStr.rsplit2 "_" filename.

Definition file_of_object (since_date : option string) (obj : s3_object) : option file_info :=
  let key := obj_Key obj in
  if negb (PyStr.endswith key "_chat.json") then None
  else
    let parts := file_parts key in
    if (2 <=? length parts)%nat then
      let file_date := default "" (parts !! (length parts - 2)%nat) in
      if PyStr.truthy since_date && String.leb file_date (default "" since_date) then None
      else Some {| file_key := key;
                   file_room_id := default "" (head parts);
                   file_date := file_date;
                   file_last_modified := obj_LastModified obj |}
    else None.

(** [getNewChatFiles], on the pages of the listing of the bucket. *)
Definition getNewChatFiles (pages : list (list s3_object)) (since_date : option string)
  : list file_info :=
  omap (file_of_object since_date) (concat pages).

Definition transform (room : string) (msg : raw_message) : option message :=
  if negb (PyStr.truthy (raw_text msg)) then None
  else Some {| timestamp := raw_created msg;
               sender := match raw_personEmail msg with
                         | Some v => v
                         | None => default (Some "Unknown") (raw_personDisplayName msg)
                         end;
               text := default "" (raw_text msg);
               room_id := room;
               message_id := raw_id msg |}.

Definition loadAndTransformMessages (env : environment) (bucket_name : string)
    (f : file_info) (w : world) : list message * world :=
  let w' := log (EvGetObject bucket_name (file_key f)) w in
  match env_get_object env (history w) bucket_name (file_key f) with
  | Some messages => (omap (transform (file_room_id f)) messages, w')
  | None => ([], w')
  end.

(** *** Main processing *)

Record results := mkResults {
  files_processed : nat;
  vectors_stored : nat;
  errors : list error_entry
}.

Definition add_errors (r : results) (es : list error_entry) : results :=
  {| files_processed := files_processed r;
     vectors_stored := vectors_stored r;
     errors := errors r ++ es |}.

(** The deduplication loop of [processNewFiles]: the messages kept, given
    the identifiers seen so far. *)
Fixpoint deduplicate (seen_ids : gset string) (messages : list message) : list message :=
  match messages with
  | [] => []
  | msg :: rest =>
      let msg_id := message_id msg in
      if PyStr.truthy msg_id && negb (bool_decide (default "" msg_id ∈ seen_ids))
      then msg :: deduplicate ({[ default "" msg_id ]} ∪ seen_ids) rest
      else if negb (PyStr.truthy msg_id) then msg :: deduplicate seen_ids rest
      else deduplicate seen_ids rest
  end.

Definition metadata_items (m : chunk_metadata) : list (string * option md_value) :=
  [ ("type", Some (MdStr (md_type m)));
    ("channel_id", Some (MdStr (md_channel_id m)));
    ("timestamp", Some (MdStr (md_timestamp m)));
    ("topics", Some (MdList (md_topics m)));
    ("primary_topic", Some (MdStr (md_primary_topic m)));
    ("is_thread_complete", Some (MdBool (md_is_thread_complete m)));
    ("is_verified", Some (MdBool (md_is_verified m)));
    ("priority", Some (MdInt (md_priority m)));
    ("start_time", Some (MdStr (md_start_time m)));
    ("end_time", Some (MdStr (md_end_time m)));
    ("message_count", Some (MdInt (Z.of_nat (md_message_count m))));
    ("chunk_text", Some (MdStr (md_chunk_text m)));
    ("corrects_vector_key", MdStr <$> md_corrects_vector_key m);
    ("original_question", MdStr <$> md_original_question m);
    ("verified_answer", MdStr <$> md_verified_answer m) ].

Definition sanitized_metadata (cfg : config) (c : chunk) : list (string * md_value) :=
  let metadata :=
    metadata_items (metadata c)
    ++ [ ("project_id", Some (MdStr (project_id cfg))); ("source", Some (MdStr "webex")) ] in
  omap (fun kv => pair (fst kv) <$> snd kv) metadata.

(** The loop that prepares the vectors: the chunks paired with their
    embedding results.  A result that is [None] cannot be subscripted. *)
Fixpoint prepare_vectors (cfg : config) (f : file_info)
    (pairs : list (chunk * option emb_result)) (acc : list error_entry * list vector)
  : list error_entry * result (list vector) :=
  match pairs with
  | [] => (fst acc, Ok (snd acc))
  | (chunk, None) :: _ => (fst acc, Raise TypeError)
  | (chunk, Some emb_result) :: rest =>
      if PyStr.truthy (er_error emb_result) then
        prepare_vectors cfg f rest
          (fst acc ++ [ChunkError (file_key f) (chunk_id chunk) (default "" (er_error emb_result))],
           snd acc)
      else
        prepare_vectors cfg f rest
          (fst acc,
           snd acc ++ [ {| vec_key := chunk_id chunk;
                           vec_embedding := er_embedding emb_result;
                           vec_metadata := sanitized_metadata cfg chunk |} ])
  end.

Definition file_error (f : file_info) (e : exn) (r : results) : results :=
  add_errors r [FileError (file_key f) e].

(** How far the body of the loop of [processNewFiles] got before the
    vectors are stored: it went on to the next file ([continue]), it raised
    an exception, or it has the vectors to store. *)
Inductive prepared :=
| Skipped (w : world) (r : results)
| Failed (w : world) (r : results) (e : exn)
| Ready (w : world) (r : results) (vectors_to_store : list vector).

(** The [try] block of the loop of [processNewFiles], from the loading of
    the messages to the vectors to store. *)
Definition prepare_file (env : environment) (cfg : config) (f : file_info)
    (st : world * results) : prepared :=
  let '(w, r) := st in
  (* Load messages *)
  let '(messages, w) := loadAndTransformMessages env (source_bucket cfg) f w in
  match messages with
  | [] => Skipped w r
  | _ =>
    (* Deduplicate *)
    let unique_messages := deduplicate ∅ messages in
    (* Smart conversation chunking *)
    match chunkByConversation (env_fromisoformat env) (env_now env (history w))
            (env_topic_keywords env) (file_room_id f) 30 50 4000 unique_messages with
    | Raise e => Failed w r e
    | Ok [] => Skipped w r
    | Ok chunks =>
      (* Generate embeddings in parallel *)
      let texts := map chunk_text chunks in
      match getEmbeddingsParallel (env_getEmbedding env (history w))
              (env_as_completed env (history w) (length texts)) texts (max_workers cfg) with
      | Raise e => Failed w r e
      | Ok embedding_results =>
        let w := log (EvInvokeModel texts) w in
        (* Prepare vectors with metadata from smart chunker *)
        match prepare_vectors cfg f (zip chunks embedding_results) ([], []) with
        | (es, Raise e) => Failed w (add_errors r es) e
        | (es, Ok vectors_to_store) => Ready w (add_errors r es) vectors_to_store
        end
      end
    end
  end.

(** The rest of the [try] block: the vectors are stored, the file is
    counted and the cursor is set to the date of the file. *)
Definition store_and_checkpoint (env : environment) (cfg : config) (f : file_info)
    (w : world) (r : results) (vectors_to_store : list vector) : world * results :=
  (* Store vectors *)
  let stored :=
    match vectors_to_store with
    | [] => Ok (w, r)
    | _ =>
        '(w', store_result) ←
          storeVectorsBatch env (vector_bucket cfg) (index_name cfg)
            vectors_to_store (batch_size cfg) w;
        Ok (w', {| files_processed := files_processed r;
                   vectors_stored := (vectors_stored r + stored store_result)%nat;
                   errors := errors r ++ default [] (store_errors store_result) |})
    end in
  match stored with
  | Raise e => (w, file_error f e r)
  | Ok (w, r) =>
      let r := {| files_processed := S (files_processed r);
                  vectors_stored := vectors_stored r;
                  errors := errors r |} in
      (* Checkpoint *)
      (setLastProcessedDate env (ssm_prefix cfg) (project_id cfg) (file_date f) w, r)
  end.

(** The body of the loop of [processNewFiles] after the check of the
    remaining time: the [try] block and its handler. *)
Definition processFile (env : environment) (cfg : config) (f : file_info)
    (st : world * results) : world * results :=
  match prepare_file env cfg f st with
  | Skipped w r => (w, r)
  | Failed w r e => (w, file_error f e r)
  | Ready w r vectors_to_store => store_and_checkpoint env cfg f w r vectors_to_store
  end.

(** The loop of [processNewFiles].  [context] is the function
    [get_remaining_time_in_millis] of the invocation, [None] when there is
    no context or it has no such function. *)
Fixpoint process_loop (env : environment) (cfg : config)
    (context : option (list event -> Z)) (files_sorted : list file_info)
    (st : world * results) : world * results :=
  match files_sorted with
  | [] => st
  | f :: rest =>
      match context with
      | Some get_remaining_time_in_millis =>
          let remaining_ms := get_remaining_time_in_millis (history (fst st)) in
          let st' := (log (EvRemainingTime remaining_ms) (fst st), snd st) in
          if remaining_ms <? 30000 then st'
          else process_loop env cfg context rest (processFile env cfg f st')
      | None => process_loop env cfg context rest (processFile env cfg f st)
      end
  end.

Definition processNewFiles (env : environment) (cfg : config)
    (context : option (list event -> Z)) (files : list file_info) (w : world)
  : world * results :=
  (* Sort files by date so we can checkpoint incrementally *)
  let files_sorted := stable_sort (map (fun f => (file_date f, f)) files) in
  process_loop env cfg context files_sorted (w, mkResults 0 0 []).

(** One invocation of [handler] with a valid configuration, on a bucket
    whose listing under the prefix is [pages], up to the response: the
    cursor is read, the new files are discovered and processed. *)
Definition run (env : environment) (cfg : config) (context : option (list event -> Z))
    (pages : list (list s3_object)) (w : world) : world * results :=
  let '(last_date, w) := getLastProcessedDate env (ssm_prefix cfg) (project_id cfg) w in
  let new_files := getNewChatFiles pages last_date in
  match new_files with
  | [] => (w, mkResults 0 0 [])
  | _ => processNewFiles env cfg context new_files w
  end.

(** The checkpoint cursor of a project in a state of the services. *)
Definition cursor (cfg : config) (w : world) : option string :=
  ssm_store w !! getSsmParameterName (ssm_prefix cfg) (project_id cfg).

(** ** A parser of ISO timestamps for the examples

    [datetime.fromisoformat] on the strings [YYYY-MM-DD] and
    [YYYY-MM-DDTHH:MM:SS], the latter with an optional offset [+HH:MM] or
    [-HH:MM]; every other string is taken as not parsable.  The theorems
    hold for every parser; this one evaluates the examples. *)

Module IsoBasic.

Definition digit (c : ascii) : option Z :=
  let n := nat_of_ascii c in
  if ((48 <=? n) && (n <=? 57))%nat then Some (Z.of_nat (n - 48)) else None.

Fixpoint number (acc : Z) (cs : list ascii) : option Z :=
  match cs with
  | [] => Some acc
  | c :: cs' => d ← digit c; number (10 * acc + d) cs'
  end.

Definition is_leap (y : Z) : bool :=
  ((y mod 4 =? 0) && negb (y mod 100 =? 0)) || (y mod 400 =? 0).

Definition days_in_month (y m : Z) : Z :=
  if m =? 2 then (if is_leap y then 29 else 28)
  else if (m =? 4) || (m =? 6) || (m =? 9) || (m =? 11) then 30 else 31.

(** The number of days from 1970-01-01 to the date. *)
Definition days_from_civil (y m d : Z) : Z :=
  let y' := if m <=? 2 then y - 1 else y in
  let era := y' / 400 in
  let yoe := y' - era * 400 in
  let doy := (153 * (if 2 <? m then m - 3 else m + 9) + 2) / 5 + d - 1 in
  let doe := yoe * 365 + yoe / 4 - yoe / 100 + doy in
  era * 146097 + doe - 719468.

Definition date (cs : list ascii) : option Z :=
  match cs with
  | [y1; y2; y3; y4; "-"%char; m1; m2; "-"%char; d1; d2] =>
      y ← number 0 [y1; y2; y3; y4];
      m ← number 0 [m1; m2];
      d ← number 0 [d1; d2];
      if (1 <=? y) && (1 <=? m) && (m <=? 12) && (1 <=? d) && (d <=? days_in_month y m)
      then Some (days_from_civil y m d * 86400) else None
  | _ => None
  end.

Definition time (cs : list ascii) : option Z :=
  match cs with
  | [h1; h2; ":"%char; m1; m2; ":"%char; s1; s2] =>
      h ← number 0 [h1; h2];
      m ← number 0 [m1; m2];
      s ← number 0 [s1; s2];
      if (h <? 24) && (m <? 60) && (s <? 60) then Some (h * 3600 + m * 60 + s) else None
  | _ => None
  end.

Definition offset (cs : list ascii) : option (option Z) :=
  match cs with
  | [] => Some None
  | [sign; h1; h2; ":"%char; m1; m2] =>
      h ← number 0 [h1; h2];
      m ← number 0 [m1; m2];
      if (h <? 24) && (m <? 60) then
        if Ascii.eqb sign "+" then Some (Some ((h * 3600 + m * 60) * 1000000))
        else if Ascii.eqb sign "-" then Some (Some (- (h * 3600 + m * 60) * 1000000))
        else None
      else None
  | _ => None
  end.

Definition fromisoformat (s : string) : option datetime :=
  let cs := list_ascii_of_string s in
  d ← date (take 10 cs);
  match drop 10 cs with
  | [] => Some (mkDatetime (d * 1000000) None)
  | "T"%char :: rest =>
      t ← time (take 8 rest);
      off ← offset (drop 8 rest);
      Some (mkDatetime ((d + t) * 1000000) off)
  | _ => None
  end.

End IsoBasic.

(** ** Predicates of the statements *)

(** The string that [parseTimestamp] hands to [datetime.fromisoformat]. *)
Definition iso_input (ts : string) : string :=
  let ts := PyStr.replace_char "Z" "+00:00" ts in
  if PyStr.contains "." ts then PyStr.split_head "." ts +:+ "+00:00" else ts.

(** The timestamp of a message is a string that [fromisoformat] parses. *)
Definition parsable (fromisoformat : string -> option datetime) (m : message) : Prop :=
  exists ts, timestamp m = Some ts /\ is_Some (fromisoformat (iso_input ts)).

(** The [datetime] of a stamped message is the one [parseTimestamp] gives
    for its timestamp, at some reading of the clock. *)
Definition stamp_parsed (fromisoformat : string -> option datetime) (now : clock)
    (s : stamped) : Prop :=
  exists n, fst (parseTimestamp fromisoformat now (timestamp (st_msg s)) n) = st_ts s.

(** The test of the gap does not fire between [a] and the incoming message
    [b]: the difference [b - a] of their [datetime]s, negative when [b] is
    the earlier instant, is not more than [minutes] minutes as the loop
    computes them. *)
Definition gap_within (minutes : Z) (a b : stamped) : Prop :=
  exists us, datetime_sub (st_ts b) (st_ts a) = Ok us /\ minutes_gt us minutes = false.

(** The instants of [a] and [b] are at most [minutes] minutes apart,
    whichever is the earlier. *)
Definition apart_within (minutes : Z) (a b : stamped) : Prop :=
  exists us, datetime_sub (st_ts b) (st_ts a) = Ok us /\ Z.abs us <= minutes * 60000000.

(** [b] comes more than [minutes] minutes after [a]. *)
Definition gap_exceeds (minutes : Z) (a b : stamped) : Prop :=
  exists us, datetime_sub (st_ts b) (st_ts a) = Ok us /\ minutes * 60000000 < us.

(** The resolution heuristic fires between [a], the last message of the open
    chunk, and the incoming message [b]. *)
Definition resolution_break (a b : stamped) : Prop :=
  detectResolution (text (st_msg a)) = true
  /\ (PyStr.contains "?" (text (st_msg b)) = true \/ gap_exceeds 10 a b).

(** [a] and [b] are adjacent in a list, [a] first. *)
Definition adjacent {A} (l : list A) (a b : A) : Prop :=
  exists i, l !! i = Some a /\ l !! S i = Some b.

(** The positions, in the sequence of all messages, at which a group
    starts. *)
Definition boundary (groups : list (list stamped)) (k : nat) : Prop :=
  exists j, (j < length groups)%nat /\ length (concat (take j groups)) = k.

(** The limits that the loop keeps for a group of messages. *)
Definition group_within (gap_minutes max_messages max_chars : Z) (grp : list stamped) : Prop :=
  (1 <= max_messages -> Z.of_nat (length grp) <= max_messages)
  /\ (Z.of_nat (rendered_chars grp) <= max_chars \/ (length grp <= 1)%nat)
  /\ (forall a b, adjacent grp a b -> gap_within gap_minutes a b /\ ~ resolution_break a b).

(** What the loop keeps true of the groups closed so far and of the open
    one. *)
Definition seg_inv (fromisoformat : string -> option datetime) (now : clock)
    (gap_minutes max_messages max_chars : Z) (g : seg_state) : Prop :=
  Forall (group_within gap_minutes max_messages max_chars) (seg_done g)
  /\ group_within gap_minutes max_messages max_chars (seg_open g)
  /\ Forall (fun grp => grp <> []) (seg_done g)
  /\ Forall (stamp_parsed fromisoformat now) (concat (seg_done g) ++ seg_open g).

(** The chunk [c] is the chunk of the group [grp]: its text is the rendered
    messages of the group, one per line, its count their number. *)
Definition chunk_holds (c : chunk) (grp : list stamped) : Prop :=
  chunk_text c = PyStr.join newline (map (fun s => render (st_msg s)) grp)
  /\ md_message_count (metadata c) = length grp.

Definition message_count (c : chunk) : nat := md_message_count (metadata c).

(** The size property as the specification words it: the count within
    [max_messages], the text within [max_chars] unless the chunk is one
    message. *)
Definition size_property (max_messages max_chars : Z) (c : chunk) : Prop :=
  Z.of_nat (message_count c) <= max_messages
  /\ (Z.of_nat (String.length (chunk_text c)) <= max_chars \/ message_count c = 1%nat).

(** The values written to the parameter [name] by the calls of
    [put_parameter] that succeeded, in order. *)
Definition cursor_writes (name : string) (h : list event) : list string :=
  omap (fun ev => match ev with
                  | EvPutParameter n v None => if String.eqb n name then Some v else None
                  | _ => None
                  end) h.

(** The outcomes of the calls of [put_vectors], in order. *)
Definition put_outcomes (h : list event) : list (option string) :=
  omap (fun ev => match ev with
                  | EvPutVectors _ _ _ o => Some o
                  | _ => None
                  end) h.

(** The last element of [l], or [d] when [l] is empty. *)
Definition last_or (l : list string) (d : option string) : option string :=
  match last l with Some v => Some v | None => d end.

(** The order of the cursors: no cursor is before every cursor, two
    cursors are compared as strings. *)
Definition cursor_le (a b : option string) : Prop :=
  match a, b with
  | None, _ => True
  | Some x, Some y => String.leb x y = true
  | Some _, None => False
  end.

Definition parameter_name (cfg : config) : string :=
  getSsmParameterName (ssm_prefix cfg) (project_id cfg).

(** The files that [processNewFiles] goes through, in order. *)
Definition files_sorted (files : list file_info) : list file_info :=
  stable_sort (map (fun f => (file_date f, f)) files).

(** A change of the services that writes no cursor: the parameter store is
    the same and the calls added have no successful [put_parameter]. *)
Definition quiet (name : string) (w w' : world) : Prop :=
  ssm_store w' = ssm_store w
  /\ exists new, history w' = history w ++ new /\ cursor_writes name new = [].

(** A change of the services along which the cursor of the project was
    written with the dates [dates], in order, and with nothing else. *)
Definition wrote (cfg : config) (dates : list string) (w w' : world) : Prop :=
  exists new,
    history w' = history w ++ new
    /\ cursor_writes (parameter_name cfg) new = dates
    /\ cursor cfg w' = last_or dates (cursor cfg w).

(** ** Inputs of the examples *)

Module Examples.

Definition said (ts sender text : string) : message :=
  mkMessage (Some ts) (Some sender) text "room" None.

(** The scenario of a question, its answer, and a later question. *)
Definition scenario : list message :=
  [ said "2024-01-01T10:00:00Z" "ana" "hi";
    said "2024-01-01T10:02:00Z" "ana" "can you help?";
    said "2024-01-01T10:05:00Z" "ben" "thanks, fixed!";
    said "2024-01-01T10:40:00Z" "ana" "one more question" ].

(** A resolved thread and a new question twenty minutes later. *)
Definition resolved_pair : list message :=
  [ said "2024-01-01T10:00:00Z" "ana" "it works, thanks";
    said "2024-01-01T10:20:00Z" "ben" "new question?" ].

(** Two messages of ten rendered characters each. *)
Definition full_pair : list message :=
  [ said "2024-01-01T10:00:00Z" "a" "12345";
    said "2024-01-01T10:01:00Z" "b" "67890" ].

(** A message with a timestamp and one whose timestamp does not parse. *)
Definition late_pair : list message :=
  [ said "2024-01-01T10:00:00" "ana" "hi";
    said "zzz" "ben" "hello" ].

(** Two wall clocks: 10:20 and 10:40 on 2024-01-01, local time. *)
Definition clock_1020 : clock := fun _ => 1704104400000000.
Definition clock_1040 : clock := fun _ => 1704105600000000.

Definition chunk_default (now : clock) (messages : list message) : result (list chunk) :=
  chunkByConversation IsoBasic.fromisoformat now TOPIC_KEYWORDS_initial "room" 30 50 4000
    messages.

(** A message with an offset and one whose timestamp does not parse. *)
Definition mixed_pair : list message :=
  [ said "2024-01-01T10:00:00Z" "ana" "hi";
    said "zzz" "ben" "hello" ].

(** Two messages with different offsets: the second, 12:00 at +05:00, is
    three hours before the first in time and after it in the order of the
    timestamp strings. *)
Definition offset_pair : list message :=
  [ said "2024-01-01T10:00:00Z" "ana" "hi";
    said "2024-01-01T12:00:00+05:00" "ben" "hello" ].

(** A message of the first day of 1400 and one whose timestamp does not
    parse, read at the clock below, which is 300000000 minutes and one
    microsecond later. *)
Definition far_pair : list message :=
  [ said "1400-01-01T00:00:00" "ana" "hi";
    said "zzz" "ben" "hello" ].

(** 1970-05-26 08:00:00.000001, local time. *)
Definition clock_far : clock := fun _ => 12556800000001.

Definition chunks_or_nil (r : result (list chunk)) : list chunk :=
  match r with Ok chunks => chunks | Raise _ => [] end.

Definition scenario_chunks : list chunk :=
  Eval vm_compute in chunks_or_nil (chunk_default clock_1020 scenario).

Definition resolved_chunks : list chunk :=
  Eval vm_compute in chunks_or_nil (chunk_default clock_1020 resolved_pair).

Definition scenario_first : chunk :=
  Eval vm_compute in
    match scenario_chunks with c :: _ => c | [] => mkChunk "" "" (mkMetadata "" "" "" [] "" false false 0 "" "" 0 "" None None None) end.

(** *** A run of the sync *)

Definition cfg : config :=
  {| source_bucket := "chat-data";
     vector_bucket := "vectors";
     index_name := "chat-index";
     project_id := "ccoe-chat-history";
     ssm_prefix := "/embedding-sync";
     max_workers := 10;
     batch_size := 50 |}.

Definition pages : list (list s3_object) :=
  [ [ mkObject "feed/room_2024-01-01_chat.json" 1;
      mkObject "feed/room_2024-01-02_chat.json" 2 ];
    [ mkObject "feed/room_2024-01-03_chat.json" 3;
      mkObject "feed/readme.txt" 4 ] ].

Definition chat_file : list raw_message :=
  [ mkRaw (Some "deploy failed again") (Some "2024-01-03T09:00:00.000Z")
          (Some (Some "ana@example.com")) None (Some "m1");
    mkRaw (Some "fixed, thanks") (Some "2024-01-03T09:05:00.000Z")
          (Some (Some "ben@example.com")) None (Some "m2") ].

(** The services work, except that [put_vectors] fails when [writer_fails]
    and that the read of the parameter fails when [read_fails]. *)
Definition services (writer_fails read_fails : bool) : environment :=
  {| env_fromisoformat := IsoBasic.fromisoformat;
     env_now := fun _ => clock_1020;
     env_topic_keywords := TOPIC_KEYWORDS_initial;
     env_get_parameter_fails := fun _ _ => read_fails;
     env_put_parameter := fun _ _ _ => None;
     env_get_object := fun _ _ _ => Some chat_file;
     env_getEmbedding := fun _ _ _ => inr [1; 2; 3];
     env_as_completed := fun _ n => rev (seq 0 n);
     env_put_vectors := fun _ _ _ _ =>
       if writer_fails then Some "ServiceUnavailableException" else None |}.

(** The services after the sources up to the date [d] were processed. *)
Definition processed_until (d : string) : world :=
  {| ssm_store := {[ parameter_name cfg := d ]}; history := [] |}.

Definition first_run : world := {| ssm_store := ∅; history := [] |}.

(** The source of 2024-01-03, as the discovery returns it. *)
Definition jan03 : file_info :=
  {| file_key := "feed/room_2024-01-03_chat.json";
     file_room_id := "room";
     file_date := "2024-01-03";
     file_last_modified := 3 |}.

(** A run with the cursor at 2024-01-02 and a writer that fails. *)
Definition run_writer_fails : world * results :=
  run (services true false) cfg None pages (processed_until "2024-01-02").

(** Three texts; the embedding of the second fails. *)
Definition texts : list string := ["a"; "b"; "c"].

Definition embed_but_b (i : nat) (t : string) : string + embedding :=
  if String.eqb t "b" then inl "ModelTimeoutException" else inr [Z.of_nat i].

(** Three vectors, for batches of two. *)
Definition three_vectors : list vector :=
  [ mkVector "k0" (Some [0]) []; mkVector "k1" (Some [1]) []; mkVector "k2" (Some [2]) [] ].

(** Messages with the identifiers m1, m2, m1 and one without identifier. *)
Definition repeated : list message :=
  [ mkMessage (Some "2024-01-01T10:00:00Z") (Some "ana") "one" "room" (Some "m1");
    mkMessage (Some "2024-01-01T10:01:00Z") (Some "ben") "two" "room" (Some "m2");
    mkMessage (Some "2024-01-01T10:02:00Z") (Some "ana") "one again" "room" (Some "m1");
    mkMessage (Some "2024-01-01T10:03:00Z") (Some "bot") "notice" "room" None ].

(** Two messages whose identifier is the empty string. *)
Definition empty_ids : list message :=
  [ mkMessage (Some "2024-01-01T10:00:00Z") (Some "ana") "one" "room" (Some "");
    mkMessage (Some "2024-01-01T10:01:00Z") (Some "ben") "two" "room" (Some "") ].

(** The remaining time of an invocation that has time for one source: it
    is plenty until five calls were made, and one second after. *)
Definition time_for_one (h : list event) : Z :=
  if (length h <=? 4)%nat then 100000 else 1000.

(** A run with the cursor at 2024-01-02, in which the read of the cursor
    fails and the time runs out after one source. *)
Definition run_read_fails : world * results :=
  run (services false true) cfg (Some time_for_one) pages (processed_until "2024-01-02").

End Examples.

(** [m] carries the identifier [x]. *)
Definition has_id (x : string) (m : message) : bool :=
  bool_decide (message_id m = Some x).

(** [m] has no identifier that counts: it is absent or the empty string. *)
Definition no_id (m : message) : bool := negb (PyStr.truthy (message_id m)).

(** Of the messages of [input] that carry the identifier [x], [output] has
    the first and no other. *)
Definition first_occurrence_only (x : string) (input output : list message) : Prop :=
  List.filter (has_id x) output = take 1 (List.filter (has_id x) input).

(** The call of [put_vectors] for a batch, with its outcome. *)
Definition put_event (bucket_name index_name : string) (batch : list vector)
    (outcome : option string) : event :=
  EvPutVectors bucket_name index_name (map to_vector_data batch) outcome.

(** The answers of [put_vectors] to the batches, sent one after the other
    from the history [h]: each is the answer of the service at the history
    of that moment, which has the calls for the batches before. *)
Fixpoint put_answers (env : environment) (bucket_name index_name : string)
    (h : list event) (batches : list (list vector)) : list (option string) :=
  match batches with
  | [] => []
  | b :: bs =>
      let o := env_put_vectors env h bucket_name index_name (map to_vector_data b) in
      o :: put_answers env bucket_name index_name
             (h ++ [put_event bucket_name index_name b o]) bs
  end.

(** The number of vectors of the batches that were written. *)
Definition written (batches : list (list vector)) (outcomes : list (option string)) : nat :=
  sum_nat (zip_with (fun b o => match o with None => length b | Some _ => 0%nat end)
             batches outcomes).

(** The errors of the batches that failed, each with the position of the
    first vector of its batch, [offset] being that of the first batch. *)
Fixpoint batch_errors (batches : list (list vector)) (outcomes : list (option string))
    (offset : nat) : list error_entry :=
  match batches, outcomes with
  | b :: bs, o :: os =>
      match o with Some e => [BatchError offset e] | None => [] end
      ++ batch_errors bs os (offset + length b)
  | _, _ => []
  end.

(** ** Predicates of the further properties *)

(** The date in the identifier of a chunk, from [str(start_time)]. *)
Definition chunk_date (start_str : string) : string :=
  if PyStr.contains "T" start_str then PyStr.split_head "T" start_str
  else PyStr.take 10 start_str.

(** The key [x.get('timestamp', '')] of a message, as the string [str]
    makes of it. *)
Definition timestamp_str (m : message) : string := PyStr.of_option (timestamp m).

(** Whether the timestamp of a message is the string [k]. *)
Definition has_timestamp (k : string) (m : message) : bool :=
  bool_decide (timestamp m = Some k).

(** ** The keyword configuration

    [TOPIC_KEYWORDS] maps a topic to a list, and the lists are objects:
    [addTopicKeywords] extends the list of a topic in place, or stores the
    very list it is given, and [getTopicKeywords] copies the dictionary and
    not the lists.  The lists are kept in a store, under their addresses;
    the dictionary and its copies hold addresses, in insertion order. *)

Record keyword_config := mkKeywords {
  kw_lists : gmap nat (list string);
  kw_TOPIC_KEYWORDS : list (string * nat)
}.

(** [d.get(key)] on the items of a dictionary. *)
Fixpoint dict_get {A} (key : string) (d : list (string * A)) : option A :=
  match d with
  | [] => None
  | (k, v) :: d' => if String.eqb k key then Some v else dict_get key d'
  end.

(** The list at an address; an address that holds no list reads as the
    empty list. *)
Definition keywords_at (st : keyword_config) (address : nat) : list string :=
  default [] (kw_lists st !! address).

(** The items of a dictionary of addresses, with the lists that the
    addresses hold in [st]. *)
Definition items_in (st : keyword_config) (d : list (string * nat))
  : list (string * list string) :=
  map (fun kv => (fst kv, keywords_at st (snd kv))) d.

(** The value of [TOPIC_KEYWORDS], as [detectTopics] reads it. *)
Definition topic_keywords (st : keyword_config) : list (string * list string) :=
  items_in st (kw_TOPIC_KEYWORDS st).

(** [addTopicKeywords topic keywords], [keywords] being the address of the
    list of the caller. *)
Definition addTopicKeywords (topic : string) (keywords : nat) (st : keyword_config)
  : keyword_config :=
  match dict_get topic (kw_TOPIC_KEYWORDS st) with
  | Some address =>
      {| kw_lists := <[address := keywords_at st address ++ keywords_at st keywords]>
                       (kw_lists st);
         kw_TOPIC_KEYWORDS := kw_TOPIC_KEYWORDS st |}
  | None =>
      {| kw_lists := kw_lists st;
         kw_TOPIC_KEYWORDS := kw_TOPIC_KEYWORDS st ++ [(topic, keywords)] |}
  end.

(** [getTopicKeywords()]: a new dictionary with the same addresses. *)
Definition getTopicKeywords (st : keyword_config) : list (string * nat) :=
  kw_TOPIC_KEYWORDS st.

(** The configuration when the module is loaded: the list of the [i]-th
    topic is at the address [i]. *)
Definition keywords_loaded : keyword_config :=
  {| kw_lists := list_to_map (imap (fun i kv => (i, snd kv)) TOPIC_KEYWORDS_initial);
     kw_TOPIC_KEYWORDS := imap (fun i kv => (fst kv, i)) TOPIC_KEYWORDS_initial |}.

(** An upper-case letter of ASCII. *)
Definition is_upper (c : ascii) : bool :=
  let n := nat_of_ascii c in ((65 <=? n) && (n <=? 90))%nat.

(** [s] has an upper-case letter. *)
Definition has_upper (s : string) : bool := existsb is_upper (list_ascii_of_string s).

(** ** Configuration and handler *)

(** The dictionary that [getConfig] returns: the three names that have no
    default can be [None]. *)
Record environment_config := mkEnvironmentConfig {
  env_source_bucket : option string;
  env_vector_bucket : option string;
  env_index_name : option string;
  env_project_id : string;
  env_ssm_prefix : string;
  env_max_workers : Z;
  env_batch_size : Z
}.

Section Handler.

(** [int] on a string: [None] stands for its [ValueError]. *)
Variable int : string -> option Z.

Definition int_of (s : string) : result Z :=
  match int s with Some n => Ok n | None => Raise ValueError end.

(** [getConfig()], on the variables of the process environment. *)
Definition getConfig (environ : gmap string string) : result environment_config :=
  max_workers ← int_of (default "10" (environ !! "MAX_WORKERS"));
  batch_size ← int_of (default "50" (environ !! "BATCH_SIZE"));
  Ok {| env_source_bucket := environ !! "CHAT_DATA_S3_BUCKET";
        env_vector_bucket := environ !! "VECTOR_BUCKET";
        env_index_name := environ !! "VECTOR_INDEX";
        env_project_id := default "ccoe-chat-history" (environ !! "PROJECT_ID");
        env_ssm_prefix := default "/embedding-sync" (environ !! "SSM_PREFIX");
        env_max_workers := max_workers;
        env_batch_size := batch_size |}.

(** The configuration once the three names were found to be set. *)
Definition validated (c : environment_config) : config :=
  {| source_bucket := default "" (env_source_bucket c);
     vector_bucket := default "" (env_vector_bucket c);
     index_name := default "" (env_index_name c);
     project_id := env_project_id c;
     ssm_prefix := env_ssm_prefix c;
     max_workers := env_max_workers c;
     batch_size := env_batch_size c |}.

(** What the handler caught: an exception of the model, or an exception of
    the listing of the bucket, with its message. *)
Inductive caught :=
| Raised (e : exn)
| ListingFailed (message : string).

(** The dictionary that the handler serialises as the body of its
    response. *)
Inductive response_body :=
| NoNewFiles
| SyncComplete (files_processed vectors_stored errors : nat)
| HandlerError (error : caught).

Record response := mkResponse {
  statusCode : Z;
  body : response_body
}.

(** [handler(event, context)].  [listing] is the outcome of the listing of
    the bucket under [feed/]: its pages, or the message of the exception it
    raises. *)
Definition handler (env : environment) (environ : gmap string string)
    (listing : string + list (list s3_object)) (context : option (list event -> Z))
    (w : world) : world * response :=
  (* Get configuration *)
  match getConfig environ with
  | Raise e => (w, mkResponse 500 (HandlerError (Raised e)))
  | Ok config =>
    (* Validate config *)
    if negb (PyStr.truthy (env_source_bucket config)
             && PyStr.truthy (env_vector_bucket config)
             && PyStr.truthy (env_index_name config))
    then (w, mkResponse 500 (HandlerError (Raised ValueError)))
    else
      let config := validated config in
      (* Get last processed date from SSM Parameter Store *)
      let '(last_date, w) :=
        getLastProcessedDate env (ssm_prefix config) (project_id config) w in
      (* Get new files *)
      match listing with
      | inl message => (w, mkResponse 500 (HandlerError (ListingFailed message)))
      | inr pages =>
        let new_files := getNewChatFiles pages last_date in
        match new_files with
        | [] => (w, mkResponse 200 NoNewFiles)
        | _ =>
          (* Process files with smart chunking *)
          let '(w, results) := processNewFiles env config context new_files w in
          (w, mkResponse 200 (SyncComplete (files_processed results)
                                (vectors_stored results) (length (errors results))))
        end
      end
  end.

End Handler.

(** ** Counts of the calls made *)

(** The number of calls of [put_parameter]. *)
Definition checkpoint_calls (h : list event) : nat :=
  length (List.filter (fun ev => match ev with EvPutParameter _ _ _ => true | _ => false end) h).

(** The number of vectors in the calls of [put_vectors] that succeeded. *)
Definition vectors_written (h : list event) : nat :=
  sum_nat (omap (fun ev => match ev with
                           | EvPutVectors _ _ vectors None => Some (length vectors)
                           | _ => None
                           end) h).

(** The embedding of the chunk of a pair failed, with a message that is not
    empty. *)
Definition embedding_failed (p : chunk * option emb_result) : bool :=
  match snd p with
  | Some emb_result => PyStr.truthy (er_error emb_result)
  | None => false
  end.

(** The error that [processNewFiles] records for such a pair, and the
    vector that it makes of another one. *)
Definition chunk_error (f : file_info) (p : chunk * option emb_result) : error_entry :=
  ChunkError (file_key f) (chunk_id (fst p)) (default "" (snd p ≫= er_error)).

Definition vector_of (cfg : config) (p : chunk * option emb_result) : vector :=
  {| vec_key := chunk_id (fst p);
     vec_embedding := snd p ≫= er_embedding;
     vec_metadata := sanitized_metadata cfg (fst p) |}.

(** The names under which [processNewFiles] stores the metadata of a chunk
    of [chunkByConversation]. *)
Definition stored_metadata_keys : list string :=
  [ "type"; "channel_id"; "timestamp"; "topics"; "primary_topic";
    "is_thread_complete"; "is_verified"; "priority"; "start_time"; "end_time";
    "message_count"; "chunk_text"; "project_id"; "source" ].

(** The texts of the messages of a chat file that have one. *)
Definition texts_of (messages : list raw_message) : list string :=
  omap (fun msg => if PyStr.truthy (raw_text msg) then raw_text msg else None) messages.

(** A change of the services that leaves every parameter but [name] as it
    was. *)
Definition only_parameter (name : string) (w w' : world) : Prop :=
  forall other, other <> name -> ssm_store w' !! other = ssm_store w !! other.

(** The readings of the remaining time, in order. *)
Definition remaining_readings (h : list event) : list Z :=
  omap (fun ev => match ev with EvRemainingTime ms => Some ms | _ => None end) h.

(** ** Inputs of the further examples *)

Module Further.

(** [int] on the strings of decimal digits; every other string is taken as
    not a number.  The theorems hold for every [int]; this one evaluates
    the examples. *)
Definition int_digits (s : string) : option Z :=
  match s with
  | EmptyString => None
  | _ => IsoBasic.number 0 (list_ascii_of_string s)
  end.

(** An environment with the three names that have no default, and one
    without the index. *)
Definition environ_set : gmap string string :=
  {[ "CHAT_DATA_S3_BUCKET" := "chat-data";
     "VECTOR_BUCKET" := "vectors";
     "VECTOR_INDEX" := "chat-index" ]}.

Definition environ_no_index : gmap string string :=
  {[ "CHAT_DATA_S3_BUCKET" := "chat-data"; "VECTOR_BUCKET" := "vectors" ]}.

(** The configuration that [getConfig] makes of [environ_set]. *)
Definition environ_config_set : environment_config :=
  {| env_source_bucket := Some "chat-data";
     env_vector_bucket := Some "vectors";
     env_index_name := Some "chat-index";
     env_project_id := "ccoe-chat-history";
     env_ssm_prefix := "/embedding-sync";
     env_max_workers := 10;
     env_batch_size := 50 |}.

(** Another project under the same prefix. *)
Definition other_project : config :=
  {| source_bucket := "chat-data";
     vector_bucket := "vectors";
     index_name := "chat-index";
     project_id := "other-project";
     ssm_prefix := "/embedding-sync";
     max_workers := 10;
     batch_size := 50 |}.

(** The configuration of the examples with another pool and another batch
    size. *)
Definition with_sizes (workers batch : Z) : config :=
  {| source_bucket := "chat-data";
     vector_bucket := "vectors";
     index_name := "chat-index";
     project_id := "ccoe-chat-history";
     ssm_prefix := "/embedding-sync";
     max_workers := workers;
     batch_size := batch |}.

(** A message without timestamp after one with a timestamp. *)
Definition undated_pair : list message :=
  [ Examples.said "2024-01-01T10:00:00Z" "ana" "hi";
    mkMessage None (Some "ben") "hello" "room" None ].

(** Two chunks and their embedding results: the second failed. *)
Definition two_chunks : list chunk :=
  Eval vm_compute in Examples.resolved_chunks.

Definition two_pairs : list (chunk * option emb_result) :=
  zip two_chunks
    [ Some (mkEmbResult 0 (Some [1; 2]) None);
      Some (mkEmbResult 1 None (Some "ModelTimeoutException")) ].

(** A topic whose only keyword is in upper case. *)
Definition upper_topics : list (string * list string) := [ ("network", ["VPN"]) ].

(** The list of a caller, at the address 8 of the loaded configuration. *)
Definition keywords_given : keyword_config :=
  {| kw_lists := <[ 8%nat := ["wireguard"] ]> (kw_lists keywords_loaded);
     kw_TOPIC_KEYWORDS := kw_TOPIC_KEYWORDS keywords_loaded |}.

(** The remaining time of an invocation that has none left. *)
Definition no_time (h : list event) : Z := 1000.

End Further.

(** * Properties *)

(** ** The float quotient *)

(** The two quotients on some differences, significand and exponent as
    Python computes them: one microsecond, ten minutes, ten minutes and one
    microsecond, minus five microseconds, and 300000000 minutes and one
    microsecond. *)
Example total_seconds_values :
  map (fun us => (total_seconds us, float_div (total_seconds us) 60))
    [1; 600000000; 600000001; -5; 18000000000000001]
  = [ (mkFloat 4722366482869645 (-72), mkFloat 5037190915060955 (-78));
      (mkFloat 5277655813324800 (-43), mkFloat 5629499534213120 (-49));
      (mkFloat 5277655822120893 (-43), mkFloat 5629499543595619 (-49));
      (mkFloat (-5902958103587057) (-70), mkFloat (-6296488643826194) (-76));
      (mkFloat 4718592000000000 (-18), mkFloat 5033164800000000 (-24)) ].
Proof. by vm_compute. Qed.

Lemma half_even_floor (n d : Z) : n / d <= half_even n d.
Proof.
  unfold half_even. destruct (2 * (n mod d) <? d); [lia|].
  destruct (d <? 2 * (n mod d)); [lia|]. destruct (Z.even (n / d)); lia.
Qed.

Lemma half_even_ge (n d M : Z) : 0 < d -> M * d <= n -> M <= half_even n d.
Proof.
  intros Hd H. pose proof (half_even_floor n d).
  assert (M <= n / d); [|lia]. apply Z.div_le_lower_bound; lia.
Qed.

Lemma half_even_le (n d M : Z) : 0 < d -> n <= M * d -> half_even n d <= M.
Proof.
  intros Hd H. pose proof (Z.div_mod n d ltac:(lia)) as Hdm.
  pose proof (Z.mod_pos_bound n d Hd) as Hr.
  assert (n mod d = 0 -> n / d <= M) as H0 by (intros; nia).
  assert (0 < n mod d -> n / d + 1 <= M) as H1 by (intros; nia).
  unfold half_even.
  destruct (Z.ltb_spec (2 * (n mod d)) d).
  - destruct (Z.eq_dec (n mod d) 0); lia.
  - destruct (d <? 2 * (n mod d)); [lia|]. destruct (Z.even (n / d)); lia.
Qed.

Lemma pow2_pos (k : Z) : 0 <= k -> 0 < 2 ^ k.
Proof. intros. by apply Z.pow_pos_nonneg. Qed.

Lemma binade_le (n d : Z) :
  0 < n -> 0 < d -> -1074 <= binade n d ->
  d * 2 ^ (binade n d + 1074) <= n * 2 ^ 1074.
Proof.
  intros Hn Hd. unfold binade.
  pose proof (Z.log2_spec n Hn) as [Hn1 Hn2].
  pose proof (Z.log2_spec d Hd) as [Hd1 Hd2].
  pose proof (Z.log2_nonneg n) as Ha. pose proof (Z.log2_nonneg d) as Hb.
  set (a := Z.log2 n) in *. set (b := Z.log2 d) in *.
  assert (forall e, -1074 <= e - 1 -> e = a - b -> d * 2 ^ (e - 1 + 1074) <= n * 2 ^ 1074) as Hlow.
  { intros e He ->.
    assert (2 ^ Z.succ b * 2 ^ (a - b - 1 + 1074) = 2 ^ a * 2 ^ 1074) as Heq.
    { rewrite <- !Z.pow_add_r by lia. f_equal. lia. }
    pose proof (pow2_pos (a - b - 1 + 1074) ltac:(lia)).
    pose proof (pow2_pos 1074 ltac:(lia)).
    revert Heq H H0. generalize (2 ^ (a - b - 1 + 1074)) (2 ^ 1074). intros. nia. }
  destruct (Z.leb_spec 0 (a - b)) as [He|He].
  - destruct (Z.leb_spec (d * 2 ^ (a - b)) n) as [Ht|Ht]; intros Hq; [|by apply Hlow].
    rewrite Z.pow_add_r by lia. pose proof (pow2_pos 1074 ltac:(lia)).
    revert H. generalize (2 ^ 1074). intros. nia.
  - destruct (Z.leb_spec d (n * 2 ^ (- (a - b)))) as [Ht|Ht]; intros Hq; [|by apply Hlow].
    assert (2 ^ 1074 = 2 ^ (a - b + 1074) * 2 ^ (- (a - b))) as ->.
    { rewrite <- Z.pow_add_r by lia. f_equal. lia. }
    pose proof (pow2_pos (a - b + 1074) ltac:(lia)).
    revert H Ht. generalize (2 ^ (a - b + 1074)) (2 ^ (- (a - b))). intros. nia.
Qed.

Lemma half_even_scale (n d c : Z) : 0 < d -> 0 < c -> half_even (n * c) (d * c) = half_even n d.
Proof.
  intros Hd Hc. unfold half_even.
  rewrite Z.div_mul_cancel_r, Zmult_mod_distr_r by lia.
  pose proof (Z.mod_pos_bound n d Hd) as Hr.
  assert ((2 * (n mod d * c) <? d * c) = (2 * (n mod d) <? d)) as ->.
  { destruct (Z.ltb_spec (2 * (n mod d)) d), (Z.ltb_spec (2 * (n mod d * c)) (d * c));
      first [done | nia]. }
  assert ((d * c <? 2 * (n mod d * c)) = (d <? 2 * (n mod d))) as ->.
  { destruct (Z.ltb_spec d (2 * (n mod d))), (Z.ltb_spec (d * c) (2 * (n mod d * c)));
      first [done | nia]. }
  done.
Qed.

Lemma round_pos_units (n d : Z) :
  0 < d ->
  fl_units (round_pos n d)
  = half_even (n * 2 ^ 1074) (d * 2 ^ (Z.max (binade n d - 52) (-1074) + 1074))
    * 2 ^ (Z.max (binade n d - 52) (-1074) + 1074).
Proof.
  intros Hd. unfold round_pos, fl_units. cbn [fl_m fl_e].
  set (q := Z.max (binade n d - 52) (-1074)). f_equal.
  destruct (Z.leb_spec 0 q) as [Hq|Hq].
  - rewrite (Z.pow_add_r 2 q 1074), Z.mul_assoc by lia.
    rewrite half_even_scale; [done | by pose proof (pow2_pos q Hq); nia | by apply pow2_pos].
  - replace (2 ^ 1074) with (2 ^ (- q) * 2 ^ (q + 1074))
      by (rewrite <- Z.pow_add_r by lia; f_equal; lia).
    rewrite Z.mul_assoc, half_even_scale; [done | done | apply pow2_pos; lia].
Qed.

Lemma round_exponent (n d : Z) : -1074 <= fl_e (round n d).
Proof. unfold round, round_pos. destruct (n ?= 0); cbn [fl_e]; lia. Qed.

Lemma round_pos_cases (n d : Z) (f : float) :
  0 < n -> 0 < d -> 0 <= fl_m f -> representable f ->
  let q := Z.max (binade n d - 52) (-1074) in
  (exists M, fl_units f = M * 2 ^ (q + 1074))
  \/ (fl_units f < 2 ^ 52 * 2 ^ (q + 1074)
      /\ d * (2 ^ 52 * 2 ^ (q + 1074)) <= n * 2 ^ 1074).
Proof.
  intros Hn Hd Hm [Hf He] q. unfold fl_units.
  destruct (Z.le_gt_cases q (fl_e f)) as [Hq|Hq].
  - left. exists (fl_m f * 2 ^ (fl_e f - q)).
    rewrite <- Z.mul_assoc, <- Z.pow_add_r by lia. do 2 f_equal. lia.
  - right. assert (q = binade n d - 52) as Hqe by lia.
    split.
    + assert (2 ^ 52 * 2 ^ (q + 1074) = 2 ^ 53 * 2 ^ (q - 1 + 1074)) as ->.
      { rewrite <- !Z.pow_add_r by lia. f_equal. lia. }
      assert (2 ^ (fl_e f + 1074) <= 2 ^ (q - 1 + 1074)) by (apply Z.pow_le_mono_r; lia).
      pose proof (pow2_pos (fl_e f + 1074) ltac:(lia)).
      rewrite Z.abs_eq in Hf by done. nia.
    + rewrite <- Z.pow_add_r by lia.
      replace (52 + (q + 1074)) with (binade n d + 1074) by lia.
      apply binade_le; lia.
Qed.

Lemma round_pos_ge (n d : Z) (f : float) :
  0 < n -> 0 < d -> 0 <= fl_m f -> representable f ->
  fl_units f * d <= n * 2 ^ 1074 ->
  fl_units f <= fl_units (round_pos n d).
Proof.
  intros Hn Hd Hm Hf Hle. rewrite round_pos_units by done.
  destruct (round_pos_cases n d f Hn Hd Hm Hf) as [[M HM]|[Hlt Hlow]];
    set (q := Z.max (binade n d - 52) (-1074)) in *;
    pose proof (pow2_pos (q + 1074) ltac:(lia)) as HQ.
  - rewrite HM in *. apply Z.mul_le_mono_nonneg_r; [lia|].
    apply half_even_ge; nia.
  - assert (2 ^ 52 <= half_even (n * 2 ^ 1074) (d * 2 ^ (q + 1074))) by (apply half_even_ge; nia).
    nia.
Qed.

Lemma round_pos_le (n d : Z) (f : float) :
  0 < n -> 0 < d -> 0 <= fl_m f -> representable f ->
  n * 2 ^ 1074 <= fl_units f * d ->
  fl_units (round_pos n d) <= fl_units f.
Proof.
  intros Hn Hd Hm Hf Hle. rewrite round_pos_units by done.
  destruct (round_pos_cases n d f Hn Hd Hm Hf) as [[M HM]|[Hlt Hlow]];
    set (q := Z.max (binade n d - 52) (-1074)) in *;
    pose proof (pow2_pos (q + 1074) ltac:(lia)) as HQ.
  - rewrite HM in *. apply Z.mul_le_mono_nonneg_r; [lia|].
    apply half_even_le; nia.
  - nia.
Qed.

Lemma round_pos_nonneg (n d : Z) : 0 < n -> 0 < d -> 0 <= fl_units (round_pos n d).
Proof.
  intros Hn Hd. rewrite round_pos_units by done.
  set (q := Z.max (binade n d - 52) (-1074)).
  pose proof (pow2_pos (q + 1074) ltac:(lia)) as HQ.
  pose proof (pow2_pos 1074 ltac:(lia)) as HB.
  assert (0 <= half_even (n * 2 ^ 1074) (d * 2 ^ (q + 1074))) by (apply half_even_ge; nia).
  nia.
Qed.

Lemma fl_units_opp (f : float) : fl_units (mkFloat (- fl_m f) (fl_e f)) = - fl_units f.
Proof. unfold fl_units. cbn [fl_m fl_e]. lia. Qed.

Lemma representable_opp (f : float) :
  representable f -> representable (mkFloat (- fl_m f) (fl_e f)).
Proof. intros [H1 H2]. split; simpl; [by rewrite Z.abs_opp | done]. Qed.

Lemma fl_units_sign (f : float) :
  -1074 <= fl_e f -> (0 <= fl_m f <-> 0 <= fl_units f).
Proof.
  intros He. unfold fl_units. pose proof (pow2_pos (fl_e f + 1074) ltac:(lia)). nia.
Qed.

(** Rounding does not cross a float: a float below the quotient is not above
    the rounded quotient, and a float above is not below. *)
Lemma round_ge (n d : Z) (f : float) :
  0 < d -> representable f ->
  fl_units f * d <= n * 2 ^ 1074 ->
  fl_units f <= fl_units (round n d).
Proof.
  intros Hd Hf Hle. pose proof (pow2_pos 1074 ltac:(lia)) as HB.
  pose proof (fl_units_sign f (proj2 Hf)) as Hs.
  unfold round. destruct (Z.compare_spec n 0) as [->|Hn|Hn].
  - unfold fl_units at 2. simpl. nia.
  - rewrite fl_units_opp.
    pose proof (representable_opp f Hf) as Hf'.
    pose proof (fl_units_opp f) as Hopp.
    assert (fl_units (round_pos (- n) d) <= fl_units (mkFloat (- fl_m f) (fl_e f))); [|lia].
    apply round_pos_le; first [done | lia | cbn [fl_m]; nia].
  - destruct (Z.le_gt_cases 0 (fl_m f)).
    + apply round_pos_ge; try done; lia.
    + pose proof (round_pos_nonneg n d ltac:(lia) Hd). lia.
Qed.

Lemma round_le (n d : Z) (f : float) :
  0 < d -> representable f ->
  n * 2 ^ 1074 <= fl_units f * d ->
  fl_units (round n d) <= fl_units f.
Proof.
  intros Hd Hf Hle. pose proof (pow2_pos 1074 ltac:(lia)) as HB.
  pose proof (fl_units_sign f (proj2 Hf)) as Hs.
  unfold round. destruct (Z.compare_spec n 0) as [->|Hn|Hn].
  - unfold fl_units at 1. simpl. nia.
  - rewrite fl_units_opp.
    destruct (Z.le_gt_cases 0 (fl_m f)).
    + pose proof (round_pos_nonneg (- n) d ltac:(lia) Hd). lia.
    + pose proof (representable_opp f Hf) as Hf'.
      pose proof (fl_units_opp f) as Hopp.
      assert (fl_units (mkFloat (- fl_m f) (fl_e f)) <= fl_units (round_pos (- n) d)); [|lia].
      apply round_pos_ge; first [done | lia | cbn [fl_m]; nia].
  - apply round_pos_le; first [done | lia | nia].
Qed.

Lemma float_gt_units (a : float) (k : Z) :
  -1074 <= fl_e a -> float_gt a k = (k * 2 ^ 1074 <? fl_units a).
Proof.
  intros He. unfold float_gt, fl_units.
  destruct (Z.leb_spec 0 (fl_e a)) as [Hq|Hq].
  - rewrite (Z.pow_add_r 2 (fl_e a) 1074) by lia.
    pose proof (pow2_pos 1074 ltac:(lia)) as HB. revert HB. generalize (2 ^ 1074). intros B HB.
    destruct (Z.ltb_spec k (fl_m a * 2 ^ fl_e a)), (Z.ltb_spec (k * B) (fl_m a * (2 ^ fl_e a * B)));
      first [done | nia].
  - replace (2 ^ 1074) with (2 ^ (- fl_e a) * 2 ^ (fl_e a + 1074))
      by (rewrite <- Z.pow_add_r by lia; f_equal; lia).
    pose proof (pow2_pos (fl_e a + 1074) ltac:(lia)) as HB. revert HB.
    generalize (2 ^ (fl_e a + 1074)) (2 ^ (- fl_e a)). intros B P HB.
    destruct (Z.ltb_spec (k * P) (fl_m a)), (Z.ltb_spec (k * (P * B)) (fl_m a * B));
      first [done | nia].
Qed.

Lemma float_div_ge (a f : float) (k : Z) :
  0 < k -> -1074 <= fl_e a -> representable f ->
  fl_units f * k <= fl_units a ->
  fl_units f <= fl_units (float_div a k).
Proof.
  intros Hk He Hf Hle. unfold float_div. unfold fl_units in Hle at 2.
  destruct (Z.leb_spec 0 (fl_e a)) as [Hq|Hq].
  - apply round_ge; [done | done |].
    rewrite (Z.pow_add_r 2 (fl_e a) 1074) in Hle by lia. lia.
  - pose proof (pow2_pos (- fl_e a) ltac:(lia)) as HP.
    apply round_ge; [nia | done |].
    replace (2 ^ 1074) with (2 ^ (fl_e a + 1074) * 2 ^ (- fl_e a))
      by (rewrite <- Z.pow_add_r by lia; f_equal; lia).
    revert Hle HP. generalize (2 ^ (fl_e a + 1074)) (2 ^ (- fl_e a)). intros. nia.
Qed.

Lemma float_div_le (a f : float) (k : Z) :
  0 < k -> -1074 <= fl_e a -> representable f ->
  fl_units a <= fl_units f * k ->
  fl_units (float_div a k) <= fl_units f.
Proof.
  intros Hk He Hf Hle. unfold float_div. unfold fl_units in Hle at 1.
  destruct (Z.leb_spec 0 (fl_e a)) as [Hq|Hq].
  - apply round_le; [done | done |].
    rewrite (Z.pow_add_r 2 (fl_e a) 1074) in Hle by lia. lia.
  - pose proof (pow2_pos (- fl_e a) ltac:(lia)) as HP.
    apply round_le; [nia | done |].
    replace (2 ^ 1074) with (2 ^ (fl_e a + 1074) * 2 ^ (- fl_e a))
      by (rewrite <- Z.pow_add_r by lia; f_equal; lia).
    revert Hle HP. generalize (2 ^ (fl_e a + 1074)) (2 ^ (- fl_e a)). intros. nia.
Qed.

Lemma float_div_exponent (a : float) (k : Z) : -1074 <= fl_e (float_div a k).
Proof. unfold float_div. destruct (0 <=? fl_e a); apply round_exponent. Qed.

(** For a whole number of minutes from 0 to [2 ^ 26], the comparison of the
    float quotient is the comparison of the microseconds. *)
Lemma minutes_gt_exact (us minutes : Z) :
  0 <= minutes <= 2 ^ 26 ->
  minutes_gt us minutes = (minutes * 60000000 <? us).
Proof.
  intros Hm. unfold minutes_gt, total_seconds.
  rewrite float_gt_units by apply float_div_exponent.
  pose proof (round_exponent us 1000000) as He.
  pose proof (pow2_pos 1074 ltac:(lia)) as HB.
  assert (2 ^ 1074 = 2 ^ 1048 * 2 ^ 26) as HB26 by (by rewrite <- Z.pow_add_r).
  pose proof (pow2_pos 1048 ltac:(lia)) as HP26.
  assert (2 ^ 1054 = 2 ^ 1048 * 64) as H64
    by (change 64 with (2 ^ 6); by rewrite <- Z.pow_add_r).
  change (2 ^ 26) with 67108864 in *.
  destruct (Z.ltb_spec (minutes * 60000000) us) as [Hus|Hus].
  - apply Z.ltb_lt.
    set (f1 := mkFloat (minutes * 60 * 1048576 + 1) (-20)).
    set (f2 := mkFloat (minutes * 67108864 + 1) (-26)).
    assert (fl_units f1 = (minutes * 60 * 1048576 + 1) * 2 ^ 1054) as Hf1 by done.
    assert (fl_units f2 = (minutes * 67108864 + 1) * 2 ^ 1048) as Hf2 by done.
    assert (representable f1) as Hr1.
    { split; [|done]. unfold f1. cbn [fl_m]. rewrite Z.abs_eq by lia.
      change (2 ^ 53) with 9007199254740992. lia. }
    assert (representable f2) as Hr2.
    { split; [|done]. unfold f2. cbn [fl_m]. rewrite Z.abs_eq by lia.
      change (2 ^ 53) with 9007199254740992. lia. }
    pose proof (round_ge us 1000000 f1 ltac:(lia) Hr1) as Hs.
    pose proof (float_div_ge (round us 1000000) f2 60 ltac:(lia) He Hr2) as Hg.
    revert Hs Hg. generalize (fl_units (float_div (round us 1000000) 60)).
    generalize (fl_units (round us 1000000)). intros s g Hs Hg.
    rewrite Hf1 in Hs. rewrite Hf2 in Hg. rewrite H64 in Hs.
    revert Hs Hg HB HB26 HP26. generalize (2 ^ 1074) (2 ^ 1048).
    intros B P26 Hs Hg HB -> HP26.
    assert ((minutes * 60 * 1048576 + 1) * (P26 * 64) <= s) as Hs' by (apply Hs; nia).
    assert ((minutes * 67108864 + 1) * P26 <= g); [|nia].
    apply Hg. nia.
  - apply Z.ltb_ge.
    set (f1 := mkFloat (minutes * 60) 0).
    set (f2 := mkFloat minutes 0).
    assert (fl_units f1 = minutes * 60 * 2 ^ 1074) as Hf1 by done.
    assert (fl_units f2 = minutes * 2 ^ 1074) as Hf2 by done.
    assert (representable f1) as Hr1.
    { split; [|done]. unfold f1. cbn [fl_m]. rewrite Z.abs_eq by lia.
      change (2 ^ 53) with 9007199254740992. lia. }
    assert (representable f2) as Hr2.
    { split; [|done]. unfold f2. cbn [fl_m]. rewrite Z.abs_eq by lia.
      change (2 ^ 53) with 9007199254740992. lia. }
    pose proof (round_le us 1000000 f1 ltac:(lia) Hr1) as Hs.
    pose proof (float_div_le (round us 1000000) f2 60 ltac:(lia) He Hr2) as Hg.
    revert Hs Hg. generalize (fl_units (float_div (round us 1000000) 60)).
    generalize (fl_units (round us 1000000)). intros s g Hs Hg.
    rewrite Hf1 in Hs. rewrite Hf2 in Hg.
    revert Hs Hg HB. generalize (2 ^ 1074). intros B Hs Hg HB.
    assert (s <= minutes * 60 * B) as Hs' by (apply Hs; nia).
    apply Hg. nia.
Qed.

(** Beyond that the float comparison is not the exact one: one microsecond
    more than 300000000 minutes is not more than 300000000 minutes. *)
Example minutes_gt_rounds :
  minutes_gt 18000000000000001 300000000 = false
  /\ (300000000 * 60000000 <? 18000000000000001) = true.
Proof. by vm_compute. Qed.
(** * Properties of the chunker *)

Lemma sum_nat_app (l1 l2 : list nat) :
  sum_nat (l1 ++ l2) = (sum_nat l1 + sum_nat l2)%nat.
Proof. induction l1 as [|x l1 IH]; simpl; [done | rewrite IH; lia]. Qed.

Lemma rendered_chars_snoc (grp : list stamped) (s : stamped) :
  rendered_chars (grp ++ [s])
  = (rendered_chars grp + String.length (render (st_msg s)))%nat.
Proof. unfold rendered_chars. rewrite map_app, sum_nat_app. simpl. lia. Qed.

Section Simulation.

Context (fromisoformat : string -> option datetime) (now : clock)
        (TOPIC_KEYWORDS : list (string * list string)) (channel_id : string)
        (gap_minutes max_messages max_chars : Z).

Local Abbreviation chunk_step' :=
  (chunk_step fromisoformat now TOPIC_KEYWORDS channel_id gap_minutes max_messages max_chars).
Local Abbreviation chunk_loop' :=
  (chunk_loop fromisoformat now TOPIC_KEYWORDS channel_id gap_minutes max_messages max_chars).
Local Abbreviation seg_step' := (seg_step fromisoformat now gap_minutes max_messages max_chars).
Local Abbreviation seg_loop' := (seg_loop fromisoformat now gap_minutes max_messages max_chars).
Local Abbreviation segments' := (segments fromisoformat now gap_minutes max_messages max_chars).
Local Abbreviation chunks_of' := (chunks_of TOPIC_KEYWORDS channel_id).
Local Abbreviation loop_of' := (loop_of TOPIC_KEYWORDS channel_id).
Local Abbreviation createChunk' := (createChunk TOPIC_KEYWORDS).

Lemma chunks_of_snoc (done : list (list stamped)) (grp : list stamped) :
  chunks_of' (done ++ [grp])
  = chunks_of' done ++ option_list (createChunk' (map st_msg grp) channel_id (length done)).
Proof.
  unfold chunks_of. rewrite imap_app, join_app. simpl.
  rewrite Nat.add_0_r, app_nil_r. done.
Qed.

Lemma chunk_step_sim (g : seg_state) (msg : message) :
  chunk_step' (loop_of' g) msg = loop_of' <$> seg_step' g msg.
Proof.
  unfold chunk_step, seg_step. simpl.
  destruct (parseTimestamp fromisoformat now (timestamp msg) (seg_ticks g)) as [ts ticks'].
  destruct (elapsed ts (st_ts <$> last (seg_open g))) as [gap|e]; simpl; [|done].
  assert (Hnil : bool_decide (map st_msg (seg_open g) = []) = bool_decide (seg_open g = [])).
  { apply bool_decide_ext. split; [apply fmap_nil_inv | intros ->; done]. }
  rewrite Hnil.
  destruct (should_split _ _ _ _ _ _ _ && negb _); simpl; f_equal.
  - unfold loop_of. simpl. rewrite chunks_of_snoc, length_app. simpl.
    f_equal; [unfold rendered_chars; simpl; lia | lia].
  - unfold loop_of. simpl.
    rewrite map_app, rendered_chars_snoc, last_snoc. done.
Qed.

Lemma chunk_loop_sim (msgs : list message) (g : seg_state) :
  chunk_loop' (loop_of' g) msgs = loop_of' <$> seg_loop' g msgs.
Proof.
  revert g. induction msgs as [|msg rest IH]; intros g; simpl; [done|].
  rewrite chunk_step_sim.
  destruct (seg_step' g msg) as [g'|e]; simpl; [apply IH | done].
Qed.

(** [chunkByConversation] returns the chunks of the groups of [segments']. *)
Lemma segments_chunks (messages : list message) :
  chunkByConversation fromisoformat now TOPIC_KEYWORDS channel_id
    gap_minutes max_messages max_chars messages
  = chunks_of' <$> segments' messages.
Proof.
  unfold chunkByConversation, segments.
  destruct messages as [|m ms]; [done|].
  destruct (sorted_by_timestamp (m :: ms)) as [sorted|e]; simpl; [|done].
  change (mkLoop [] [] 0 None 0 0) with (loop_of' (mkSeg [] [] 0)).
  rewrite chunk_loop_sim.
  destruct (seg_loop' _ sorted) as [g|e]; simpl; [|done].
  f_equal. unfold seg_close.
  destruct (seg_open g) as [|s grp] eqn:Hopen; simpl; [done|].
  rewrite chunks_of_snoc. done.
Qed.

End Simulation.

(** ** The sort *)

Lemma insert_by_key_perm {A} (key : string) (x : A) (l : list (string * A)) :
  insert_by_key key x l ≡ₚ (key, x) :: l.
Proof.
  induction l as [|[k y] l IH]; simpl; [done|].
  destruct (String.ltb k key); [|done].
  rewrite IH. apply Permutation_swap.
Qed.

Lemma stable_sort_perm {A} (l : list (string * A)) : stable_sort l ≡ₚ map snd l.
Proof.
  unfold stable_sort. induction l as [|[k x] l IH]; simpl; [done|].
  rewrite insert_by_key_perm. simpl. by rewrite IH.
Qed.

Lemma string_keys_snd (messages : list message) (kms : list (string * message)) :
  string_keys messages = Some kms -> map snd kms = messages.
Proof.
  revert kms. induction messages as [|m ms IH]; intros kms; simpl.
  - intros [= <-]. done.
  - destruct (timestamp m); [|done]. destruct (string_keys ms) as [kms'|]; [|done].
    intros [= <-]. simpl. f_equal. by apply IH.
Qed.

Lemma sorted_by_timestamp_perm (messages sorted : list message) :
  sorted_by_timestamp messages = Ok sorted -> sorted ≡ₚ messages.
Proof.
  unfold sorted_by_timestamp.
  destruct messages as [|m1 [|m2 ms]]; try (intros [= <-]; done).
  destruct (string_keys (m1 :: m2 :: ms)) as [kms|] eqn:Hk; [|done].
  intros [= <-]. rewrite stable_sort_perm. by rewrite (string_keys_snd _ _ Hk).
Qed.

(** ** The groups of the loop *)

Lemma adjacent_snoc {A} (l : list A) (x a b : A) :
  adjacent (l ++ [x]) a b -> adjacent l a b \/ (last l = Some a /\ b = x).
Proof.
  intros [i [Ha Hb]].
  destruct (decide (S i < length l)%nat) as [Hlt|Hge].
  - left. exists i. rewrite lookup_app_l in Ha by lia.
    rewrite lookup_app_l in Hb by lia. done.
  - right. assert (i < length l)%nat as Hi.
    { apply lookup_lt_Some in Hb. rewrite length_app in Hb. simpl in Hb. lia. }
    assert (S i = length l) as Hs by lia.
    rewrite lookup_app_l in Ha by lia.
    rewrite lookup_app_r in Hb by lia.
    rewrite Hs, Nat.sub_diag in Hb. simpl in Hb. injection Hb as <-.
    split; [|done]. rewrite last_lookup. rewrite <- Hs. simpl. done.
Qed.

Lemma adjacent_singleton {A} (x a b : A) : ~ adjacent [x] a b.
Proof. intros [i [_ Hb]]. destruct i; done. Qed.

Lemma adjacent_nil {A} (a b : A) : ~ adjacent [] a b.
Proof. intros [i [Ha _]]. done. Qed.

Section Segments.

Context (fromisoformat : string -> option datetime) (now : clock)
        (gap_minutes max_messages max_chars : Z).

Local Abbreviation seg_step' := (seg_step fromisoformat now gap_minutes max_messages max_chars).
Local Abbreviation seg_loop' := (seg_loop fromisoformat now gap_minutes max_messages max_chars).
Local Abbreviation segments' := (segments fromisoformat now gap_minutes max_messages max_chars).
Local Abbreviation seg_inv' := (seg_inv fromisoformat now gap_minutes max_messages max_chars).
Local Abbreviation group_within' := (group_within gap_minutes max_messages max_chars).
Local Abbreviation should_split' := (should_split gap_minutes max_messages max_chars).

Lemma group_within_singleton (s : stamped) : group_within' [s].
Proof.
  split; [simpl; lia|]. split; [right; simpl; lia|].
  intros a b Hadj. by apply adjacent_singleton in Hadj.
Qed.

Lemma group_within_nil : group_within' [].
Proof.
  split; [simpl; lia|]. split; [right; simpl; lia|].
  intros a b Hadj. by apply adjacent_nil in Hadj.
Qed.

(** Appending a message for which [should_split'] is false keeps the
    limits. *)
Lemma group_within_snoc (grp : list stamped) (msg : message) (ts : datetime) (gap : option Z) :
  group_within' grp ->
  elapsed ts (st_ts <$> last grp) = Ok gap ->
  should_split' (map st_msg grp) (rendered_chars grp) gap msg = false ->
  group_within' (grp ++ [mkStamped msg ts]).
Proof.
  intros (Hcount & Hchars & Hadj) Hel Hsplit.
  unfold should_split in Hsplit.
  apply orb_false_elim in Hsplit as [Hsplit Hres].
  apply orb_false_elim in Hsplit as [Hsplit Hmc].
  apply orb_false_elim in Hsplit as [Hgap Hmm].
  apply Z.leb_gt in Hmm. apply Z.ltb_ge in Hmc.
  rewrite length_map in Hmm.
  split; [|split].
  - intros _. rewrite length_app. simpl. lia.
  - left. rewrite rendered_chars_snoc. cbn [st_msg]. lia.
  - intros a b Hab. apply adjacent_snoc in Hab as [Hab | [Hlast ->]]; [by apply Hadj|].
    rewrite Hlast in Hel. simpl in Hel.
    destruct (datetime_sub ts (st_ts a)) as [us|e] eqn:Hsub; simpl in Hel; [|done].
    injection Hel as <-.
    split; [exists us; done|].
    intros [Hdet Hq].
    rewrite fmap_last, Hlast in Hres. simpl in Hres.
    rewrite Hdet in Hres. simpl in Hres.
    apply orb_false_elim in Hres as [Hq1 Hq2].
    destruct Hq as [Hq | (us' & Hus' & Hlt)]; simpl in *; [congruence|].
    rewrite Hsub in Hus'. injection Hus' as <-.
    rewrite minutes_gt_exact in Hq2 by (change (2 ^ 26) with 67108864; lia).
    apply Z.ltb_ge in Hq2. lia.
Qed.

Lemma parseTimestamp_stamp (msg : message) (n : nat) (ts : datetime) (n' : nat) :
  parseTimestamp fromisoformat now (timestamp msg) n = (ts, n') ->
  stamp_parsed fromisoformat now (mkStamped msg ts).
Proof. intros H. exists n. simpl. by rewrite H. Qed.

Lemma seg_step_inv (g g' : seg_state) (msg : message) :
  seg_step' g msg = Ok g' ->
  seg_inv' g ->
  seg_inv' g'
  /\ map st_msg (concat (seg_done g') ++ seg_open g')
     = map st_msg (concat (seg_done g) ++ seg_open g) ++ [msg].
Proof.
  unfold seg_step.
  destruct (parseTimestamp fromisoformat now (timestamp msg) (seg_ticks g))
    as [ts ticks'] eqn:Hparse.
  destruct (elapsed ts (st_ts <$> last (seg_open g))) as [gap|e] eqn:Hel; simpl; [|done].
  intros Hstep (Hdone & Hopen & Hne & Hparsed).
  apply parseTimestamp_stamp in Hparse.
  destruct (should_split' _ _ _ _) eqn:Hsplit; simpl in Hstep.
  - destruct (bool_decide (seg_open g = [])) eqn:Hnil; simpl in Hstep;
      injection Hstep as <-; unfold seg_inv; simpl.
    + apply bool_decide_eq_true in Hnil. rewrite Hnil in *. simpl in *.
      rewrite !app_nil_r in *. split; [split_and!|]; try done.
      * apply group_within_singleton.
      * apply Forall_app. split; [done|]. by constructor.
      * by rewrite map_app.
    + apply bool_decide_eq_false in Hnil.
      rewrite concat_app. simpl. rewrite !app_nil_r.
      split; [split_and!|].
      * apply Forall_app. split; [done|]. by constructor.
      * apply group_within_singleton.
      * apply Forall_app. split; [done|]. by constructor.
      * apply Forall_app. split; [done|]. by constructor.
      * by rewrite map_app.
  - injection Hstep as <-; unfold seg_inv; simpl.
    rewrite !app_assoc.
    split; [split_and!|]; try done.
    + by eapply group_within_snoc.
    + apply Forall_app. split; [done|]. by constructor.
    + by rewrite map_app.
Qed.

Lemma seg_loop_inv (msgs : list message) (g g' : seg_state) :
  seg_loop' g msgs = Ok g' ->
  seg_inv' g ->
  seg_inv' g'
  /\ map st_msg (concat (seg_done g') ++ seg_open g')
     = map st_msg (concat (seg_done g) ++ seg_open g) ++ msgs.
Proof.
  revert g. induction msgs as [|msg rest IH]; intros g; simpl.
  - intros [= <-] Hinv. by rewrite app_nil_r.
  - destruct (seg_step' g msg) as [g1|e] eqn:Hstep; simpl; [|done].
    intros Hloop Hinv.
    destruct (seg_step_inv _ _ _ Hstep Hinv) as [Hinv1 Heq1].
    destruct (IH _ Hloop Hinv1) as [Hinv' Heq'].
    split; [done|]. rewrite Heq', Heq1, <- app_assoc. done.
Qed.

(** The groups of [segments']: none is empty, each keeps the limits, their
    messages are the sorted messages, in order, each with the [datetime]
    that [parseTimestamp] gave it. *)
Lemma segments_spec (messages : list message) (groups : list (list stamped)) :
  segments' messages = Ok groups ->
  Forall group_within' groups
  /\ Forall (fun grp => grp <> []) groups
  /\ Forall (stamp_parsed fromisoformat now) (concat groups)
  /\ sorted_by_timestamp messages = Ok (map st_msg (concat groups)).
Proof.
  unfold segments.
  destruct (sorted_by_timestamp messages) as [sorted|e]; simpl; [|done].
  destruct (seg_loop' (mkSeg [] [] 0) sorted) as [g|e] eqn:Hloop; simpl; [|done].
  intros [= <-].
  assert (seg_inv' (mkSeg [] [] 0)) as Hinit.
  { unfold seg_inv. simpl.
    split_and!; [constructor | apply group_within_nil | constructor | constructor]. }
  destruct (seg_loop_inv _ _ _ Hloop Hinit) as [(Hdone & Hopen & Hne & Hparsed) Heq].
  simpl in Heq. unfold seg_close.
  destruct (seg_open g) as [|s grp] eqn:Ho.
  - rewrite app_nil_r in *. split_and!; try done. by rewrite Heq.
  - rewrite concat_app. simpl. rewrite app_nil_r. split_and!; try done.
    + apply Forall_app. split; [done|]. by constructor.
    + apply Forall_app. split; [done|]. by constructor.
    + by rewrite Heq.
Qed.

End Segments.

(** ** The chunks of the groups *)

Lemma string_length_app (s1 s2 : string) :
  String.length (s1 +:+ s2) = (String.length s1 + String.length s2)%nat.
Proof. induction s1 as [|c s1 IH]; simpl; [done | by rewrite IH]. Qed.

(** The length of [newline.join(parts)]: the characters of the parts and one
    newline between two parts. *)
Lemma join_newline_length (parts : list string) :
  parts <> [] ->
  (String.length (PyStr.join newline parts) + 1
   = sum_nat (map String.length parts) + length parts)%nat.
Proof.
  induction parts as [|p parts IH]; [done|]. intros _.
  destruct parts as [|q parts].
  - simpl. lia.
  - unfold PyStr.join in *. specialize (IH ltac:(done)).
    change (String.concat newline (p :: q :: parts))
      with (p +:+ newline +:+ String.concat newline (q :: parts)).
    rewrite !string_length_app.
    change (String.length newline) with 1%nat.
    cbn [map sum_nat foldr length] in *. lia.
Qed.

Section Chunks.

Context (TOPIC_KEYWORDS : list (string * list string)) (channel_id : string).

Local Abbreviation createChunk' := (createChunk TOPIC_KEYWORDS).
Local Abbreviation chunks_of' := (chunks_of TOPIC_KEYWORDS channel_id).

Lemma createChunk_Some (messages : list message) (index : nat) :
  messages <> [] ->
  exists c, createChunk' messages channel_id index = Some c
            /\ chunk_text c = PyStr.join newline (map render messages)
            /\ md_message_count (metadata c) = length messages.
Proof.
  intros Hne. unfold createChunk.
  destruct messages as [|m ms]; [done|].
  destruct (last (m :: ms)) as [final|] eqn:Hlast.
  - eexists. split; [reflexivity|]. simpl. done.
  - apply last_None in Hlast. done.
Qed.

Lemma createChunk_holds (grp : list stamped) (index : nat) :
  grp <> [] ->
  exists c, createChunk' (map st_msg grp) channel_id index = Some c /\ chunk_holds c grp.
Proof.
  intros Hne.
  destruct (createChunk_Some (map st_msg grp) index) as (c & Hc & Htext & Hcount).
  { intros H. by apply fmap_nil_inv in H. }
  exists c. split; [done|]. split.
  - rewrite Htext, map_map. done.
  - rewrite Hcount, length_map. done.
Qed.

Lemma chunks_holds_gen (f : nat -> list stamped -> option chunk) (groups : list (list stamped)) :
  (forall i grp, grp <> [] -> exists c, f i grp = Some c /\ chunk_holds c grp) ->
  Forall (fun grp => grp <> []) groups ->
  Forall2 chunk_holds (mjoin (imap (fun i grp => option_list (f i grp)) groups)) groups.
Proof.
  revert f. induction groups as [|grp groups IH]; intros f Hf Hne; simpl.
  - constructor.
  - apply Forall_cons in Hne as [Hgrp Hne].
    destruct (Hf 0%nat grp Hgrp) as (c & -> & Hc). simpl.
    constructor; [done|].
    apply (IH (fun i => f (S i))); [|done].
    intros i g Hg. apply Hf, Hg.
Qed.

Lemma chunks_of_holds (groups : list (list stamped)) :
  Forall (fun grp => grp <> []) groups ->
  Forall2 chunk_holds (chunks_of' groups) groups.
Proof.
  intros Hne. unfold chunks_of.
  apply (chunks_holds_gen (fun i grp => createChunk' (map st_msg grp) channel_id i)); [|done].
  intros i grp Hgrp. by apply createChunk_holds.
Qed.

Lemma chunk_holds_counts (chunks : list chunk) (groups : list (list stamped)) :
  Forall2 chunk_holds chunks groups ->
  sum_nat (map message_count chunks) = length (concat groups).
Proof.
  induction 1 as [|c grp chunks groups [_ Hcount] _ IH]; simpl; [done|].
  rewrite length_app, IH. unfold message_count. lia.
Qed.

End Chunks.

Section ChunkerTheorems.

Context (fromisoformat : string -> option datetime) (now : clock)
        (TOPIC_KEYWORDS : list (string * list string)) (channel_id : string)
        (gap_minutes max_messages max_chars : Z).

Local Abbreviation chunkByConversation' :=
  (chunkByConversation fromisoformat now TOPIC_KEYWORDS channel_id
     gap_minutes max_messages max_chars).
Local Abbreviation segments' := (segments fromisoformat now gap_minutes max_messages max_chars).
Local Abbreviation group_within' := (group_within gap_minutes max_messages max_chars).

(** The chunks returned are the chunks of the groups of [segments']; the
    groups have the properties of [segments_spec]. *)
Lemma chunkByConversation_groups (messages : list message) (chunks : list chunk) :
  chunkByConversation' messages = Ok chunks ->
  exists groups,
    segments' messages = Ok groups
    /\ Forall2 chunk_holds chunks groups
    /\ Forall group_within' groups
    /\ Forall (fun grp => grp <> []) groups
    /\ Forall (stamp_parsed fromisoformat now) (concat groups)
    /\ sorted_by_timestamp messages = Ok (map st_msg (concat groups)).
Proof.
  rewrite segments_chunks.
  destruct (segments' messages) as [groups|e] eqn:Hseg; simpl; [|done].
  intros [= <-]. exists groups.
  destruct (segments_spec _ _ _ _ _ _ _ Hseg) as (Hwithin & Hne & Hparsed & Hsorted).
  split_and!; try done. by apply chunks_of_holds.
Qed.

Lemma chunk_step_open (st st' : loop_state) (msg : message) :
  chunk_step fromisoformat now TOPIC_KEYWORDS channel_id gap_minutes max_messages max_chars
    st msg = Ok st' ->
  current_chunk st' <> [].
Proof.
  unfold chunk_step.
  destruct (parseTimestamp fromisoformat now (timestamp msg) (ticks st)) as [ts ticks'].
  destruct (elapsed ts (last_timestamp st)) as [gap|e]; simpl; [|done].
  intros [= <-]. simpl. intros H. by apply app_nil in H as [_ H].
Qed.

Lemma chunk_loop_open (msgs : list message) (st st' : loop_state) :
  chunk_loop fromisoformat now TOPIC_KEYWORDS channel_id gap_minutes max_messages max_chars
    st msgs = Ok st' ->
  msgs <> [] \/ current_chunk st <> [] ->
  current_chunk st' <> [].
Proof.
  revert st. induction msgs as [|msg rest IH]; intros st; simpl.
  - intros [= <-] [H|H]; done.
  - destruct (chunk_step _ _ _ _ _ _ _ st msg) as [st1|e] eqn:Hstep; simpl; [|done].
    intros Hloop _. apply (IH _ Hloop). right. by eapply chunk_step_open.
Qed.

(** C4. The counts of the chunks returned add up to the number of input
    messages; the empty input gives no chunk; for an input that is not
    empty the open chunk at the end of the input is not empty and is
    returned as the last chunk. *)
Theorem chunkByConversation_complete :
  chunkByConversation' [] = Ok []
  /\ forall (messages : list message) (returned : list chunk),
       chunkByConversation' messages = Ok returned ->
       sum_nat (map message_count returned) = length messages
       /\ (messages <> [] ->
           exists sorted st c,
             sorted_by_timestamp messages = Ok sorted
             /\ chunk_loop fromisoformat now TOPIC_KEYWORDS channel_id
                  gap_minutes max_messages max_chars (mkLoop [] [] 0 None 0 0) sorted = Ok st
             /\ current_chunk st <> []
             /\ createChunk TOPIC_KEYWORDS (current_chunk st) channel_id (chunk_index st) = Some c
             /\ returned = chunks st ++ [c]).
Proof.
  split; [done|]. intros messages returned Hret. split.
  - destruct (chunkByConversation_groups _ _ Hret)
      as (groups & _ & Hholds & _ & _ & _ & Hsorted).
    rewrite (chunk_holds_counts _ _ Hholds).
    apply sorted_by_timestamp_perm in Hsorted.
    rewrite <- (Permutation_length Hsorted). by rewrite length_map.
  - intros Hne. unfold chunkByConversation in Hret.
    destruct messages as [|m ms]; [done|].
    destruct (sorted_by_timestamp (m :: ms)) as [sorted|e] eqn:Hsorted; simpl in Hret; [|done].
    destruct (chunk_loop _ _ _ _ _ _ _ _ sorted) as [st|e] eqn:Hloop; simpl in Hret; [|done].
    assert (current_chunk st <> []) as Hopen.
    { apply (chunk_loop_open _ _ _ Hloop). left. intros ->.
      apply sorted_by_timestamp_perm, Permutation_length in Hsorted. done. }
    destruct (createChunk_Some TOPIC_KEYWORDS channel_id _ (chunk_index st) Hopen)
      as (c & Hc & _).
    exists sorted, st, c. split_and!; try done.
    destruct (current_chunk st); [done|]. rewrite Hc in Hret. simpl in Hret.
    by injection Hret as <-.
Qed.

(** C5, as amended.  In every chunk returned, take two adjacent messages,
    [a] before [b] in the order of the timestamp strings, which is the
    order of the messages in the chunks.  The difference [b - a] of the
    [datetime]s that [parseTimestamp] gave them, which is negative when [b]
    is the earlier instant, is at most [gap_minutes] minutes as the loop
    measures it: the float quotient [total_seconds() / 60] is not greater
    than [gap_minutes].  For [gap_minutes] from 0 to [2 ^ 26] the
    difference itself is within [gap_minutes] minutes, to the
    microsecond. *)
Theorem chunkByConversation_gap (messages : list message) (chunks : list chunk) :
  chunkByConversation' messages = Ok chunks ->
  exists groups,
    segments' messages = Ok groups
    /\ Forall2 chunk_holds chunks groups
    /\ Forall (stamp_parsed fromisoformat now) (concat groups)
    /\ sorted_by_timestamp messages = Ok (map st_msg (concat groups))
    /\ forall grp a b, grp ∈ groups -> adjacent grp a b ->
         exists us,
           datetime_sub (st_ts b) (st_ts a) = Ok us
           /\ float_gt (float_div (total_seconds us) 60) gap_minutes = false
           /\ (0 <= gap_minutes <= 2 ^ 26 -> us <= gap_minutes * 60000000).
Proof.
  intros Hret.
  destruct (chunkByConversation_groups _ _ Hret)
    as (groups & Hseg & Hholds & Hwithin & _ & Hparsed & Hsorted).
  exists groups. split_and!; try done.
  intros grp a b Hin Hadj.
  rewrite Forall_forall in Hwithin.
  destruct (Hwithin grp Hin) as (_ & _ & Hgap).
  destruct (Hgap a b Hadj) as [(us & Hus & Hle) _].
  exists us. split_and!; try done.
  intros Hrange. rewrite minutes_gt_exact in Hle by done. by apply Z.ltb_ge in Hle.
Qed.

(** C3, as amended.  In every chunk returned, the count is within
    [max_messages] when that is at least one, and the rendered messages
    take at most [max_chars] characters together unless the chunk is a
    single message: the text, which has one newline between two messages,
    is within [max_chars + message_count - 1]. *)
Theorem chunkByConversation_size (messages : list message) (chunks : list chunk) (c : chunk) :
  chunkByConversation' messages = Ok chunks ->
  c ∈ chunks ->
  (1 <= max_messages -> Z.of_nat (message_count c) <= max_messages)
  /\ (message_count c = 1%nat
      \/ Z.of_nat (String.length (chunk_text c)) <= max_chars + Z.of_nat (message_count c) - 1).
Proof.
  intros Hret Hin.
  destruct (chunkByConversation_groups _ _ Hret)
    as (groups & _ & Hholds & Hwithin & Hne & _ & _).
  apply list_elem_of_lookup in Hin as [i Hi].
  destruct (Forall2_lookup_l _ _ _ _ _ Hholds Hi) as (grp & Hgrp & Htext & Hcount).
  apply list_elem_of_lookup_2 in Hgrp.
  rewrite Forall_forall in Hwithin, Hne.
  destruct (Hwithin grp Hgrp) as (Hmm & Hmc & _). specialize (Hne grp Hgrp).
  unfold message_count. rewrite Hcount. split; [done|].
  destruct Hmc as [Hmc|Hone].
  - right.
    assert (map (fun s => render (st_msg s)) grp <> []) as Hparts.
    { intros H. by apply fmap_nil_inv in H. }
    pose proof (join_newline_length _ Hparts) as Hlen.
    rewrite <- Htext, length_map, map_map in Hlen.
    unfold rendered_chars in Hmc. lia.
  - left. destruct grp as [|s [|s' grp]]; simpl in *; [done | done | lia].
Qed.

Lemma length_le_concat {A} (groups : list (list A)) :
  Forall (fun grp => grp <> []) groups -> (length groups <= length (concat groups))%nat.
Proof.
  induction 1 as [|grp groups Hgrp _ IH]; simpl; [done|].
  rewrite length_app. destruct grp; [done|]. simpl. lia.
Qed.

(** Two consecutive messages of the sequence are adjacent in a group, or
    the second starts a group. *)
Lemma concat_adjacent (groups : list (list stamped)) (k : nat) (a b : stamped) :
  concat groups !! k = Some a ->
  concat groups !! S k = Some b ->
  (exists grp, grp ∈ groups /\ adjacent grp a b) \/ boundary groups (S k).
Proof.
  revert k. induction groups as [|grp groups IH]; intros k; simpl; [done|].
  intros Ha Hb.
  destruct (decide (S k < length grp)%nat) as [Hlt|Hge].
  - left. exists grp. split; [left|].
    exists k. rewrite lookup_app_l in Ha by lia. rewrite lookup_app_l in Hb by lia. done.
  - destruct (decide (S k = length grp)) as [Heq|Hneq].
    + right. exists 1%nat. split.
      * apply lookup_lt_Some in Hb. rewrite length_app in Hb.
        destruct groups; simpl in *; lia.
      * simpl. rewrite ?take_0. simpl. rewrite app_nil_r. done.
    + rewrite lookup_app_r in Ha by lia. rewrite lookup_app_r in Hb by lia.
      replace (S k - length grp)%nat with (S (k - length grp)) in Hb by lia.
      destruct (IH _ Ha Hb) as [(g & Hg & Hadj) | (j & Hj & Hlen)].
      * left. exists g. split; [by right | done].
      * right. exists (S j). split; [simpl; lia|].
        simpl. rewrite length_app, Hlen. lia.
Qed.

(** C6. When the last message of the open chunk has a resolution phrase and
    the incoming message has a question mark or comes more than ten minutes
    later, the incoming message starts a chunk; two such messages alone
    give two chunks. *)
Theorem chunkByConversation_resolution_split (messages : list message) (chunks : list chunk) :
  chunkByConversation' messages = Ok chunks ->
  exists groups,
    segments' messages = Ok groups
    /\ Forall2 chunk_holds chunks groups
    /\ (forall k a b,
          concat groups !! k = Some a -> concat groups !! S k = Some b ->
          resolution_break a b -> boundary groups (S k))
    /\ (forall a b, concat groups = [a; b] -> resolution_break a b -> length chunks = 2%nat).
Proof.
  intros Hret.
  destruct (chunkByConversation_groups _ _ Hret)
    as (groups & Hseg & Hholds & Hwithin & Hne & _ & _).
  assert (forall k a b,
          concat groups !! k = Some a -> concat groups !! S k = Some b ->
          resolution_break a b -> boundary groups (S k)) as Hbreak.
  { intros k a b Ha Hb Hres.
    destruct (concat_adjacent _ _ _ _ Ha Hb) as [(grp & Hgrp & Hadj)|]; [|done].
    rewrite Forall_forall in Hwithin.
    destruct (Hwithin grp Hgrp) as (_ & _ & Hno). by destruct (Hno a b Hadj). }
  exists groups. split_and!; try done.
  intros a b Hab Hres.
  destruct (Hbreak 0%nat a b) as (j & Hj & Hlen); [by rewrite Hab | by rewrite Hab | done |].
  rewrite (Forall2_length _ _ _ Hholds).
  pose proof (length_le_concat _ Hne) as Hle. rewrite Hab in Hle. simpl in Hle.
  destruct j; [simpl in Hlen; done | lia].
Qed.

End ChunkerTheorems.

(** ** Determinism *)

Section Determinism.

Context (fromisoformat : string -> option datetime)
        (TOPIC_KEYWORDS : list (string * list string)) (channel_id : string)
        (gap_minutes max_messages max_chars : Z).

Lemma parseTimestamp_parsable (now1 now2 : clock) (msg : message) (n : nat) :
  parsable fromisoformat msg ->
  parseTimestamp fromisoformat now1 (timestamp msg) n
  = parseTimestamp fromisoformat now2 (timestamp msg) n.
Proof.
  intros (ts & -> & [d Hd]). unfold parseTimestamp.
  change (fromisoformat (iso_input ts)) with (fromisoformat (iso_input ts)).
  unfold iso_input in Hd. by rewrite Hd.
Qed.

Lemma chunk_loop_parsable (now1 now2 : clock) (msgs : list message) (st : loop_state) :
  Forall (parsable fromisoformat) msgs ->
  chunk_loop fromisoformat now1 TOPIC_KEYWORDS channel_id gap_minutes max_messages max_chars
    st msgs
  = chunk_loop fromisoformat now2 TOPIC_KEYWORDS channel_id gap_minutes max_messages max_chars
      st msgs.
Proof.
  intros Hall. revert st. induction Hall as [|msg rest Hmsg _ IH]; intros st; simpl; [done|].
  unfold chunk_step. rewrite (parseTimestamp_parsable now1 now2 msg _ Hmsg).
  destruct (parseTimestamp fromisoformat now2 (timestamp msg) (ticks st)) as [ts ticks'].
  destruct (elapsed ts (last_timestamp st)) as [gap|e]; simpl; [|done].
  apply IH.
Qed.

(** C2, as amended.  When the timestamp of every message parses, the result
    does not depend on the wall clock: two calls return the same chunks or
    raise the same exception.  [parseTimestamp] never raises; for a
    timestamp that does not parse it returns the reading of the wall clock,
    which the result then depends on. *)
Theorem chunkByConversation_deterministic (now1 now2 : clock) (messages : list message) :
  Forall (parsable fromisoformat) messages ->
  chunkByConversation fromisoformat now1 TOPIC_KEYWORDS channel_id
    gap_minutes max_messages max_chars messages
  = chunkByConversation fromisoformat now2 TOPIC_KEYWORDS channel_id
      gap_minutes max_messages max_chars messages
  /\ forall (ts : option string) (n : nat),
       (forall s, ts = Some s -> fromisoformat (iso_input s) = None) ->
       parseTimestamp fromisoformat now1 ts n = (mkDatetime (now1 n) None, S n).
Proof.
  intros Hall. split.
  - unfold chunkByConversation. destruct messages as [|m ms]; [done|].
    destruct (sorted_by_timestamp (m :: ms)) as [sorted|e] eqn:Hsorted; simpl; [|done].
    rewrite (chunk_loop_parsable now1 now2); [done|].
    apply sorted_by_timestamp_perm in Hsorted. by rewrite Hsorted.
  - intros [s|] n Hs; simpl; [|done].
    specialize (Hs s eq_refl). unfold iso_input in Hs. by rewrite Hs.
Qed.

End Determinism.

(** ** The chunker on the examples *)

Lemma chunkByConversation_complete_witness :
  Examples.chunk_default Examples.clock_1020 Examples.scenario = Ok Examples.scenario_chunks
  /\ sum_nat (map message_count Examples.scenario_chunks) = length Examples.scenario.
Proof.
  split; [vm_compute; reflexivity|].
  apply (proj2 (chunkByConversation_complete IsoBasic.fromisoformat Examples.clock_1020
                  TOPIC_KEYWORDS_initial "room" 30 50 4000)
           Examples.scenario Examples.scenario_chunks).
  vm_compute. reflexivity.
Defined.

Lemma chunkByConversation_gap_witness :
  Examples.chunk_default Examples.clock_1020 Examples.scenario = Ok Examples.scenario_chunks
  /\ exists groups,
       segments IsoBasic.fromisoformat Examples.clock_1020 30 50 4000 Examples.scenario
       = Ok groups
       /\ Forall2 chunk_holds Examples.scenario_chunks groups
       /\ Forall (stamp_parsed IsoBasic.fromisoformat Examples.clock_1020) (concat groups)
       /\ sorted_by_timestamp Examples.scenario = Ok (map st_msg (concat groups))
       /\ forall grp a b, grp ∈ groups -> adjacent grp a b ->
            exists us,
              datetime_sub (st_ts b) (st_ts a) = Ok us
              /\ float_gt (float_div (total_seconds us) 60) 30 = false
              /\ (0 <= 30 <= 2 ^ 26 -> us <= 30 * 60000000).
Proof.
  split; [vm_compute; reflexivity|].
  apply (chunkByConversation_gap IsoBasic.fromisoformat Examples.clock_1020
           TOPIC_KEYWORDS_initial "room" 30 50 4000 Examples.scenario).
  vm_compute. reflexivity.
Defined.

(** The claim C5 fails.  Of two messages stamped 10:00 at UTC and 12:00 at
    +05:00, the second is three hours before the first; it comes after the
    first in the order of the timestamp strings, the difference that the
    loop computes is minus three hours, and the two messages are in one
    chunk, with [gap_minutes] at 30. *)
Lemma chunkByConversation_gap_counterexample :
  exists c grp a b,
    Examples.chunk_default Examples.clock_1020 Examples.offset_pair = Ok [c]
    /\ message_count c = 2%nat
    /\ segments IsoBasic.fromisoformat Examples.clock_1020 30 50 4000 Examples.offset_pair
       = Ok [grp]
    /\ adjacent grp a b
    /\ timestamp (st_msg a) = Some "2024-01-01T10:00:00Z"
    /\ timestamp (st_msg b) = Some "2024-01-01T12:00:00+05:00"
    /\ datetime_sub (st_ts b) (st_ts a) = Ok (-10800000000)
    /\ ~ apart_within 30 a b.
Proof.
  do 4 eexists. split_and!.
  - vm_compute. reflexivity.
  - reflexivity.
  - vm_compute. reflexivity.
  - exists 0%nat. split; reflexivity.
  - reflexivity.
  - reflexivity.
  - vm_compute. reflexivity.
  - intros (us & Hus & Hle). vm_compute in Hus. injection Hus as <-. vm_compute in Hle.
    by apply Hle.
Qed.

(** The float quotient lets a gap pass: with [gap_minutes] at 300000000,
    two messages that are 300000000 minutes and one microsecond apart are
    in one chunk. *)
Example chunkByConversation_gap_rounded :
  exists c grp a b,
    chunkByConversation IsoBasic.fromisoformat Examples.clock_far TOPIC_KEYWORDS_initial
      "room" 300000000 50 4000 Examples.far_pair = Ok [c]
    /\ message_count c = 2%nat
    /\ segments IsoBasic.fromisoformat Examples.clock_far 300000000 50 4000
         Examples.far_pair = Ok [grp]
    /\ adjacent grp a b
    /\ datetime_sub (st_ts b) (st_ts a) = Ok (300000000 * 60000000 + 1).
Proof.
  do 4 eexists. split_and!.
  - vm_compute. reflexivity.
  - reflexivity.
  - vm_compute. reflexivity.
  - exists 0%nat. split; reflexivity.
  - vm_compute. reflexivity.
Qed.

Lemma chunkByConversation_size_witness :
  Examples.chunk_default Examples.clock_1020 Examples.scenario = Ok Examples.scenario_chunks
  /\ Examples.scenario_first ∈ Examples.scenario_chunks
  /\ (1 <= 50 -> Z.of_nat (message_count Examples.scenario_first) <= 50)
  /\ (message_count Examples.scenario_first = 1%nat
      \/ Z.of_nat (String.length (chunk_text Examples.scenario_first))
         <= 4000 + Z.of_nat (message_count Examples.scenario_first) - 1).
Proof.
  split; [vm_compute; reflexivity|].
  split; [left|].
  apply (chunkByConversation_size IsoBasic.fromisoformat Examples.clock_1020
           TOPIC_KEYWORDS_initial "room" 30 50 4000 Examples.scenario Examples.scenario_chunks).
  - vm_compute. reflexivity.
  - left.
Defined.

(** The claim C3 fails: with [max_chars = 20], two messages of ten rendered
    characters each stay in one chunk, whose text has 21 characters. *)
Lemma chunkByConversation_size_counterexample :
  exists c,
    chunkByConversation IsoBasic.fromisoformat Examples.clock_1020 TOPIC_KEYWORDS_initial
      "room" 30 50 20 Examples.full_pair = Ok [c]
    /\ ~ size_property 50 20 c.
Proof.
  eexists. split; [vm_compute; reflexivity|].
  intros [_ [H|H]]; vm_compute in H; [by apply H | discriminate].
Qed.

Lemma chunkByConversation_resolution_split_witness :
  Examples.chunk_default Examples.clock_1020 Examples.resolved_pair
  = Ok Examples.resolved_chunks
  /\ length Examples.resolved_chunks = 2%nat
  /\ exists groups,
       segments IsoBasic.fromisoformat Examples.clock_1020 30 50 4000 Examples.resolved_pair
       = Ok groups
       /\ Forall2 chunk_holds Examples.resolved_chunks groups
       /\ (forall k a b,
             concat groups !! k = Some a -> concat groups !! S k = Some b ->
             resolution_break a b -> boundary groups (S k))
       /\ (forall a b, concat groups = [a; b] -> resolution_break a b ->
                       length Examples.resolved_chunks = 2%nat).
Proof.
  split; [vm_compute; reflexivity|].
  split; [vm_compute; reflexivity|].
  apply (chunkByConversation_resolution_split IsoBasic.fromisoformat Examples.clock_1020
           TOPIC_KEYWORDS_initial "room" 30 50 4000 Examples.resolved_pair).
  vm_compute. reflexivity.
Defined.

Lemma scenario_parsable : Forall (parsable IsoBasic.fromisoformat) Examples.scenario.
Proof.
  repeat constructor; eexists; (split; [reflexivity | vm_compute; eexists; reflexivity]).
Defined.

Lemma chunkByConversation_deterministic_witness :
  Forall (parsable IsoBasic.fromisoformat) Examples.scenario
  /\ Examples.chunk_default Examples.clock_1020 Examples.scenario
     = Examples.chunk_default Examples.clock_1040 Examples.scenario.
Proof.
  split; [apply scenario_parsable|].
  apply (chunkByConversation_deterministic IsoBasic.fromisoformat TOPIC_KEYWORDS_initial
           "room" 30 50 4000 Examples.clock_1020 Examples.clock_1040 Examples.scenario).
  apply scenario_parsable.
Defined.

(** The claim C2 fails: the second message has a timestamp that does not
    parse; a call at 10:20 puts the two messages in one chunk, a call at
    10:40 in two. *)
Lemma chunkByConversation_deterministic_counterexample :
  Examples.chunk_default Examples.clock_1020 Examples.late_pair
  <> Examples.chunk_default Examples.clock_1040 Examples.late_pair.
Proof. vm_compute. discriminate. Qed.

(** A timestamp that does not parse, next to one with an offset: the naive
    reading of the clock cannot be subtracted from the aware [datetime]. *)
Example chunkByConversation_mixed_raises :
  Examples.chunk_default Examples.clock_1020 Examples.mixed_pair = Raise TypeError.
Proof. vm_compute. reflexivity. Qed.

(** * Properties of the embedding sync *)

(** ** The embedding orchestrator *)

Section Embeddings.

Context (getEmbedding : nat -> string -> string + embedding).

Lemma embedSingle_index (i : nat) (t : string) : er_index (embedSingle getEmbedding i t) = i.
Proof. unfold embedSingle. by destruct (getEmbedding i t). Qed.

Local Abbreviation collect texts :=
  (fun results i =>
     match imap (embedSingle getEmbedding) texts !! i with
     | Some result => <[er_index result := Some result]> results
     | None => results
     end).

Lemma collect_length (texts : list string) (completed : list nat)
    (results : list (option emb_result)) :
  length (foldl (collect texts) results completed) = length results.
Proof.
  revert results. induction completed as [|j completed IH]; intros results; simpl; [done|].
  rewrite IH. destruct (imap _ texts !! j); [by rewrite length_insert | done].
Qed.

(** After the futures of [completed] were collected, the slot of a text
    holds its own result if its future is among them, and is untouched
    otherwise. *)
Lemma collect_lookup (texts : list string) (completed : list nat)
    (results : list (option emb_result)) (i : nat) (t : string) :
  length results = length texts ->
  texts !! i = Some t ->
  foldl (collect texts) results completed !! i
  = if bool_decide (i ∈ completed) then Some (Some (embedSingle getEmbedding i t))
    else results !! i.
Proof.
  intros Hlen Ht. revert results Hlen.
  induction completed as [|j completed IH]; intros results Hlen; simpl; [done|].
  assert (i < length results)%nat as Hi by (rewrite Hlen; by eapply lookup_lt_Some).
  rewrite IH.
  2:{ destruct (imap _ texts !! j); [by rewrite length_insert | done]. }
  destruct (bool_decide (i ∈ completed)) eqn:Hin.
  - apply bool_decide_eq_true in Hin.
    rewrite bool_decide_eq_true_2; [done | by right].
  - apply bool_decide_eq_false in Hin.
    destruct (decide (i = j)) as [<-|Hne].
    + rewrite bool_decide_eq_true_2 by left.
      rewrite list_lookup_imap, Ht. simpl. rewrite embedSingle_index.
      by rewrite list_lookup_insert_eq.
    + rewrite bool_decide_eq_false_2.
      2:{ intros [->|H]%elem_of_cons; done. }
      rewrite list_lookup_imap.
      destruct (texts !! j) as [tj|]; simpl; [|done].
      rewrite embedSingle_index. by rewrite list_lookup_insert_ne.
Qed.

(** C7. With at least one worker, and whatever the order in which the
    futures complete, the list returned has the length of the input and
    holds at the position of each text the result of that text: its index,
    and its embedding or the message of its error.  The result of a text is
    a function of the call for that text alone. *)
Theorem getEmbeddingsParallel_order (completed : list nat) (texts : list string)
    (max_workers : Z) :
  0 < max_workers ->
  completed ≡ₚ seq 0 (length texts) ->
  exists results,
    getEmbeddingsParallel getEmbedding completed texts max_workers = Ok results
    /\ length results = length texts
    /\ forall i t, texts !! i = Some t ->
         exists result,
           results !! i = Some (Some result)
           /\ er_index result = i
           /\ match getEmbedding i t with
              | inr e => er_embedding result = Some e /\ er_error result = None
              | inl msg => er_embedding result = None /\ er_error result = Some msg
              end.
Proof.
  intros Hworkers Hperm. unfold getEmbeddingsParallel.
  destruct (max_workers <=? 0) eqn:Hle; [apply Z.leb_le in Hle; lia|].
  eexists. split; [reflexivity|]. split.
  - by rewrite collect_length, length_replicate.
  - intros i t Ht. exists (embedSingle getEmbedding i t).
    rewrite (collect_lookup _ _ _ i t); [|by rewrite length_replicate | done].
    rewrite bool_decide_eq_true_2.
    2:{ rewrite Hperm. apply elem_of_seq. apply lookup_lt_Some in Ht. lia. }
    split; [done|]. split; [apply embedSingle_index|].
    unfold embedSingle. by destruct (getEmbedding i t).
Qed.

End Embeddings.

(** ** Deduplication *)

Lemma deduplicate_sublist (seen_ids : gset string) (messages : list message) :
  sublist (deduplicate seen_ids messages) messages.
Proof.
  revert seen_ids. induction messages as [|msg rest IH]; intros seen_ids; simpl; [done|].
  destruct (PyStr.truthy (message_id msg) && _).
  - by apply sublist_skip.
  - destruct (negb _); [by apply sublist_skip | by apply sublist_cons].
Qed.

Lemma deduplicate_no_id (seen_ids : gset string) (messages : list message) :
  List.filter no_id (deduplicate seen_ids messages) = List.filter no_id messages.
Proof.
  revert seen_ids. induction messages as [|msg rest IH]; intros seen_ids; simpl; [done|].
  unfold no_id at 2.
  destruct (PyStr.truthy (message_id msg)) eqn:Htruthy; simpl.
  - destruct (bool_decide _); simpl; [apply IH|].
    unfold no_id at 1. rewrite Htruthy. simpl. apply IH.
  - unfold no_id at 1. rewrite Htruthy. simpl. by rewrite IH.
Qed.

Lemma truthy_Some (v : option string) :
  PyStr.truthy v = true <-> exists s, v = Some s /\ s <> "".
Proof.
  destruct v as [s|]; simpl.
  - rewrite negb_true_iff, String.eqb_neq. split; [eauto | by intros (? & [= ->] & ?)].
  - split; [done | by intros (? & ? & ?)].
Qed.

Lemma has_id_false (x : string) (m : message) :
  message_id m <> Some x -> has_id x m = false.
Proof. intros H. unfold has_id. by apply bool_decide_eq_false. Qed.

Lemma has_id_true (x : string) (m : message) :
  message_id m = Some x -> has_id x m = true.
Proof. intros H. unfold has_id. by apply bool_decide_eq_true. Qed.

(** Of the messages that carry an identifier that is not empty, the loop
    keeps the first if the identifier was not seen before, and none
    otherwise. *)
Lemma deduplicate_has_id (x : string) (seen_ids : gset string) (messages : list message) :
  x <> "" ->
  List.filter (has_id x) (deduplicate seen_ids messages)
  = if bool_decide (x ∈ seen_ids) then []
    else take 1 (List.filter (has_id x) messages).
Proof.
  intros Hx. revert seen_ids.
  induction messages as [|msg rest IH]; intros seen_ids; simpl.
  { by destruct (bool_decide _). }
  destruct (PyStr.truthy (message_id msg)) eqn:Htruthy; simpl.
  - apply truthy_Some in Htruthy as (y & Hy & Hne). rewrite Hy. simpl.
    destruct (decide (x = y)) as [<-|Hxy].
    + rewrite (has_id_true x msg Hy).
      destruct (bool_decide (x ∈ seen_ids)) eqn:Hseen; simpl.
      * rewrite IH, Hseen. done.
      * rewrite (has_id_true x msg Hy). rewrite IH.
        rewrite bool_decide_eq_true_2 by set_solver. by rewrite take_0.
    + rewrite (has_id_false x msg) by congruence.
      destruct (bool_decide (y ∈ seen_ids)) eqn:Hseen; simpl.
      * apply IH.
      * rewrite (has_id_false x msg) by congruence. rewrite IH.
        apply bool_decide_eq_false in Hseen.
        destruct (bool_decide (x ∈ seen_ids)) eqn:Hxs.
        -- apply bool_decide_eq_true in Hxs.
           rewrite bool_decide_eq_true_2 by set_solver. done.
        -- apply bool_decide_eq_false in Hxs.
           rewrite bool_decide_eq_false_2 by set_solver. done.
  - assert (has_id x msg = false) as Hfalse.
    { apply has_id_false. intros Hid. rewrite Hid in Htruthy. simpl in Htruthy.
      apply negb_false_iff, String.eqb_eq in Htruthy. done. }
    rewrite Hfalse. apply IH.
Qed.

(** C10, as amended.  The messages kept are a subsequence of the input, in
    the order of the input; of the messages that carry a given identifier
    that is not the empty string, the first is kept and no other; every
    message whose identifier is absent or the empty string is kept. *)
Theorem deduplicate_first_occurrence (messages : list message) :
  sublist (deduplicate ∅ messages) messages
  /\ (forall x, x <> "" -> first_occurrence_only x messages (deduplicate ∅ messages))
  /\ List.filter no_id (deduplicate ∅ messages) = List.filter no_id messages.
Proof.
  split; [apply deduplicate_sublist|]. split; [|apply deduplicate_no_id].
  intros x Hx. unfold first_occurrence_only.
  rewrite (deduplicate_has_id x ∅ messages Hx).
  rewrite bool_decide_eq_false_2 by set_solver. done.
Qed.

(** ** The batch writer *)

Section BatchWriter.

Context (env : environment) (bucket_name index_name : string)
        (vectors : list vector) (batch_size : Z).

Local Abbreviation k := (Z.to_nat batch_size).
Local Abbreviation batch_at := (fun i : nat => take k (drop i vectors)).
Local Abbreviation step := (store_batch env bucket_name index_name vectors batch_size).
Local Abbreviation answers := (put_answers env bucket_name index_name).

Lemma put_answers_length (h : list event) (batches : list (list vector)) :
  length (put_answers env bucket_name index_name h batches) = length batches.
Proof.
  revert h. induction batches as [|b bs IH]; intros h; simpl; [done|]. by rewrite IH.
Qed.

(** The answer to the [j]-th batch is that of [put_vectors] at the history
    that has the calls for the batches before it. *)
Lemma put_answers_lookup (batches : list (list vector)) (h : list event) (j : nat)
    (b : list vector) :
  batches !! j = Some b ->
  answers h batches !! j
  = Some (env_put_vectors env
            (h ++ take j (zip_with (put_event bucket_name index_name) batches
                            (answers h batches)))
            bucket_name index_name (map to_vector_data b)).
Proof.
  revert h j. induction batches as [|b0 bs IH]; intros h [|j]; simpl; try done.
  - intros [= ->]. by rewrite app_nil_r.
  - intros Hj. rewrite (IH _ _ Hj). by rewrite <- app_assoc.
Qed.

(** The loop over the batches that start at [a], [a + k], ...: every batch
    is sent, whatever became of the batches before it, and what is counted
    and recorded for a batch is the answer of [put_vectors] to it. *)
Lemma store_loop (m : nat) :
  forall (a : nat) (w : world) (total : nat) (errs : list error_entry),
    (0 < k)%nat ->
    (length vectors <= a + m * k)%nat ->
    (0 < m -> a + (m - 1) * k < length vectors)%nat ->
    exists w' total' errs',
      foldl step (w, total, errs) (map (fun j => (a + j * k)%nat) (seq 0 m))
      = (w', total', errs')
      /\ concat (map (fun j => batch_at (a + j * k)%nat) (seq 0 m)) = drop a vectors
      /\ Forall (fun b => 0 < length b <= k)%nat
           (map (fun j => batch_at (a + j * k)%nat) (seq 0 m))
      /\ history w'
         = history w
           ++ zip_with (put_event bucket_name index_name)
                (map (fun j => batch_at (a + j * k)%nat) (seq 0 m))
                (answers (history w) (map (fun j => batch_at (a + j * k)%nat) (seq 0 m)))
      /\ ssm_store w' = ssm_store w
      /\ total' = (total
                   + written (map (fun j => batch_at (a + j * k)%nat) (seq 0 m))
                       (answers (history w)
                          (map (fun j => batch_at (a + j * k)%nat) (seq 0 m))))%nat
      /\ errs' = errs
                 ++ batch_errors (map (fun j => batch_at (a + j * k)%nat) (seq 0 m))
                      (answers (history w)
                         (map (fun j => batch_at (a + j * k)%nat) (seq 0 m))) a.
Proof.
  induction m as [|m IH]; intros a w total errs Hk Hcover Hlast.
  - exists w, total, errs. simpl.
    rewrite drop_ge by lia. rewrite !app_nil_r. unfold written. simpl.
    split_and!; (done || lia).
  - assert (a < length vectors)%nat as Ha by (specialize (Hlast ltac:(lia)); lia).
    cbn [seq map foldl]. rewrite <- seq_shift, !map_map.
    rewrite Nat.mul_0_l, Nat.add_0_r.
    rewrite (map_ext (fun j => (a + S j * k)%nat) (fun j => (a + k + j * k)%nat)) by (intros; lia).
    rewrite (map_ext (fun j => batch_at (a + S j * k)%nat)
                     (fun j => batch_at (a + k + j * k)%nat))
      by (intros; f_equal; f_equal; lia).
    set (batch := take k (drop a vectors)).
    set (outcome := env_put_vectors env (history w) bucket_name index_name
                      (map to_vector_data batch)).
    set (w1 := log (EvPutVectors bucket_name index_name (map to_vector_data batch) outcome) w).
    assert (step (w, total, errs) a
            = (w1, match outcome with None => (total + length batch)%nat | Some _ => total end,
               match outcome with None => errs | Some e => errs ++ [BatchError a e] end))
      as Hstep.
    { unfold store_batch. fold batch. fold outcome. fold w1. by destruct outcome. }
    rewrite Hstep.
    edestruct (IH (a + k)%nat w1) as (w' & total' & errs' & Hloop & Hcat
                                      & Hall & Hhist & Hssm & Htotal & Herrs);
      [done | lia | intros; destruct m; simpl in *; lia |].
    exists w', total', errs'.
    assert (m = 0 \/ length batch = k)%nat as Hfull.
    { destruct m; [by left|right]. unfold batch. rewrite length_take, length_drop.
      specialize (Hlast ltac:(lia)). simpl in Hlast. lia. }
    cbn [put_answers]. fold batch. fold outcome.
    change (history w ++ [put_event bucket_name index_name batch outcome])
      with (history w1).
    set (rest := map (fun j => batch_at (a + k + j * k)%nat) (seq 0 m)) in *.
    set (outcomes := answers (history w1) rest) in *.
    split_and!.
    + apply Hloop.
    + cbn [concat]. rewrite Hcat. unfold batch.
      rewrite <- (drop_drop vectors k a). by rewrite take_drop.
    + constructor; [|done]. unfold batch.
      rewrite length_take, length_drop. lia.
    + rewrite Hhist. unfold w1. simpl. rewrite <- app_assoc. done.
    + rewrite Hssm. done.
    + rewrite Htotal. unfold written, sum_nat. cbn [zip_with foldr].
      destruct outcome; lia.
    + rewrite Herrs. cbn [batch_errors].
      destruct Hfull as [-> | ->].
      * simpl. destruct outcome; by rewrite ?app_nil_r.
      * destruct outcome; by rewrite <- ?app_assoc.
Qed.

Lemma range_cover (n : nat) :
  (0 < k)%nat ->
  (n <= (n + k - 1) / k * k)%nat
  /\ (0 < (n + k - 1) / k -> ((n + k - 1) / k - 1) * k < n)%nat.
Proof.
  intros Hk.
  pose proof (Nat.div_mod_eq (n + k - 1) k) as Hdm.
  pose proof (Nat.mod_upper_bound (n + k - 1) k ltac:(lia)) as Hmod.
  split; [nia|]. intros Hq. nia.
Qed.

(** The batches of [storeVectorsBatch]: the [j]-th has the vectors from
    the position [j * batch_size] on, [batch_size] of them or those that
    are left. *)
Lemma batches_lookup (m j : nat) (b : list vector) :
  map (fun j => batch_at (0 + j * k)%nat) (seq 0 m) !! j = Some b ->
  b = take k (drop (j * k) vectors).
Proof.
  rewrite list_lookup_fmap. intros Hj.
  destruct (seq 0 m !! j) as [i|] eqn:Hi; [|done].
  apply lookup_seq in Hi as [-> _]. by injection Hj as <-.
Qed.

Lemma storeVectorsBatch_spec (w : world) :
  0 < batch_size ->
  exists batches w' r,
    storeVectorsBatch env bucket_name index_name vectors batch_size w = Ok (w', r)
    /\ concat batches = vectors
    /\ Forall (fun b => 0 < length b <= Z.to_nat batch_size)%nat batches
    /\ (forall j b, batches !! j = Some b -> b = take k (drop (j * k) vectors))
    /\ history w'
       = history w
         ++ zip_with (put_event bucket_name index_name) batches (answers (history w) batches)
    /\ ssm_store w' = ssm_store w
    /\ stored r = written batches (answers (history w) batches)
    /\ store_errors r
       = match batch_errors batches (answers (history w) batches) 0 with
         | [] => None
         | errors => Some errors
         end.
Proof.
  intros Hpos. unfold storeVectorsBatch, range_step.
  rewrite (proj2 (Z.eqb_neq batch_size 0)) by lia.
  rewrite (proj2 (Z.ltb_ge batch_size 0)) by lia.
  assert (0 < k)%nat as Hk by lia.
  destruct (range_cover (length vectors) Hk) as [Hcover Hlast].
  destruct (store_loop ((length vectors + k - 1) / k) 0 w 0%nat [] Hk)
    as (w' & total' & errs' & Hloop & Hcat & Hall & Hhist & Hssm & Htotal & Herrs);
    [lia | intros; simpl; lia |].
  simpl in Hloop. cbn [mbind result_bind]. rewrite Hloop.
  exists (map (fun j => batch_at (0 + j * k)%nat) (seq 0 ((length vectors + k - 1) / k))).
  eexists w', _. split; [reflexivity|]. cbn [stored store_errors].
  split_and!; first [done | apply batches_lookup | by rewrite Htotal | idtac].
  rewrite Herrs. cbn [app]. by destruct (batch_errors _ _ _).
Qed.

(** C8, as amended.  For a batch size of at least one, the vectors are cut
    into contiguous batches, each of [batch_size] vectors but the last,
    which has those that are left; [put_vectors] is called once for every
    batch, in order and whatever its answers to the batches before.  The
    count returned is the number of vectors of the batches for which
    [put_vectors] did not raise, and every batch for which it raised is
    recorded, with its message, at the position of its first vector.  The
    answer to a batch is that of [put_vectors] after the calls for the
    batches before it. *)
Theorem storeVectorsBatch_batches (w : world) :
  0 < batch_size ->
  exists batches w' r,
    storeVectorsBatch env bucket_name index_name vectors batch_size w = Ok (w', r)
    /\ concat batches = vectors
    /\ Forall (fun b => 0 < length b <= Z.to_nat batch_size)%nat batches
    /\ (forall j b, batches !! j = Some b ->
                    b = take (Z.to_nat batch_size) (drop (j * Z.to_nat batch_size) vectors))
    /\ history w'
       = history w
         ++ zip_with (put_event bucket_name index_name) batches
              (put_answers env bucket_name index_name (history w) batches)
    /\ (forall j b, batches !! j = Some b ->
          put_answers env bucket_name index_name (history w) batches !! j
          = Some (env_put_vectors env
                    (history w
                     ++ take j (zip_with (put_event bucket_name index_name) batches
                                  (put_answers env bucket_name index_name (history w)
                                     batches)))
                    bucket_name index_name (map to_vector_data b)))
    /\ ssm_store w' = ssm_store w
    /\ stored r
       = written batches (put_answers env bucket_name index_name (history w) batches)
    /\ store_errors r
       = match batch_errors batches
                 (put_answers env bucket_name index_name (history w) batches) 0 with
         | [] => None
         | errors => Some errors
         end.
Proof.
  intros Hpos. unfold storeVectorsBatch, range_step.
  destruct (batch_size =? 0) eqn:H0; [apply Z.eqb_eq in H0; lia|].
  destruct (batch_size <? 0) eqn:Hneg; [apply Z.ltb_lt in Hneg; lia|].
  assert (0 < k)%nat as Hk by lia.
  destruct (range_cover (length vectors) Hk) as [Hcover Hlast].
  destruct (store_loop ((length vectors + k - 1) / k) 0 w 0%nat [] Hk)
    as (w' & total' & errs' & Hloop & Hcat & Hall & Hhist & Hssm & Htotal & Herrs);
    [lia | intros; simpl; lia |].
  simpl in Hloop. cbn [mbind result_bind].
  rewrite Hloop.
  eexists _, w', _. split; [reflexivity|]. cbn [stored store_errors].
  split_and!;
    first [done | apply batches_lookup | apply put_answers_lookup | by rewrite Htotal | idtac].
  rewrite Herrs. cbn [app]. by destruct (batch_errors _ _ _).
Qed.

End BatchWriter.

(** ** The sync driver *)

Lemma cursor_writes_app (name : string) (h1 h2 : list event) :
  cursor_writes name (h1 ++ h2) = cursor_writes name h1 ++ cursor_writes name h2.
Proof. unfold cursor_writes. apply omap_app. Qed.

Lemma quiet_refl (name : string) (w : world) : quiet name w w.
Proof. split; [done|]. exists []. by rewrite app_nil_r. Qed.

Lemma quiet_trans (name : string) (w1 w2 w3 : world) :
  quiet name w1 w2 -> quiet name w2 w3 -> quiet name w1 w3.
Proof.
  intros [Hs1 (n1 & Hh1 & Hc1)] [Hs2 (n2 & Hh2 & Hc2)].
  split; [congruence|]. exists (n1 ++ n2).
  rewrite Hh2, Hh1, <- app_assoc, cursor_writes_app, Hc1, Hc2. done.
Qed.

Lemma quiet_log (name : string) (w : world) (ev : event) :
  cursor_writes name [ev] = [] -> quiet name w (log ev w).
Proof. intros H. split; [done|]. by exists [ev]. Qed.

Section Driver.

Context (env : environment) (cfg : config).

Local Abbreviation name := (parameter_name cfg).

Lemma store_batch_quiet (vectors : list vector) (starts : list nat)
    (w : world) (total : nat) (errs : list error_entry) :
  quiet name w
    (fst (fst (foldl (store_batch env (vector_bucket cfg) (index_name cfg) vectors
                        (batch_size cfg)) (w, total, errs) starts))).
Proof.
  revert w total errs. induction starts as [|i starts IH]; intros w total errs; simpl.
  - apply quiet_refl.
  - unfold store_batch at 1; fold (store_batch env (vector_bucket cfg) (index_name cfg)
                                      vectors (batch_size cfg)).
    destruct (env_put_vectors env (history w) (vector_bucket cfg) (index_name cfg) _) as [e|];
      (eapply quiet_trans; [|apply IH]); by apply quiet_log.
Qed.

Lemma storeVectorsBatch_quiet (vectors : list vector) (w w' : world) (sr : store_result) :
  storeVectorsBatch env (vector_bucket cfg) (index_name cfg) vectors (batch_size cfg) w
  = Ok (w', sr) ->
  quiet name w w'.
Proof.
  unfold storeVectorsBatch.
  destruct (range_step (length vectors) (batch_size cfg)) as [starts|e]; simpl; [|done].
  pose proof (store_batch_quiet vectors starts w 0%nat []) as Hq.
  destruct (foldl _ _ starts) as [[w1 total] errs]. simpl in Hq.
  by intros [= <- _].
Qed.

Lemma loadAndTransformMessages_quiet (f : file_info) (w : world) :
  quiet name w (snd (loadAndTransformMessages env (source_bucket cfg) f w)).
Proof.
  unfold loadAndTransformMessages.
  destruct (env_get_object env (history w) (source_bucket cfg) (file_key f)); simpl;
    by apply quiet_log.
Qed.

(** Up to the vectors, the body of the loop writes no cursor. *)
Lemma prepare_file_quiet (f : file_info) (w : world) (r : results) :
  match prepare_file env cfg f (w, r) with
  | Skipped w1 _ | Failed w1 _ _ | Ready w1 _ _ => quiet name w w1
  end.
Proof.
  unfold prepare_file.
  pose proof (loadAndTransformMessages_quiet f w) as Hload.
  destruct (loadAndTransformMessages env (source_bucket cfg) f w) as [messages w1].
  simpl in Hload.
  destruct messages as [|m ms]; [done|].
  destruct (chunkByConversation _ _ _ _ _ _ _ _) as [[|c cs]|e]; try done.
  destruct (getEmbeddingsParallel _ _ _ _) as [embedding_results|e]; [|done].
  assert (quiet name w (log (EvInvokeModel (map chunk_text (c :: cs))) w1)) as Hlog.
  { eapply quiet_trans; [done|]. by apply quiet_log. }
  destruct (prepare_vectors _ _ _ _) as [es [vectors|e]]; done.
Qed.

Lemma cursor_writes_checkpoint (v : string) (o : option string) :
  cursor_writes name [EvPutParameter name v o] = match o with None => [v] | Some _ => [] end.
Proof. destruct o; simpl; [done|]. by rewrite String.eqb_refl. Qed.

(** The checkpoint: one call of [put_parameter] for the date of the file. *)
Lemma setLastProcessedDate_spec (d : string) (w : world) :
  exists o,
    history (setLastProcessedDate env (ssm_prefix cfg) (project_id cfg) d w)
    = history w ++ [EvPutParameter name d o]
    /\ ssm_store (setLastProcessedDate env (ssm_prefix cfg) (project_id cfg) d w)
       = match o with None => <[name := d]> (ssm_store w) | Some _ => ssm_store w end.
Proof.
  unfold setLastProcessedDate. fold (parameter_name cfg).
  destruct (env_put_parameter env (history w) name d) as [e|]; eexists; split; reflexivity.
Qed.

(** The answer of [put_parameter] is what the checkpoint records. *)
Lemma setLastProcessedDate_answer (d : string) (w : world) :
  history (setLastProcessedDate env (ssm_prefix cfg) (project_id cfg) d w)
  = history w ++ [EvPutParameter name d (env_put_parameter env (history w) name d)]
  /\ ssm_store (setLastProcessedDate env (ssm_prefix cfg) (project_id cfg) d w)
     = match env_put_parameter env (history w) name d with
       | None => <[name := d]> (ssm_store w)
       | Some _ => ssm_store w
       end.
Proof.
  unfold setLastProcessedDate. fold (parameter_name cfg).
  destruct (env_put_parameter env (history w) name d) as [e|]; split; reflexivity.
Qed.

(** The vectors stored and the cursor set: every batch is sent, then the
    cursor is written, whatever the answers of [put_vectors] to the
    batches. *)
Lemma store_and_checkpoint_spec (f : file_info) (w : world) (r : results)
    (vectors : list vector) :
  0 < batch_size cfg ->
  exists batches outcomes o,
    concat batches = vectors
    /\ outcomes = put_answers env (vector_bucket cfg) (index_name cfg) (history w) batches
    /\ o = env_put_parameter env
             (history w
              ++ zip_with (put_event (vector_bucket cfg) (index_name cfg)) batches outcomes)
             name (file_date f)
    /\ history (fst (store_and_checkpoint env cfg f w r vectors))
       = history w
         ++ zip_with (put_event (vector_bucket cfg) (index_name cfg)) batches outcomes
         ++ [EvPutParameter name (file_date f) o]
    /\ errors (snd (store_and_checkpoint env cfg f w r vectors))
       = errors r ++ batch_errors batches outcomes 0
    /\ vectors_stored (snd (store_and_checkpoint env cfg f w r vectors))
       = (vectors_stored r + written batches outcomes)%nat
    /\ ssm_store (fst (store_and_checkpoint env cfg f w r vectors))
       = match o with
         | None => <[name := file_date f]> (ssm_store w)
         | Some _ => ssm_store w
         end.
Proof.
  intros Hpos. unfold store_and_checkpoint.
  destruct vectors as [|v vs].
  - destruct (setLastProcessedDate_answer (file_date f) w) as [Hh Hs].
    exists [], [], (env_put_parameter env (history w) name (file_date f)).
    cbn [fst snd errors vectors_stored zip_with put_answers batch_errors concat].
    rewrite Hh, Hs, !app_nil_r.
    unfold written. simpl. split_and!; (done || lia).
  - destruct (storeVectorsBatch_spec env (vector_bucket cfg) (index_name cfg) (v :: vs)
                (batch_size cfg) w Hpos)
      as (batches & w' & sr & Hstore & Hcat & _ & _ & Hhist & Hssm & Hst & Herr).
    rewrite Hstore. cbn [mbind result_bind].
    destruct (setLastProcessedDate_answer (file_date f) w') as [Hh Hs].
    exists batches, (put_answers env (vector_bucket cfg) (index_name cfg) (history w) batches),
      (env_put_parameter env (history w') name (file_date f)).
    cbn [fst snd errors vectors_stored].
    rewrite Hh, Hs, Hssm, Herr, Hst, Hhist, <- app_assoc.
    split_and!; try done.
    f_equal. by destruct (batch_errors _ _ _).
Qed.

End Driver.

(** ** The sync on the examples *)

Lemma getEmbeddingsParallel_order_witness :
  0 < 10
  /\ [2; 0; 1]%nat ≡ₚ seq 0 (length Examples.texts)
  /\ exists results,
       getEmbeddingsParallel Examples.embed_but_b [2; 0; 1]%nat Examples.texts 10 = Ok results
       /\ length results = length Examples.texts
       /\ forall i t, Examples.texts !! i = Some t ->
            exists result,
              results !! i = Some (Some result)
              /\ er_index result = i
              /\ match Examples.embed_but_b i t with
                 | inr e => er_embedding result = Some e /\ er_error result = None
                 | inl msg => er_embedding result = None /\ er_error result = Some msg
                 end.
Proof.
  split; [reflexivity|].
  split; [apply (Permutation_cons_append [0; 1]%nat 2%nat)|].
  apply (getEmbeddingsParallel_order Examples.embed_but_b [2; 0; 1]%nat Examples.texts 10).
  - reflexivity.
  - apply (Permutation_cons_append [0; 1]%nat 2%nat).
Defined.

(** The order of the results on the example: the second text failed, the
    futures completed in the order 2, 0, 1. *)
Example getEmbeddingsParallel_abc :
  getEmbeddingsParallel Examples.embed_but_b [2; 0; 1]%nat Examples.texts 10
  = Ok [ Some (mkEmbResult 0 (Some [0]) None);
         Some (mkEmbResult 1 None (Some "ModelTimeoutException"));
         Some (mkEmbResult 2 (Some [2]) None) ].
Proof. reflexivity. Qed.

Lemma storeVectorsBatch_batches_witness :
  0 < 2
  /\ exists batches w' r,
       storeVectorsBatch (Examples.services true false) "vectors" "chat-index"
         Examples.three_vectors 2 Examples.first_run = Ok (w', r)
       /\ concat batches = Examples.three_vectors
       /\ Forall (fun b => 0 < length b <= Z.to_nat 2)%nat batches
       /\ (forall j b, batches !! j = Some b ->
                       b = take (Z.to_nat 2) (drop (j * Z.to_nat 2) Examples.three_vectors))
       /\ history w'
          = history Examples.first_run
            ++ zip_with (put_event "vectors" "chat-index") batches
                 (put_answers (Examples.services true false) "vectors" "chat-index"
                    (history Examples.first_run) batches)
       /\ (forall j b, batches !! j = Some b ->
             put_answers (Examples.services true false) "vectors" "chat-index"
               (history Examples.first_run) batches !! j
             = Some (env_put_vectors (Examples.services true false)
                       (history Examples.first_run
                        ++ take j (zip_with (put_event "vectors" "chat-index") batches
                                     (put_answers (Examples.services true false) "vectors"
                                        "chat-index" (history Examples.first_run) batches)))
                       "vectors" "chat-index" (map to_vector_data b)))
       /\ ssm_store w' = ssm_store Examples.first_run
       /\ stored r
          = written batches
              (put_answers (Examples.services true false) "vectors" "chat-index"
                 (history Examples.first_run) batches)
       /\ store_errors r
          = match batch_errors batches
                    (put_answers (Examples.services true false) "vectors" "chat-index"
                       (history Examples.first_run) batches) 0 with
            | [] => None
            | errors => Some errors
            end.
Proof.
  split; [reflexivity|].
  apply (storeVectorsBatch_batches (Examples.services true false) "vectors" "chat-index"
           Examples.three_vectors 2 Examples.first_run).
  reflexivity.
Defined.

(** The claim C8 fails for a batch size that is not positive.  With the
    batch size 0, [range] raises [ValueError] and nothing is returned; with
    the batch size -2 there is no batch: of three vectors none is sent, and
    the count 0 is returned with no error. *)
Lemma storeVectorsBatch_batches_counterexample :
  storeVectorsBatch (Examples.services false false) "vectors" "chat-index"
    Examples.three_vectors 0 Examples.first_run = Raise ValueError
  /\ storeVectorsBatch (Examples.services false false) "vectors" "chat-index"
       Examples.three_vectors (-2) Examples.first_run
     = Ok (Examples.first_run, mkStore 0 None).
Proof. split; reflexivity. Qed.

(** The writer on the example: both batches fail, both are sent, each is
    recorded with the position of its first vector. *)
Example storeVectorsBatch_both_fail :
  exists w',
    storeVectorsBatch (Examples.services true false) "vectors" "chat-index"
      Examples.three_vectors 2 Examples.first_run
    = Ok (w', mkStore 0 (Some [ BatchError 0 "ServiceUnavailableException";
                                BatchError 2 "ServiceUnavailableException" ]))
    /\ length (put_outcomes (history w')) = 2%nat.
Proof. eexists. split; reflexivity. Qed.

Lemma deduplicate_first_occurrence_witness :
  "m1" <> ""
  /\ first_occurrence_only "m1" Examples.repeated (deduplicate ∅ Examples.repeated).
Proof.
  split; [discriminate|].
  apply (deduplicate_first_occurrence Examples.repeated). discriminate.
Defined.

(** The claim C10 fails for the identifier that is the empty string: the
    two messages carry it, and both are kept. *)
Lemma deduplicate_first_occurrence_counterexample :
  Forall (fun m => message_id m = Some "") Examples.empty_ids
  /\ deduplicate ∅ Examples.empty_ids = Examples.empty_ids
  /\ ~ first_occurrence_only "" Examples.empty_ids (deduplicate ∅ Examples.empty_ids).
Proof.
  split; [repeat constructor|]. split; [reflexivity|].
  unfold first_occurrence_only. vm_compute. discriminate.
Qed.

(** ** The order of the dates *)

Lemma compare_refl (a : string) : String.compare a a = Eq.
Proof.
  pose proof (String.compare_antisym a a) as H.
  destruct (String.compare a a); simpl in H; done.
Qed.

Lemma leb_refl (a : string) : String.leb a a = true.
Proof. unfold String.leb. by rewrite compare_refl. Qed.

Lemma ltb_leb (a b : string) : String.ltb a b = true -> String.leb a b = true.
Proof. unfold String.ltb, String.leb. by destruct (String.compare a b). Qed.

Lemma ltb_false_leb (a b : string) : String.ltb a b = false -> String.leb b a = true.
Proof.
  unfold String.ltb, String.leb. rewrite (String.compare_antisym a b).
  by destruct (String.compare b a).
Qed.

Lemma leb_false_ltb (a b : string) : String.leb a b = false -> String.ltb b a = true.
Proof.
  unfold String.ltb, String.leb. rewrite (String.compare_antisym a b).
  by destruct (String.compare b a).
Qed.

Lemma compare_lt_trans (a b c : string) :
  String.compare a b = Lt -> String.compare b c = Lt -> String.compare a c = Lt.
Proof.
  intros H1 H2. apply String_as_OT.cmp_lt. apply String_as_OT.cmp_lt in H1, H2.
  by eapply String_as_OT.lt_trans.
Qed.

Lemma leb_trans (a b c : string) :
  String.leb a b = true -> String.leb b c = true -> String.leb a c = true.
Proof.
  unfold String.leb.
  destruct (String.compare a b) eqn:Hab; [| |done].
  - apply String.compare_eq_iff in Hab as ->. done.
  - destruct (String.compare b c) eqn:Hbc; [| |done]; intros _ _.
    + apply String.compare_eq_iff in Hbc as <-. by rewrite Hab.
    + by rewrite (compare_lt_trans a b c).
Qed.

Lemma leb_ltb_trans (a b c : string) :
  String.leb a b = true -> String.ltb b c = true -> String.leb a c = true.
Proof. intros H1 H2. eapply leb_trans; [done|]. by apply ltb_leb. Qed.

(** ** The order in which the files are processed *)

Local Abbreviation key_le := (fun p q : string * file_info => String.leb (fst p) (fst q) = true).

Lemma insert_by_key_sorted (key : string) (f : file_info) (l : list (string * file_info)) :
  StronglySorted key_le l -> StronglySorted key_le (insert_by_key key f l).
Proof.
  induction 1 as [|[k y] l Hsorted IH Hall]; simpl.
  - repeat constructor.
  - destruct (String.ltb k key) eqn:Hlt.
    + constructor; [done|].
      rewrite insert_by_key_perm. constructor; [by apply ltb_leb | done].
    + apply ltb_false_leb in Hlt.
      constructor; [by constructor|].
      constructor; [done|].
      eapply Forall_impl; [exact Hall|]. intros [k' y'] Hk. simpl in *.
      by eapply leb_trans.
Qed.

(** [processNewFiles] goes through the files in ascending order of their
    dates. *)
Lemma files_sorted_ascending (files : list file_info) :
  StronglySorted (fun a b => String.leb a b = true) (map file_date (files_sorted files)).
Proof.
  unfold files_sorted, stable_sort.
  set (pairs := foldr _ [] _).
  assert (StronglySorted key_le pairs /\ Forall (fun p => fst p = file_date (snd p)) pairs)
    as [Hsorted Hkeys].
  { unfold pairs. clear pairs. induction files as [|f files [IH1 IH2]]; simpl.
    - split; constructor.
    - split; [by apply insert_by_key_sorted|].
      rewrite insert_by_key_perm. by constructor. }
  clearbody pairs. induction Hsorted as [|[k f] l Hsorted IH Hall]; simpl; [constructor|].
  apply Forall_cons in Hkeys as [Hk Hkeys]. simpl in Hk. subst k.
  constructor; [by apply IH|].
  rewrite Forall_forall in Hall, Hkeys. apply Forall_forall.
  intros d Hd. apply list_elem_of_fmap in Hd as (g & -> & Hg).
  apply list_elem_of_fmap in Hg as ([k g'] & -> & Hg). simpl.
  pose proof (Hkeys _ Hg) as Hk. pose proof (Hall _ Hg) as Hle. simpl in *.
  by rewrite <- Hk.
Qed.

Lemma files_sorted_perm (files : list file_info) : files_sorted files ≡ₚ files.
Proof.
  unfold files_sorted. rewrite stable_sort_perm, map_map. simpl. by rewrite map_id.
Qed.

Lemma sorted_sublist (l1 l2 : list string) :
  sublist l1 l2 ->
  StronglySorted (fun a b => String.leb a b = true) l2 ->
  StronglySorted (fun a b => String.leb a b = true) l1.
Proof.
  induction 1 as [|x l1 l2 Hsub IH|x l1 l2 Hsub IH]; intros Hsorted.
  - constructor.
  - apply StronglySorted_inv in Hsorted as [Hs Hall]. constructor; [by apply IH|].
    rewrite Forall_forall in Hall. apply Forall_forall. intros y Hy.
    apply Hall. by eapply elem_of_sublist.
  - apply StronglySorted_inv in Hsorted as [Hs _]. by apply IH.
Qed.

(** The last of an ascending list is not below any of its elements. *)
Lemma sorted_last (l : list string) (d dmax : string) :
  StronglySorted (fun a b => String.leb a b = true) l ->
  last l = Some dmax -> d ∈ l -> String.leb d dmax = true.
Proof.
  induction 1 as [|x l Hsorted IH Hall]; [done|].
  intros Hlast Hd. rewrite last_cons in Hlast.
  destruct (last l) as [y|] eqn:Hl.
  - injection Hlast as ->.
    apply elem_of_cons in Hd as [->|Hd]; [|by apply IH].
    rewrite Forall_forall in Hall. apply Hall.
    apply last_Some in Hl as [l' ->]. apply elem_of_app. right. by left.
  - injection Hlast as ->. apply last_None in Hl as ->.
    apply list_elem_of_singleton in Hd as ->. apply leb_refl.
Qed.

(** ** Discovery *)

(** The date of a file decides alone whether the cursor keeps it out. *)
Lemma file_of_object_since (since : option string) (obj : s3_object) :
  file_of_object since obj
  = match file_of_object None obj with
    | Some f =>
        if PyStr.truthy since && String.leb (file_date f) (default "" since) then None
        else Some f
    | None => None
    end.
Proof.
  unfold file_of_object.
  destruct (negb (PyStr.endswith (obj_Key obj) "_chat.json")); [done|].
  destruct (2 <=? length (file_parts (obj_Key obj)))%nat; [|done].
  simpl. by destruct (PyStr.truthy since && _).
Qed.

Lemma getNewChatFiles_since (pages : list (list s3_object)) (since : option string) :
  getNewChatFiles pages since
  = List.filter (fun f => negb (PyStr.truthy since
                               && String.leb (file_date f) (default "" since)))
      (getNewChatFiles pages None).
Proof.
  unfold getNewChatFiles. induction (concat pages) as [|obj objs IH]; simpl; [done|].
  rewrite (file_of_object_since since obj).
  destruct (file_of_object None obj) as [f|]; simpl; [|exact IH].
  destruct (PyStr.truthy since && _); simpl; [exact IH|]. f_equal. exact IH.
Qed.

(** Discovery keeps out every file whose date is not after the cursor. *)
Lemma getNewChatFiles_after (pages : list (list s3_object)) (c : string) (f : file_info) :
  c <> "" ->
  f ∈ getNewChatFiles pages (Some c) ->
  String.ltb c (file_date f) = true.
Proof.
  intros Hc. rewrite getNewChatFiles_since.
  rewrite list_elem_of_In, filter_In. intros [_ Hkeep].
  apply negb_true_iff in Hkeep. simpl in Hkeep.
  apply String.eqb_neq in Hc. rewrite Hc in Hkeep. simpl in Hkeep.
  by apply leb_false_ltb.
Qed.

Section Checkpoint.

Context (env : environment) (cfg : config).

Local Abbreviation name := (parameter_name cfg).

(** C1, as amended.  When the vectors of a source reach the batch writer,
    with a batch size of at least one, [put_vectors] is called for every
    batch of them, then [put_parameter] is called with the date of the
    source: it is the last call, it comes whatever the answers of
    [put_vectors], and the batches for which [put_vectors] raised are
    added to the errors of the run.  When [put_parameter] does not raise,
    the cursor is the date of the source, and, the date not being the empty
    string, a discovery from this cursor finds only sources whose date is
    after it: not this source, also when batches of it failed.  When
    [put_parameter] raises, the exception is dropped and the cursor is as
    it was before the source.  A source that is skipped, or for which an
    exception is raised before the writer, leaves the cursor as it was. *)
Theorem processFile_checkpoint (f : file_info) (w : world) (r : results) :
  0 < batch_size cfg ->
  match prepare_file env cfg f (w, r) with
  | Ready w1 r1 vectors =>
      exists batches outcomes o,
        concat batches = vectors
        /\ outcomes
           = put_answers env (vector_bucket cfg) (index_name cfg) (history w1) batches
        /\ o = env_put_parameter env
                 (history w1
                  ++ zip_with (put_event (vector_bucket cfg) (index_name cfg))
                       batches outcomes)
                 name (file_date f)
        /\ history (fst (processFile env cfg f (w, r)))
           = history w1
             ++ zip_with (put_event (vector_bucket cfg) (index_name cfg)) batches outcomes
             ++ [EvPutParameter name (file_date f) o]
        /\ errors (snd (processFile env cfg f (w, r)))
           = errors r1 ++ batch_errors batches outcomes 0
        /\ (o = None -> cursor cfg (fst (processFile env cfg f (w, r))) = Some (file_date f))
        /\ (o = None -> file_date f <> "" ->
            forall pages g,
              g ∈ getNewChatFiles pages (cursor cfg (fst (processFile env cfg f (w, r)))) ->
              String.ltb (file_date f) (file_date g) = true)
        /\ (o <> None -> cursor cfg (fst (processFile env cfg f (w, r))) = cursor cfg w)
  | Skipped w1 _ | Failed w1 _ _ =>
      fst (processFile env cfg f (w, r)) = w1 /\ quiet name w w1
  end.
Proof.
  intros Hpos. unfold processFile.
  pose proof (prepare_file_quiet env cfg f w r) as Hquiet.
  destruct (prepare_file env cfg f (w, r)) as [w1 r1|w1 r1 e|w1 r1 vectors]; try done.
  destruct (store_and_checkpoint_spec env cfg f w1 r1 vectors Hpos)
    as (batches & outcomes & o & Hcat & Hout & Ho & Hhist & Herr & _ & Hssm).
  assert (o = None ->
          cursor cfg (fst (store_and_checkpoint env cfg f w1 r1 vectors))
          = Some (file_date f)) as Hset.
  { intros ->. unfold cursor. fold name. rewrite Hssm. apply lookup_insert_eq. }
  exists batches, outcomes, o. split_and!; try done.
  - intros Hnone Hdate pages g. rewrite (Hset Hnone). by apply getNewChatFiles_after.
  - intros Hsome. unfold cursor. fold name. rewrite Hssm.
    destruct o; [|done]. destruct Hquiet as [-> _]. done.
Qed.

End Checkpoint.

Lemma processFile_checkpoint_witness :
  0 < batch_size Examples.cfg
  /\ match prepare_file (Examples.services true false) Examples.cfg Examples.jan03
             (Examples.processed_until "2024-01-02", mkResults 0 0 []) with
     | Ready w1 r1 vectors =>
         exists batches outcomes o,
           concat batches = vectors
           /\ outcomes
              = put_answers (Examples.services true false) (vector_bucket Examples.cfg)
                  (index_name Examples.cfg) (history w1) batches
           /\ o = env_put_parameter (Examples.services true false)
                    (history w1
                     ++ zip_with
                          (put_event (vector_bucket Examples.cfg) (index_name Examples.cfg))
                          batches outcomes)
                    (parameter_name Examples.cfg) (file_date Examples.jan03)
           /\ history (fst (processFile (Examples.services true false) Examples.cfg
                              Examples.jan03
                              (Examples.processed_until "2024-01-02", mkResults 0 0 [])))
              = history w1
                ++ zip_with (put_event (vector_bucket Examples.cfg) (index_name Examples.cfg))
                     batches outcomes
                ++ [EvPutParameter (parameter_name Examples.cfg)
                      (file_date Examples.jan03) o]
           /\ errors (snd (processFile (Examples.services true false) Examples.cfg
                             Examples.jan03
                             (Examples.processed_until "2024-01-02", mkResults 0 0 [])))
              = errors r1 ++ batch_errors batches outcomes 0
           /\ (o = None ->
               cursor Examples.cfg
                 (fst (processFile (Examples.services true false) Examples.cfg Examples.jan03
                         (Examples.processed_until "2024-01-02", mkResults 0 0 [])))
               = Some (file_date Examples.jan03))
           /\ (o = None -> file_date Examples.jan03 <> "" ->
               forall pages g,
                 g ∈ getNewChatFiles pages
                       (cursor Examples.cfg
                          (fst (processFile (Examples.services true false) Examples.cfg
                                  Examples.jan03
                                  (Examples.processed_until "2024-01-02",
                                   mkResults 0 0 [])))) ->
                 String.ltb (file_date Examples.jan03) (file_date g) = true)
           /\ (o <> None ->
               cursor Examples.cfg
                 (fst (processFile (Examples.services true false) Examples.cfg Examples.jan03
                         (Examples.processed_until "2024-01-02", mkResults 0 0 [])))
               = cursor Examples.cfg (Examples.processed_until "2024-01-02"))
     | Skipped w1 _ | Failed w1 _ _ =>
         fst (processFile (Examples.services true false) Examples.cfg Examples.jan03
                (Examples.processed_until "2024-01-02", mkResults 0 0 [])) = w1
         /\ quiet (parameter_name Examples.cfg) (Examples.processed_until "2024-01-02") w1
     end.
Proof.
  split; [reflexivity|].
  apply (processFile_checkpoint (Examples.services true false) Examples.cfg Examples.jan03).
  reflexivity.
Defined.

(** The claim C1 fails.  The cursor is at 2024-01-02 and the writer fails
    for the source of 2024-01-03: the one call of [put_vectors] fails, no
    vector is stored, and the cursor is set to 2024-01-03; the next
    discovery finds no source. *)
Lemma checkpoint_after_failed_write_counterexample :
  cursor Examples.cfg (Examples.processed_until "2024-01-02") = Some "2024-01-02"
  /\ put_outcomes (history (fst Examples.run_writer_fails))
     = [Some "ServiceUnavailableException"]
  /\ vectors_stored (snd Examples.run_writer_fails) = 0%nat
  /\ cursor Examples.cfg (fst Examples.run_writer_fails) = Some "2024-01-03"
  /\ getNewChatFiles Examples.pages (cursor Examples.cfg (fst Examples.run_writer_fails)) = [].
Proof. vm_compute. split_and!; reflexivity. Qed.

(** ** The cursor along a run *)

Lemma last_or_app (l1 l2 : list string) (d : option string) :
  last_or (l1 ++ l2) d = last_or l2 (last_or l1 d).
Proof. unfold last_or. rewrite last_app. by destruct (last l2). Qed.

Section Cursor.

Context (env : environment) (cfg : config).

Local Abbreviation name := (parameter_name cfg).

Local Abbreviation wrote' := (wrote cfg).

Lemma wrote_quiet (w w' : world) : quiet name w w' -> wrote' [] w w'.
Proof.
  intros [Hs (new & Hh & Hc)]. exists new. split_and!; try done.
  unfold cursor, last_or. simpl. by rewrite Hs.
Qed.

Lemma wrote_trans (d1 d2 : list string) (w1 w2 w3 : world) :
  wrote' d1 w1 w2 -> wrote' d2 w2 w3 -> wrote' (d1 ++ d2) w1 w3.
Proof.
  intros (n1 & Hh1 & Hc1 & Hl1) (n2 & Hh2 & Hc2 & Hl2).
  exists (n1 ++ n2). split_and!.
  - by rewrite Hh2, Hh1, <- app_assoc.
  - by rewrite cursor_writes_app, Hc1, Hc2.
  - by rewrite Hl2, Hl1, last_or_app.
Qed.

Lemma setLastProcessedDate_wrote (d : string) (w : world) :
  exists dates,
    (dates = [] \/ dates = [d])
    /\ wrote' dates w (setLastProcessedDate env (ssm_prefix cfg) (project_id cfg) d w).
Proof.
  destruct (setLastProcessedDate_spec env cfg d w) as (o & Hh & Hs).
  exists (match o with None => [d] | Some _ => [] end). split.
  - destruct o; [by left | by right].
  - exists [EvPutParameter name d o]. split_and!; [done|apply cursor_writes_checkpoint|].
    unfold cursor. fold name. rewrite Hs.
    destruct o; [done|]. unfold last_or. simpl. apply lookup_insert_eq.
Qed.

(** The body of the loop writes the cursor at most once, with the date of
    the file. *)
Lemma processFile_wrote (f : file_info) (w : world) (r : results) :
  exists dates,
    (dates = [] \/ dates = [file_date f])
    /\ wrote' dates w (fst (processFile env cfg f (w, r))).
Proof.
  unfold processFile.
  pose proof (prepare_file_quiet env cfg f w r) as Hquiet.
  destruct (prepare_file env cfg f (w, r)) as [w1 r1|w1 r1 e|w1 r1 vectors].
  - exists []. split; [by left|]. by apply wrote_quiet.
  - exists []. split; [by left|]. by apply wrote_quiet.
  - apply wrote_quiet in Hquiet. unfold store_and_checkpoint.
    destruct vectors as [|v vs].
    + destruct (setLastProcessedDate_wrote (file_date f) w1) as (dates & Hd & Hw).
      exists dates. split; [done|].
      change dates with ([] ++ dates). by eapply wrote_trans.
    + destruct (storeVectorsBatch env (vector_bucket cfg) (index_name cfg) (v :: vs)
                  (batch_size cfg) w1) as [[w2 sr]|e] eqn:Hstore; cbn [mbind result_bind].
      * apply storeVectorsBatch_quiet, wrote_quiet in Hstore.
        destruct (setLastProcessedDate_wrote (file_date f) w2) as (dates & Hd & Hw).
        exists dates. split; [done|].
        change dates with ([] ++ [] ++ dates).
        eapply wrote_trans; [done|]. by eapply wrote_trans.
      * exists []. split; [by left | done].
Qed.

(** The loop writes the cursor with dates of the files, in the order of the
    files. *)
Lemma process_loop_wrote (context : option (list event -> Z)) (files : list file_info)
    (st : world * results) :
  exists dates,
    sublist dates (map file_date files)
    /\ wrote' dates (fst st) (fst (process_loop env cfg context files st)).
Proof.
  revert st. induction files as [|f rest IH]; intros [w r]; simpl.
  - exists []. split; [done|]. apply wrote_quiet, quiet_refl.
  - destruct context as [get_remaining_time_in_millis|].
    + set (ms := get_remaining_time_in_millis (history w)).
      assert (wrote' [] w (log (EvRemainingTime ms) w)) as Hlog.
      { apply wrote_quiet. by apply quiet_log. }
      destruct (ms <? 30000).
      * exists []. split; [apply sublist_nil_l | done].
      * destruct (processFile_wrote f (log (EvRemainingTime ms) w) r) as (d1 & Hd1 & Hw1).
        destruct (IH (processFile env cfg f (log (EvRemainingTime ms) w, r)))
          as (d2 & Hd2 & Hw2).
        exists (d1 ++ d2). split.
        -- destruct Hd1 as [-> | ->]; simpl; [by apply sublist_cons | by apply sublist_skip].
        -- change (d1 ++ d2) with ([] ++ d1 ++ d2).
           eapply wrote_trans; [done|]. by eapply wrote_trans.
    + destruct (processFile_wrote f w r) as (d1 & Hd1 & Hw1).
      destruct (IH (processFile env cfg f (w, r))) as (d2 & Hd2 & Hw2).
      exists (d1 ++ d2). split.
      * destruct Hd1 as [-> | ->]; simpl; [by apply sublist_cons | by apply sublist_skip].
      * by eapply wrote_trans.
Qed.

Lemma filter_none {A} (p : A -> bool) (l : list A) :
  (forall x, In x l -> p x = false) -> List.filter p l = [].
Proof.
  induction l as [|x l IH]; simpl; [done|]. intros H.
  rewrite (H x) by (by left). apply IH. intros y Hy. apply H. by right.
Qed.

(** A run whose read of the cursor succeeds writes the cursor with dates of
    the sources discovered, in the order in which they are processed. *)
Lemma run_wrote (context : option (list event -> Z)) (pages : list (list s3_object))
    (w : world) :
  env_get_parameter_fails env (history w) (parameter_name cfg) = false ->
  exists dates,
    sublist dates (map file_date (files_sorted (getNewChatFiles pages (cursor cfg w))))
    /\ wrote' dates w (fst (run env cfg context pages w)).
Proof.
  intros Hread.
  unfold run, getLastProcessedDate. fold (parameter_name cfg). rewrite Hread.
  change (ssm_store w !! name) with (cursor cfg w).
  assert (wrote' [] w (log (EvGetParameter name) w)) as Hlog.
  { apply wrote_quiet. by apply quiet_log. }
  destruct (getNewChatFiles pages (cursor cfg w)) as [|f fs] eqn:Hdisc.
  - exists []. split; [apply sublist_nil_l | done].
  - unfold processNewFiles. fold (files_sorted (f :: fs)).
    destruct (process_loop_wrote context (files_sorted (f :: fs))
                (log (EvGetParameter name) w, mkResults 0 0 [])) as (dates & Hsub & Hw).
    exists dates. split; [done|].
    change dates with ([] ++ dates). by eapply wrote_trans.
Qed.

(** C9, as amended.  In a run whose read of the cursor succeeds, the cursor
    being not the empty string when it is set: discovery keeps out every
    source whose date is not after the cursor; the sources are processed in
    ascending order of their dates and the cursor is written with dates of
    these sources, in that order; the successive values of the cursor, from
    the one before the run on, are in ascending order; and when the cursor
    was written for every source, a new discovery finds no source. *)
Theorem run_cursor_advances (context : option (list event -> Z))
    (pages : list (list s3_object)) (w : world) :
  env_get_parameter_fails env (history w) (parameter_name cfg) = false ->
  cursor cfg w <> Some "" ->
  (forall c f, cursor cfg w = Some c ->
               f ∈ getNewChatFiles pages (cursor cfg w) -> String.ltb c (file_date f) = true)
  /\ StronglySorted (fun a b => String.leb a b = true)
       (map file_date (files_sorted (getNewChatFiles pages (cursor cfg w))))
  /\ exists new,
       history (fst (run env cfg context pages w)) = history w ++ new
       /\ sublist (cursor_writes name new)
            (map file_date (files_sorted (getNewChatFiles pages (cursor cfg w))))
       /\ cursor cfg (fst (run env cfg context pages w))
          = last_or (cursor_writes name new) (cursor cfg w)
       /\ StronglySorted (fun a b => String.leb a b = true)
            (option_list (cursor cfg w) ++ cursor_writes name new)
       /\ cursor_le (cursor cfg w) (cursor cfg (fst (run env cfg context pages w)))
       /\ (cursor_writes name new
           = map file_date (files_sorted (getNewChatFiles pages (cursor cfg w))) ->
           cursor cfg (fst (run env cfg context pages w)) <> Some "" ->
           getNewChatFiles pages (cursor cfg (fst (run env cfg context pages w))) = []).
Proof.
  intros Hread Hc0.
  set (discovered := getNewChatFiles pages (cursor cfg w)).
  pose proof (files_sorted_ascending discovered) as Hasc.
  assert (forall c f, cursor cfg w = Some c -> f ∈ discovered ->
                      String.ltb c (file_date f) = true) as Hafter.
  { intros c f Hc Hf. unfold discovered in Hf. rewrite Hc in Hf.
    apply (getNewChatFiles_after pages c f); [congruence | done]. }
  split; [done|]. split; [done|].
  (* the run *)
  destruct (run_wrote context pages w Hread)
    as (dates & Hsub & new & Hhist & Hwrites & Hcursor).
  fold discovered in Hsub.
  subst dates.
  assert (Forall (fun v => forall c, cursor cfg w = Some c -> String.ltb c v = true)
            (cursor_writes name new)) as Hgt.
  { apply Forall_forall. intros v Hv c Hc.
    pose proof (elem_of_sublist _ _ _ Hv Hsub) as Hin.
    apply list_elem_of_fmap in Hin as (f & -> & Hf).
    apply (Hafter c f Hc). by rewrite <- (files_sorted_perm discovered). }
  assert (StronglySorted (fun a b => String.leb a b = true)
            (option_list (cursor cfg w) ++ cursor_writes name new)) as Hmono.
  { pose proof (sorted_sublist _ _ Hsub Hasc) as Hs.
    destruct (cursor cfg w) as [c|]; simpl; [|done].
    constructor; [done|]. eapply Forall_impl; [exact Hgt|].
    intros v Hv. simpl in Hv. apply ltb_leb. by apply Hv. }
  exists new. split_and!; try done.
  - (* the cursor after the run is not below the cursor before *)
    rewrite Hcursor. unfold last_or.
    destruct (last (cursor_writes name new)) as [v|] eqn:Hlast.
    + destruct (cursor cfg w) as [c|] eqn:Hc; simpl; [|done].
      rewrite Forall_forall in Hgt. apply ltb_leb, Hgt; [|done].
      apply last_Some in Hlast as [l' ->]. apply elem_of_app. right. by left.
    + destruct (cursor cfg w) as [c|]; simpl; [apply leb_refl | done].
  - (* a new discovery *)
    intros Hall Hne. rewrite Hcursor in *. rewrite Hall in *.
    unfold last_or in *.
    destruct (last (map file_date (files_sorted discovered))) as [dmax|] eqn:Hlast.
    + rewrite getNewChatFiles_since. simpl.
      assert (dmax <> "") as Hd by congruence.
      apply String.eqb_neq in Hd. rewrite Hd. simpl.
      apply filter_none. intros f Hf. apply negb_false_iff.
      destruct (PyStr.truthy (cursor cfg w)
                && String.leb (file_date f) (default "" (cursor cfg w))) eqn:Hout.
      * (* kept out by the first discovery: not after the old cursor *)
        apply andb_prop in Hout as [Htruthy Hle].
        destruct (cursor cfg w) as [c|] eqn:Hc; [|done]. simpl in Hle.
        eapply leb_ltb_trans; [exact Hle|].
        rewrite Forall_forall in Hgt. apply Hgt; [|done].
        apply last_Some in Hlast as [l' ->]. apply elem_of_app. right. by left.
      * (* discovered, so processed before the last *)
        apply (sorted_last _ _ _ Hasc Hlast).
        apply list_elem_of_fmap. exists f. split; [done|].
        rewrite (files_sorted_perm discovered). unfold discovered.
        rewrite getNewChatFiles_since. apply list_elem_of_In, filter_In.
        split; [done|]. by rewrite Hout.
    + (* no source was discovered *)
      apply last_None in Hlast. apply fmap_nil_inv in Hlast.
      pose proof (files_sorted_perm discovered) as Hperm. rewrite Hlast in Hperm.
      apply Permutation_nil_l in Hperm. symmetry. exact Hperm.
Qed.

End Cursor.

Lemma run_cursor_advances_witness :
  env_get_parameter_fails (Examples.services false false)
    (history (Examples.processed_until "2024-01-01")) (parameter_name Examples.cfg) = false
  /\ cursor Examples.cfg (Examples.processed_until "2024-01-01") <> Some ""
  /\ cursor_le (cursor Examples.cfg (Examples.processed_until "2024-01-01"))
       (cursor Examples.cfg
          (fst (run (Examples.services false false) Examples.cfg None Examples.pages
                  (Examples.processed_until "2024-01-01")))).
Proof.
  split; [reflexivity|].
  split; [vm_compute; discriminate|].
  destruct (run_cursor_advances (Examples.services false false) Examples.cfg None
              Examples.pages (Examples.processed_until "2024-01-01"))
    as (_ & _ & new & _ & _ & _ & _ & Hle & _).
  - reflexivity.
  - vm_compute. discriminate.
  - exact Hle.
Defined.

(** The run of the witness: the sources of 2024-01-02 and 2024-01-03 are
    discovered and processed in this order, and a new discovery finds no
    source. *)
Example run_after_jan01 :
  cursor_writes (parameter_name Examples.cfg)
    (history (fst (run (Examples.services false false) Examples.cfg None Examples.pages
                     (Examples.processed_until "2024-01-01"))))
  = ["2024-01-02"; "2024-01-03"]
  /\ getNewChatFiles Examples.pages
       (cursor Examples.cfg
          (fst (run (Examples.services false false) Examples.cfg None Examples.pages
                  (Examples.processed_until "2024-01-01")))) = [].
Proof. vm_compute. split; reflexivity. Qed.

(** The claim C9 fails.  The cursor is at 2024-01-02; the read of the cursor
    fails, which the run takes for a first run: every source is discovered,
    the source of 2024-01-01 is processed and the cursor is set to its date;
    the time runs out, and the cursor is left before where it was. *)
Lemma run_cursor_advances_counterexample :
  cursor Examples.cfg (Examples.processed_until "2024-01-02") = Some "2024-01-02"
  /\ cursor Examples.cfg (fst Examples.run_read_fails) = Some "2024-01-01"
  /\ ~ cursor_le (cursor Examples.cfg (Examples.processed_until "2024-01-02"))
         (cursor Examples.cfg (fst Examples.run_read_fails)).
Proof.
  split; [vm_compute; reflexivity|]. split; [vm_compute; reflexivity|].
  vm_compute. discriminate.
Qed.

(** * Further properties *)

(** ** Strings *)

Lemma string_app_assoc (a b c : string) : (a +:+ b) +:+ c = a +:+ (b +:+ c).
Proof.
  induction a as [|x a IH]; [done|].
  change (String x ((a +:+ b) +:+ c) = String x (a +:+ (b +:+ c))). by rewrite IH.
Qed.

Lemma contains_char_cons (c a : ascii) (s : string) :
  PyStr.contains (String c EmptyString) (String a s)
  = Ascii.eqb a c || PyStr.contains (String c EmptyString) s.
Proof.
  simpl. destruct (ascii_dec c a) as [->|Hne].
  - rewrite Ascii.eqb_refl. by destruct s.
  - destruct (Ascii.eqb_spec a c) as [->|_]; done.
Qed.

Lemma contains_char_app (c : ascii) (a b : string) :
  PyStr.contains (String c EmptyString) (a +:+ b)
  = PyStr.contains (String c EmptyString) a || PyStr.contains (String c EmptyString) b.
Proof.
  induction a as [|x a IH].
  - done.
  - change (String x a +:+ b) with (String x (a +:+ b)).
    rewrite !contains_char_cons, IH. by rewrite orb_assoc.
Qed.

Lemma split_nonempty (c : ascii) (s : string) : PyStr.split c s <> [].
Proof.
  induction s as [|a s IH]; simpl; [done|].
  destruct (Ascii.eqb a c); [done|]. by destruct (PyStr.split c s).
Qed.

(** A string without the separator is its only part. *)
Lemma split_without (c : ascii) (s : string) :
  PyStr.contains (String c EmptyString) s = false -> PyStr.split c s = [s].
Proof.
  induction s as [|a s IH]; [done|].
  rewrite contains_char_cons. intros [Ha Hs]%orb_false_elim.
  simpl. rewrite Ha, (IH Hs). done.
Qed.

Lemma split_app (c : ascii) (a b : string) :
  PyStr.split c (a +:+ String c b) = PyStr.split c a ++ PyStr.split c b.
Proof.
  induction a as [|x a IH].
  - simpl. by rewrite Ascii.eqb_refl.
  - change (String x a +:+ String c b) with (String x (a +:+ String c b)).
    simpl. rewrite IH. destruct (Ascii.eqb x c); [done|].
    pose proof (split_nonempty c a). by destruct (PyStr.split c a).
Qed.

(** Joining the parts of a string with the separator gives the string back. *)
Lemma join_split (c : ascii) (s : string) :
  PyStr.join (String c EmptyString) (PyStr.split c s) = s.
Proof.
  induction s as [|a s IH]; [done|].
  simpl. destruct (Ascii.eqb_spec a c) as [->|Hne].
  - pose proof (split_nonempty c s).
    unfold PyStr.join in *. destruct (PyStr.split c s) as [|p ps] eqn:Hs; [done|].
    change (String.concat (String c EmptyString) (EmptyString :: p :: ps))
      with (EmptyString +:+ String c EmptyString +:+ String.concat (String c EmptyString) (p :: ps)).
    rewrite IH. done.
  - pose proof (split_nonempty c s).
    unfold PyStr.join in *. destruct (PyStr.split c s) as [|p ps] eqn:Hs; [done|].
    destruct ps as [|q ps].
    + simpl in *. by rewrite IH.
    + change (String.concat (String c EmptyString) (String a p :: q :: ps))
        with (String a p +:+ String c EmptyString +:+ String.concat (String c EmptyString) (q :: ps)).
      change (String.concat (String c EmptyString) (p :: q :: ps))
        with (p +:+ String c EmptyString +:+ String.concat (String c EmptyString) (q :: ps)) in IH.
      rewrite <- IH. done.
Qed.

Lemma split_head_app (c : ascii) (a b : string) :
  PyStr.contains (String c EmptyString) a = false ->
  PyStr.split_head c (a +:+ String c b) = a.
Proof.
  induction a as [|x a IH]; intros Ha.
  - simpl. by rewrite Ascii.eqb_refl.
  - rewrite contains_char_cons in Ha. apply orb_false_elim in Ha as [Hx Ha].
    change (String x a +:+ String c b) with (String x (a +:+ String c b)).
    simpl. rewrite Hx, (IH Ha). done.
Qed.

Lemma replace_char_app (c : ascii) (by_ a b : string) :
  PyStr.replace_char c by_ (a +:+ b)
  = PyStr.replace_char c by_ a +:+ PyStr.replace_char c by_ b.
Proof.
  induction a as [|x a IH]; [done|].
  change (String x a +:+ b) with (String x (a +:+ b)).
  simpl. rewrite IH. destruct (Ascii.eqb x c); [|done].
  by rewrite string_app_assoc.
Qed.

Lemma replace_char_without (c : ascii) (by_ s : string) :
  PyStr.contains (String c EmptyString) s = false -> PyStr.replace_char c by_ s = s.
Proof.
  induction s as [|a s IH]; [done|].
  rewrite contains_char_cons. intros [Ha Hs]%orb_false_elim.
  simpl. rewrite Ha, (IH Hs). done.
Qed.

(** Replacing [c] by a string without [d] in a string without [d] brings
    no [d]. *)
Lemma replace_char_keeps_without (c d : ascii) (by_ s : string) :
  PyStr.contains (String d EmptyString) by_ = false ->
  PyStr.contains (String d EmptyString) s = false ->
  PyStr.contains (String d EmptyString) (PyStr.replace_char c by_ s) = false.
Proof.
  intros Hby. induction s as [|a s IH]; [done|].
  rewrite contains_char_cons. intros [Ha Hs]%orb_false_elim.
  simpl. destruct (Ascii.eqb a c).
  - rewrite contains_char_app, Hby, (IH Hs). done.
  - rewrite contains_char_cons, Ha, (IH Hs). done.
Qed.

Lemma endswith_app (a suffix : string) : PyStr.endswith (a +:+ suffix) suffix = true.
Proof.
  induction a as [|x a IH].
  - change (EmptyString +:+ suffix) with suffix.
    destruct suffix; cbn [PyStr.endswith]; by rewrite String.eqb_refl.
  - change (String x a +:+ suffix) with (String x (a +:+ suffix)).
    simpl. rewrite IH. by rewrite orb_true_r.
Qed.

Lemma length_take_string (n : nat) (s : string) :
  String.length (PyStr.take n s) = Nat.min n (String.length s).
Proof.
  revert s. induction n as [|n IH]; intros [|a s]; simpl; try done. by rewrite IH.
Qed.

Lemma take_prefix (n : nat) (s : string) : String.prefix (PyStr.take n s) s = true.
Proof.
  revert s. induction n as [|n IH]; intros [|a s]; simpl; try done.
  destruct (ascii_dec a a); [apply IH | done].
Qed.

Lemma take_all (n : nat) (s : string) :
  (String.length s <= n)%nat -> PyStr.take n s = s.
Proof.
  revert s. induction n as [|n IH]; intros [|a s]; simpl; intros Hlen; try done; try lia.
  rewrite IH; [done | lia].
Qed.

(** ** The chunks and their groups of messages *)

Lemma mjoin_imap_lookup {A B} (f : nat -> A -> option B) (l : list A) (i : nat) :
  (forall j x, l !! j = Some x -> is_Some (f j x)) ->
  mjoin (imap (fun j x => option_list (f j x)) l) !! i = l !! i ≫= f i.
Proof.
  revert f i. induction l as [|x l IH]; intros f i Hf; [done|].
  destruct (Hf 0%nat x eq_refl) as [b Hb].
  cbn [imap mjoin list_join]. rewrite Hb. destruct i as [|i]; simpl.
  - by rewrite Hb.
  - apply (IH (f ∘ S) i). intros j y Hy. by apply (Hf (S j)).
Qed.

Lemma mjoin_imap_length {A B} (f : nat -> A -> option B) (l : list A) :
  (forall j x, l !! j = Some x -> is_Some (f j x)) ->
  length (mjoin (imap (fun j x => option_list (f j x)) l)) = length l.
Proof.
  revert f. induction l as [|x l IH]; intros f Hf; [done|].
  destruct (Hf 0%nat x eq_refl) as [b Hb].
  cbn [imap mjoin list_join]. rewrite Hb. simpl. f_equal.
  apply (IH (f ∘ S)). intros j y Hy. by apply (Hf (S j)).
Qed.

Section Created.

Context (fromisoformat : string -> option datetime) (now : clock)
        (TOPIC_KEYWORDS : list (string * list string)) (channel_id : string)
        (gap_minutes max_messages max_chars : Z).

Local Abbreviation chunkByConversation' :=
  (chunkByConversation fromisoformat now TOPIC_KEYWORDS channel_id
     gap_minutes max_messages max_chars).
Local Abbreviation segments' := (segments fromisoformat now gap_minutes max_messages max_chars).
Local Abbreviation createChunk' := (createChunk TOPIC_KEYWORDS).

Lemma createChunk_is_Some (msgs : list message) (index : nat) :
  msgs <> [] -> is_Some (createChunk' msgs channel_id index).
Proof.
  intros Hne. unfold createChunk. destruct msgs as [|m msgs]; [done|].
  destruct (last (m :: msgs)) eqn:Hlast; [done|]. by apply last_None in Hlast.
Qed.

(** The chunk of index [i] is made by [createChunk] from the [i]-th group of
    messages of the loop, with the index [i]; the groups are the sorted
    messages, cut into pieces. *)
Lemma chunkByConversation_created (messages : list message) (chunks : list chunk) :
  chunkByConversation' messages = Ok chunks ->
  exists sorted groups,
    sorted_by_timestamp messages = Ok sorted
    /\ concat groups = sorted
    /\ Forall (fun grp => grp <> []) groups
    /\ length chunks = length groups
    /\ forall i, chunks !! i = groups !! i ≫= fun grp => createChunk' grp channel_id i.
Proof.
  intros Hrun. rewrite segments_chunks in Hrun.
  destruct (segments' messages) as [groups|e] eqn:Hseg; [|done].
  injection Hrun as <-.
  destruct (segments_spec _ _ _ _ _ _ _ Hseg) as (_ & Hne & _ & Hsorted).
  exists (map st_msg (concat groups)), (map (map st_msg) groups).
  assert (forall j grp, groups !! j = Some grp ->
                        is_Some (createChunk' (map st_msg grp) channel_id j)) as Hsome.
  { intros j grp Hj. apply createChunk_is_Some.
    rewrite Forall_forall in Hne. intros Hnil. apply fmap_nil_inv in Hnil.
    eapply Hne; [|exact Hnil]. by eapply list_elem_of_lookup_2. }
  split_and!; try done.
  - by rewrite concat_map.
  - apply Forall_fmap. eapply Forall_impl; [exact Hne|].
    intros grp Hgrp Hnil. by apply fmap_nil_inv in Hnil.
  - unfold chunks_of. by rewrite mjoin_imap_length, length_map.
  - intros i. unfold chunks_of. rewrite mjoin_imap_lookup by done.
    rewrite list_lookup_fmap. by destruct (groups !! i).
Qed.

(** What [createChunk] writes in a chunk. *)
Lemma createChunk_fields (msgs : list message) (index : nat) (c : chunk) :
  createChunk' msgs channel_id index = Some c ->
  exists first final,
    head msgs = Some first /\ last msgs = Some final
    /\ chunk_id c
       = channel_id +:+ "-" +:+ chunk_date (timestamp_str first) +:+ "-" +:+ PyStr.of_nat index
    /\ chunk_text c = PyStr.join newline (map render msgs)
    /\ md_timestamp (metadata c) = chunk_date (timestamp_str first)
    /\ md_topics (metadata c) = detectTopics TOPIC_KEYWORDS (chunk_text c)
    /\ md_primary_topic (metadata c) = getPrimaryTopic (md_topics (metadata c))
    /\ md_start_time (metadata c) = timestamp_str first
    /\ md_end_time (metadata c) = timestamp_str final
    /\ md_message_count (metadata c) = length msgs
    /\ md_chunk_text (metadata c) = PyStr.take 2000 (chunk_text c).
Proof.
  unfold createChunk. destruct msgs as [|first msgs]; [done|].
  destruct (last (first :: msgs)) as [final|] eqn:Hlast; [|done].
  intros [= <-]. exists first, final. split_and!; done.
Qed.

End Created.

(** ** Topics *)

Lemma detectTopics_nonempty (TOPIC_KEYWORDS : list (string * list string)) (text : string) :
  detectTopics TOPIC_KEYWORDS text <> [].
Proof. unfold detectTopics. by destruct (map fst _). Qed.

Lemma getPrimaryTopic_elem (topics : list string) :
  topics <> [] -> getPrimaryTopic topics ∈ topics.
Proof.
  intros Hne. unfold getPrimaryTopic.
  destruct (List.filter _ topics) as [|topic rest] eqn:Hfilter.
  - destruct topics as [|t topics]; [done|].
    simpl in Hfilter. destruct (String.eqb_spec t "general") as [->|_]; [by left | done].
  - apply list_elem_of_In.
    eapply (proj1 (List.filter_In _ topic topics)). rewrite Hfilter. by left.
Qed.

Lemma getPrimaryTopic_general (topics : list string) :
  getPrimaryTopic topics = "general" <-> Forall (fun topic => topic = "general") topics.
Proof.
  unfold getPrimaryTopic. induction topics as [|t topics IH]; simpl.
  - split; [constructor | done].
  - destruct (String.eqb_spec t "general") as [->|Hne]; simpl.
    + rewrite IH. split; [by constructor | by inversion 1].
    + split; [done | by inversion 1].
Qed.

(** ** The order of the messages *)

Lemma strongly_sorted_app {A} (R : A -> A -> Prop) (l1 l2 : list A) :
  StronglySorted R (l1 ++ l2) ->
  StronglySorted R l1 /\ StronglySorted R l2
  /\ forall x y, x ∈ l1 -> y ∈ l2 -> R x y.
Proof.
  induction l1 as [|a l1 IH]; simpl; intros Hsorted.
  - split_and!; [constructor | done | by intros x y Hx%elem_of_nil].
  - apply StronglySorted_inv in Hsorted as [Hsorted Hall].
    destruct (IH Hsorted) as (H1 & H2 & H12).
    apply Forall_app in Hall as [Hall1 Hall2].
    split_and!; [by constructor | done |].
    intros x y [->|Hx]%elem_of_cons Hy; [|by apply H12].
    rewrite Forall_forall in Hall2. by apply Hall2.
Qed.

Local Abbreviation by_key A :=
  (fun p q : string * A => String.leb (fst p) (fst q) = true).

Lemma insert_by_key_ascending {A} (key : string) (x : A) (l : list (string * A)) :
  StronglySorted (by_key A) l -> StronglySorted (by_key A) (insert_by_key key x l).
Proof.
  induction 1 as [|[k y] l Hsorted IH Hall]; simpl.
  - repeat constructor.
  - destruct (String.ltb k key) eqn:Hlt.
    + constructor; [done|].
      rewrite insert_by_key_perm. constructor; [by apply ltb_leb | done].
    + apply ltb_false_leb in Hlt.
      constructor; [by constructor|].
      constructor; [done|].
      eapply Forall_impl; [exact Hall|]. intros [k' y'] Hk. simpl in *.
      by eapply leb_trans.
Qed.

Lemma ltb_irrefl (a : string) : String.ltb a a = false.
Proof. unfold String.ltb. by rewrite compare_refl. Qed.

(** The elements of a given key keep their order when one is inserted. *)
Lemma insert_by_key_filter {A} (k key : string) (x : A) (l : list (string * A)) :
  List.filter (fun p => String.eqb (fst p) k) (insert_by_key key x l)
  = if String.eqb key k then (key, x) :: List.filter (fun p => String.eqb (fst p) k) l
    else List.filter (fun p => String.eqb (fst p) k) l.
Proof.
  induction l as [|[k' y] l IH]; simpl.
  - by destruct (String.eqb key k).
  - destruct (String.ltb k' key) eqn:Hlt; simpl.
    + rewrite IH. destruct (String.eqb_spec key k) as [->|Hne]; [|done].
      destruct (String.eqb_spec k' k) as [->|_]; [|done].
      by rewrite ltb_irrefl in Hlt.
    + by destruct (String.eqb key k).
Qed.

Lemma string_keys_timestamps (messages : list message) (kms : list (string * message)) :
  string_keys messages = Some kms ->
  Forall (fun p => timestamp (snd p) = Some (fst p)) kms.
Proof.
  revert kms. induction messages as [|m ms IH]; simpl; intros kms Hkeys.
  - injection Hkeys as <-. constructor.
  - destruct (timestamp m) as [k|] eqn:Hk; [|done].
    destruct (string_keys ms) as [kms'|]; [|done].
    injection Hkeys as <-. constructor; [done | by apply IH].
Qed.

Lemma sorted_pairs {A} (l : list (string * A)) :
  StronglySorted (by_key A)
    (foldr (fun kx acc => insert_by_key (fst kx) (snd kx) acc) [] l).
Proof.
  induction l as [|[k x] l IH]; simpl; [constructor | by apply insert_by_key_ascending].
Qed.

Lemma sorted_pairs_filter {A} (k : string) (l : list (string * A)) :
  List.filter (fun p => String.eqb (fst p) k)
    (foldr (fun kx acc => insert_by_key (fst kx) (snd kx) acc) [] l)
  = List.filter (fun p => String.eqb (fst p) k) l.
Proof.
  induction l as [|[k' x] l IH]; simpl; [done|].
  rewrite insert_by_key_filter, IH. done.
Qed.

Lemma filter_has_timestamp (k : string) (kms : list (string * message)) :
  Forall (fun p => timestamp (snd p) = Some (fst p)) kms ->
  List.filter (has_timestamp k) (map snd kms)
  = map snd (List.filter (fun p => String.eqb (fst p) k) kms).
Proof.
  induction 1 as [|[k' m] kms Hk _ IH]; simpl; [done|].
  simpl in Hk. unfold has_timestamp at 1. rewrite Hk.
  destruct (String.eqb_spec k' k) as [->|Hne].
  - rewrite bool_decide_eq_true_2 by done. simpl. by rewrite IH.
  - rewrite bool_decide_eq_false_2 by congruence. done.
Qed.

Lemma sorted_by_timestamp_ascending (messages sorted : list message) :
  sorted_by_timestamp messages = Ok sorted ->
  StronglySorted (fun a b => String.leb (timestamp_str a) (timestamp_str b) = true) sorted.
Proof.
  unfold sorted_by_timestamp. destruct messages as [|m [|m' ms]].
  - intros [= <-]. constructor.
  - intros [= <-]. repeat constructor.
  - destruct (string_keys (m :: m' :: ms)) as [kms|] eqn:Hkeys; [|done].
    intros [= <-]. apply string_keys_timestamps in Hkeys.
    unfold stable_sort.
    assert (Forall (fun p : string * message => timestamp (snd p) = Some (fst p))
              (foldr (fun kx acc => insert_by_key (fst kx) (snd kx) acc) [] kms)) as Hall.
    { clear -Hkeys. induction Hkeys as [|[k x] l Hk _ IH]; simpl; [constructor|].
      rewrite insert_by_key_perm. by constructor. }
    pose proof (sorted_pairs kms) as Hsorted.
    induction Hsorted as [|[k x] l Hsorted IH Hle]; simpl; [constructor|].
    apply Forall_cons in Hall as [Hk Hall]. simpl in Hk.
    constructor; [by apply IH|].
    rewrite Forall_forall in Hall, Hle. apply Forall_forall.
    intros y Hy. apply list_elem_of_fmap in Hy as ([k' y'] & -> & Hy). simpl.
    pose proof (Hall _ Hy) as Hk'. pose proof (Hle _ Hy) as Hkk. simpl in *.
    unfold timestamp_str. by rewrite Hk, Hk'.
Qed.

(** X1.  The messages are taken in ascending order of their timestamps, as
    strings, and messages of the same timestamp in the order of the
    input. *)
Theorem sorted_by_timestamp_stable (messages sorted : list message) :
  sorted_by_timestamp messages = Ok sorted ->
  sorted ≡ₚ messages
  /\ StronglySorted (fun a b => String.leb (timestamp_str a) (timestamp_str b) = true) sorted
  /\ forall k, List.filter (has_timestamp k) sorted = List.filter (has_timestamp k) messages.
Proof.
  intros Hsorted. split; [by apply sorted_by_timestamp_perm|].
  split; [by apply (sorted_by_timestamp_ascending messages)|].
  intros k. unfold sorted_by_timestamp in Hsorted. destruct messages as [|m [|m' ms]].
  - by injection Hsorted as <-.
  - by injection Hsorted as <-.
  - destruct (string_keys (m :: m' :: ms)) as [kms|] eqn:Hkeys; [|done].
    injection Hsorted as <-. rewrite <- (string_keys_snd _ _ Hkeys).
    apply string_keys_timestamps in Hkeys.
    rewrite (filter_has_timestamp k kms Hkeys). unfold stable_sort.
    rewrite filter_has_timestamp.
    + by rewrite sorted_pairs_filter.
    + clear -Hkeys. induction Hkeys as [|[k x] l Hk _ IH]; simpl; [constructor|].
      rewrite insert_by_key_perm. by constructor.
Qed.

(** ** The identifiers of the chunks *)

Lemma to_uint_not_nil (n : nat) : Nat.to_uint n <> Decimal.Nil.
Proof.
  pose proof (DecimalNat.Unsigned.to_of (Nat.to_uint n)) as Hn.
  rewrite DecimalNat.Unsigned.of_to in Hn. rewrite Hn.
  unfold Decimal.unorm. by destruct (Decimal.nzhead (Nat.to_uint n)).
Qed.

Lemma of_nat_inj (n m : nat) : PyStr.of_nat n = PyStr.of_nat m -> n = m.
Proof.
  unfold PyStr.of_nat. intros Heq. apply DecimalNat.Unsigned.to_uint_inj.
  apply (f_equal NilZero.uint_of_string) in Heq.
  rewrite !NilZero.usu in Heq by apply to_uint_not_nil. by injection Heq.
Qed.

(** The decimal form of a number has no dash. *)
Lemma of_nat_no_dash (n : nat) : PyStr.contains "-" (PyStr.of_nat n) = false.
Proof.
  unfold PyStr.of_nat, NilZero.string_of_uint.
  assert (forall d, PyStr.contains "-" (NilEmpty.string_of_uint d) = false) as Hdigits.
  { induction d as [|d IH|d IH|d IH|d IH|d IH|d IH|d IH|d IH|d IH|d IH];
      [done|..]; cbn [NilEmpty.string_of_uint]; by rewrite contains_char_cons, IH. }
  destruct (Nat.to_uint n) eqn:Hn; try (rewrite <- Hn; apply Hdigits). done.
Qed.

(** The part of an identifier after its last dash. *)
Lemma last_split_suffix (c : ascii) (x n : string) :
  PyStr.contains (String c EmptyString) n = false ->
  last (PyStr.split c (x +:+ String c n)) = Some n.
Proof.
  intros Hn. rewrite split_app, (split_without c n Hn). by rewrite last_snoc.
Qed.

Lemma indexed_inj (x y : string) (i j : nat) :
  x +:+ "-" +:+ PyStr.of_nat i = y +:+ "-" +:+ PyStr.of_nat j -> i = j.
Proof.
  intros Heq. apply of_nat_inj.
  assert (Some (PyStr.of_nat i) = Some (PyStr.of_nat j)) as [= ->]; [|done].
  rewrite <- (last_split_suffix "-" x (PyStr.of_nat i) (of_nat_no_dash i)).
  rewrite <- (last_split_suffix "-" y (PyStr.of_nat j) (of_nat_no_dash j)).
  change ("-" +:+ PyStr.of_nat i) with (String "-" (PyStr.of_nat i)) in Heq.
  change ("-" +:+ PyStr.of_nat j) with (String "-" (PyStr.of_nat j)) in Heq.
  by rewrite Heq.
Qed.

Section ChunkFields.

Context (fromisoformat : string -> option datetime) (now : clock)
        (TOPIC_KEYWORDS : list (string * list string)) (channel_id : string)
        (gap_minutes max_messages max_chars : Z).

Local Abbreviation chunkByConversation' :=
  (chunkByConversation fromisoformat now TOPIC_KEYWORDS channel_id
     gap_minutes max_messages max_chars).
Local Abbreviation createChunk' := (createChunk TOPIC_KEYWORDS).

(** X2.  The chunk of index [i] of a call has the identifier
    [{channel_id}-{date}-{i}], where the date is cut from the start time of
    the chunk, and no two chunks of a call have the same identifier. *)
Theorem chunkByConversation_chunk_ids (messages : list message) (chunks : list chunk) :
  chunkByConversation' messages = Ok chunks ->
  NoDup (map chunk_id chunks)
  /\ forall i c, chunks !! i = Some c ->
       md_timestamp (metadata c) = chunk_date (md_start_time (metadata c))
       /\ chunk_id c
          = channel_id +:+ "-" +:+ md_timestamp (metadata c) +:+ "-" +:+ PyStr.of_nat i.
Proof.
  intros Hrun.
  destruct (chunkByConversation_created _ _ _ _ _ _ _ _ _ Hrun)
    as (sorted & groups & _ & _ & _ & _ & Hat).
  assert (forall i c, chunks !! i = Some c ->
            md_timestamp (metadata c) = chunk_date (md_start_time (metadata c))
            /\ chunk_id c
               = channel_id +:+ "-" +:+ md_timestamp (metadata c) +:+ "-" +:+ PyStr.of_nat i)
    as Hid.
  { intros i c Hc. rewrite Hat in Hc. destruct (groups !! i) as [grp|]; [|done].
    simpl in Hc. apply createChunk_fields in Hc
      as (first & final & _ & _ & Hid & _ & Hdate & _ & _ & Hstart & _).
    by rewrite Hdate, Hstart. }
  split; [|done].
  apply NoDup_alt. intros i j x Hi Hj.
  rewrite list_lookup_fmap in Hi, Hj.
  destruct (chunks !! i) as [ci|] eqn:Hci; [|done].
  destruct (chunks !! j) as [cj|] eqn:Hcj; [|done].
  simpl in Hi, Hj. injection Hi as Hi. injection Hj as Hj.
  rewrite (proj2 (Hid _ _ Hci)) in Hi. rewrite (proj2 (Hid _ _ Hcj)) in Hj.
  rewrite <- Hj in Hi.
  apply (indexed_inj (channel_id +:+ "-" +:+ md_timestamp (metadata ci))
           (channel_id +:+ "-" +:+ md_timestamp (metadata cj))).
  by rewrite !string_app_assoc.
Qed.


(** X3.  The topics of a chunk are never empty and its primary topic is one
    of them; the primary topic is [general] only when every topic is. *)
Theorem chunkByConversation_topics (messages : list message) (chunks : list chunk)
    (c : chunk) :
  chunkByConversation' messages = Ok chunks ->
  c ∈ chunks ->
  md_topics (metadata c) = detectTopics TOPIC_KEYWORDS (chunk_text c)
  /\ md_topics (metadata c) <> []
  /\ md_primary_topic (metadata c) ∈ md_topics (metadata c)
  /\ (md_primary_topic (metadata c) = "general"
      <-> Forall (fun topic => topic = "general") (md_topics (metadata c))).
Proof.
  intros Hrun Hc.
  destruct (chunkByConversation_created _ _ _ _ _ _ _ _ _ Hrun)
    as (sorted & groups & _ & _ & _ & _ & Hat).
  apply list_elem_of_lookup in Hc as [i Hc]. rewrite Hat in Hc.
  destruct (groups !! i) as [grp|]; [|done]. simpl in Hc.
  apply createChunk_fields in Hc as (_ & _ & _ & _ & _ & _ & _ & Htopics & Hprimary & _).
  rewrite Hprimary. split; [done|].
  assert (md_topics (metadata c) <> []) as Hne.
  { rewrite Htopics. apply detectTopics_nonempty. }
  split; [done|]. split.
  - by apply getPrimaryTopic_elem.
  - apply getPrimaryTopic_general.
Qed.

(** X4.  The start time of a chunk is not after its end time, and the end
    time of a chunk is not after the start time of the next one, in the
    order of strings. *)
Theorem chunkByConversation_chronological (messages : list message) (chunks : list chunk) :
  chunkByConversation' messages = Ok chunks ->
  (forall c, c ∈ chunks ->
     String.leb (md_start_time (metadata c)) (md_end_time (metadata c)) = true)
  /\ (forall i c c', chunks !! i = Some c -> chunks !! S i = Some c' ->
        String.leb (md_end_time (metadata c)) (md_start_time (metadata c')) = true).
Proof.
  intros Hrun.
  destruct (chunkByConversation_created _ _ _ _ _ _ _ _ _ Hrun)
    as (sorted & groups & Hsorted & Hconcat & _ & _ & Hat).
  apply sorted_by_timestamp_ascending in Hsorted. subst sorted.
  assert (forall i c, chunks !! i = Some c ->
            exists grp first final,
              groups !! i = Some grp /\ head grp = Some first /\ last grp = Some final
              /\ md_start_time (metadata c) = timestamp_str first
              /\ md_end_time (metadata c) = timestamp_str final) as Hends.
  { intros i c Hc. rewrite Hat in Hc. destruct (groups !! i) as [grp|] eqn:Hgrp; [|done].
    simpl in Hc. apply createChunk_fields in Hc
      as (first & final & Hfirst & Hfinal & _ & _ & _ & _ & _ & Hstart & Hend & _).
    by exists grp, first, final. }
  split.
  - intros c Hc. apply list_elem_of_lookup in Hc as [i Hc].
    destruct (Hends _ _ Hc) as (grp & first & final & Hgrp & Hfirst & Hfinal & -> & ->).
    rewrite <- (take_drop_middle _ _ _ Hgrp), concat_app, concat_cons in Hsorted.
    apply strongly_sorted_app in Hsorted as (_ & Hsorted & _).
    apply strongly_sorted_app in Hsorted as (Hsorted & _ & _).
    destruct grp as [|x grp]; [done|]. injection Hfirst as ->.
    apply StronglySorted_inv in Hsorted as [_ Hall].
    rewrite last_cons in Hfinal. destruct (last grp) as [y|] eqn:Hlast.
    + injection Hfinal as ->. rewrite Forall_forall in Hall. apply Hall.
      apply last_Some in Hlast as [l' ->]. apply elem_of_app. right. by left.
    + injection Hfinal as ->. apply leb_refl.
  - intros i c c' Hc Hc'.
    destruct (Hends _ _ Hc) as (grp & first & final & Hgrp & Hfirst & Hfinal & _ & ->).
    destruct (Hends _ _ Hc') as (grp' & first' & final' & Hgrp' & Hfirst' & Hfinal' & -> & _).
    rewrite <- (take_drop_middle _ _ _ Hgrp), concat_app, concat_cons in Hsorted.
    apply strongly_sorted_app in Hsorted as (_ & Hsorted & _).
    assert (drop (S i) groups = grp' :: drop (S (S i)) groups) as Hdrop.
    { by apply drop_S. }
    rewrite Hdrop, concat_cons in Hsorted.
    apply strongly_sorted_app in Hsorted as (_ & _ & Hle).
    apply Hle.
    + apply last_Some in Hfinal as [l' ->]. apply elem_of_app. right. by left.
    + apply elem_of_app. left. destruct grp'; [done|]. injection Hfirst' as ->. by left.
Qed.

(** X5.  The metadata keeps the first 2000 characters of the text of the
    chunk: the whole text when it is not longer, never more. *)
Theorem chunkByConversation_chunk_text (messages : list message) (chunks : list chunk)
    (c : chunk) :
  chunkByConversation' messages = Ok chunks ->
  c ∈ chunks ->
  String.prefix (md_chunk_text (metadata c)) (chunk_text c) = true
  /\ String.length (md_chunk_text (metadata c))
     = Nat.min 2000 (String.length (chunk_text c))
  /\ ((String.length (chunk_text c) <= 2000)%nat ->
      md_chunk_text (metadata c) = chunk_text c).
Proof.
  intros Hrun Hc.
  destruct (chunkByConversation_created _ _ _ _ _ _ _ _ _ Hrun)
    as (sorted & groups & _ & _ & _ & _ & Hat).
  apply list_elem_of_lookup in Hc as [i Hc]. rewrite Hat in Hc.
  destruct (groups !! i) as [grp|]; [|done]. simpl in Hc.
  apply createChunk_fields in Hc
    as (_ & _ & _ & _ & _ & _ & _ & _ & _ & _ & _ & _ & Hcap).
  rewrite Hcap. split_and!.
  - apply take_prefix.
  - apply length_take_string.
  - apply take_all.
Qed.

End ChunkFields.

(** ** The forms of a timestamp *)

Section Timestamps.

Context (fromisoformat : string -> option datetime) (now : clock).

(** X6.  A timestamp with a fraction of a second is read as the part before
    its first dot at the offset [+00:00], whatever follows the dot; a
    timestamp that ends in [Z] is read at the offset [+00:00]. *)
Theorem parseTimestamp_forms (s rest : string) (n : nat) :
  PyStr.contains "." s = false ->
  parseTimestamp fromisoformat now (Some (s +:+ "." +:+ rest)) n
  = parseTimestamp fromisoformat now (Some (s +:+ "+00:00")) n
  /\ parseTimestamp fromisoformat now (Some (s +:+ "Z")) n
     = parseTimestamp fromisoformat now (Some (s +:+ "+00:00")) n.
Proof.
  intros Hs.
  assert (PyStr.contains "." (PyStr.replace_char "Z" "+00:00" s) = false) as Hr.
  { by apply replace_char_keeps_without. }
  assert (parseTimestamp fromisoformat now (Some (s +:+ "+00:00")) n
          = match fromisoformat (PyStr.replace_char "Z" "+00:00" s +:+ "+00:00") with
            | Some d => (d, n)
            | None => (mkDatetime (now n) None, S n)
            end) as Hutc.
  { unfold parseTimestamp. rewrite replace_char_app.
    rewrite (replace_char_without "Z" "+00:00" "+00:00") by done.
    rewrite contains_char_app, Hr. done. }
  rewrite Hutc. split.
  - unfold parseTimestamp. rewrite replace_char_app.
    change ("." +:+ rest) with (String "." rest).
    change (PyStr.replace_char "Z" "+00:00" (String "." rest))
      with (String "." (PyStr.replace_char "Z" "+00:00" rest)).
    rewrite contains_char_app, contains_char_cons. simpl (Ascii.eqb _ _).
    rewrite orb_true_r. rewrite split_head_app by done. done.
  - unfold parseTimestamp. rewrite replace_char_app.
    change (PyStr.replace_char "Z" "+00:00" "Z") with "+00:00".
    rewrite contains_char_app, Hr. done.
Qed.

End Timestamps.

(** ** Limits that leave no room *)

Section Degenerate.

Context (fromisoformat : string -> option datetime) (now : clock)
        (TOPIC_KEYWORDS : list (string * list string)) (channel_id : string)
        (gap_minutes max_messages max_chars : Z).

Local Abbreviation chunkByConversation' :=
  (chunkByConversation fromisoformat now TOPIC_KEYWORDS channel_id
     gap_minutes max_messages max_chars).
Local Abbreviation seg_step' := (seg_step fromisoformat now gap_minutes max_messages max_chars).
Local Abbreviation seg_loop' := (seg_loop fromisoformat now gap_minutes max_messages max_chars).
Local Abbreviation segments' := (segments fromisoformat now gap_minutes max_messages max_chars).
Local Abbreviation singles :=
  (fun g : seg_state =>
     Forall (fun grp : list stamped => length grp = 1%nat) (seg_done g)
     /\ (length (seg_open g) <= 1)%nat).

Lemma should_split_full (open : list message) (chars : nat) (gap : option Z) (msg : message) :
  max_messages <= Z.of_nat (length open) ->
  should_split gap_minutes max_messages max_chars open chars gap msg = true.
Proof.
  intros Hfull. unfold should_split.
  rewrite (proj2 (Z.leb_le _ _) Hfull). by rewrite orb_true_r.
Qed.

Lemma seg_step_singles (g g' : seg_state) (msg : message) :
  max_messages <= 1 -> seg_step' g msg = Ok g' -> singles g -> singles g'.
Proof.
  intros Hmax Hstep [Hdone Hopen]. unfold seg_step in Hstep.
  destruct (parseTimestamp fromisoformat now (timestamp msg) (seg_ticks g)) as [ts n'].
  destruct (elapsed ts (st_ts <$> last (seg_open g))) as [gap|e]; [|done].
  cbn [mbind result_bind] in Hstep.
  destruct (seg_open g) as [|s open] eqn:Hg.
  - rewrite bool_decide_eq_true_2 in Hstep by done. rewrite andb_false_r in Hstep.
    injection Hstep as <-. simpl. split; [done | lia].
  - assert (open = []) as -> by (destruct open; simpl in Hopen; [done | lia]).
    rewrite should_split_full in Hstep by (simpl; lia).
    rewrite bool_decide_eq_false_2 in Hstep by done.
    injection Hstep as <-. simpl. split; [|lia].
    apply Forall_app. split; [done|]. by constructor.
Qed.

Lemma seg_loop_singles (msgs : list message) (g g' : seg_state) :
  max_messages <= 1 -> seg_loop' g msgs = Ok g' -> singles g -> singles g'.
Proof.
  intros Hmax. revert g. induction msgs as [|msg msgs IH]; simpl; intros g Hloop Hg.
  - by injection Hloop as <-.
  - destruct (seg_step' g msg) as [g1|e] eqn:Hstep; [|done].
    cbn [mbind result_bind] in Hloop. eapply IH; [done|]. by eapply seg_step_singles.
Qed.

(** X7.  With [max_messages] at most 1, zero and negative numbers
    included, every chunk holds exactly one message. *)
Theorem chunkByConversation_one_message_chunks (messages : list message)
    (chunks : list chunk) :
  max_messages <= 1 ->
  chunkByConversation' messages = Ok chunks ->
  length chunks = length messages
  /\ forall c, c ∈ chunks -> message_count c = 1%nat.
Proof.
  intros Hmax Hrun. rewrite segments_chunks in Hrun.
  destruct (segments' messages) as [groups|e] eqn:Hseg; [|done].
  injection Hrun as <-.
  destruct (segments_spec _ _ _ _ _ _ _ Hseg) as (_ & Hne & _ & Hsorted).
  pose proof (chunks_of_holds TOPIC_KEYWORDS channel_id groups Hne) as Hholds.
  assert (Forall (fun grp : list stamped => length grp = 1%nat) groups) as Hone.
  { unfold segments in Hseg.
    destruct (sorted_by_timestamp messages) as [sorted|e]; [|done].
    cbn [mbind result_bind] in Hseg.
    destruct (seg_loop' (mkSeg [] [] 0) sorted) as [g|e] eqn:Hloop; [|done].
    cbn [mbind result_bind] in Hseg. injection Hseg as <-.
    destruct (seg_loop_singles _ _ _ Hmax Hloop) as [Hdone Hopen]; [by split; simpl; [|lia]|].
    unfold seg_close. destruct (seg_open g) as [|s open] eqn:Hg; [done|].
    apply Forall_app. split; [done|]. constructor; [|done].
    destruct open; simpl in *; [done | lia]. }
  assert (forall c, c ∈ chunks_of TOPIC_KEYWORDS channel_id groups -> message_count c = 1%nat)
    as Hcount.
  { intros c Hc. apply list_elem_of_lookup in Hc as [i Hc].
    destruct (Forall2_lookup_l _ _ _ _ _ Hholds Hc) as (grp & Hgrp & _ & Hlen).
    unfold message_count. rewrite Hlen.
    rewrite Forall_forall in Hone. apply Hone. by eapply list_elem_of_lookup_2. }
  split; [|done].
  rewrite (Forall2_length _ _ _ Hholds).
  apply sorted_by_timestamp_perm in Hsorted. rewrite <- Hsorted, length_map.
  clear -Hone. induction Hone as [|grp groups Hgrp _ IH]; simpl; [done|].
  rewrite length_app, Hgrp, <- IH. done.
Qed.

(** ** Messages without a timestamp *)

Lemma string_keys_None (messages : list message) (m : message) :
  m ∈ messages -> timestamp m = None -> string_keys messages = None.
Proof.
  intros Hm Hnone. induction messages as [|x messages IH]; [by apply elem_of_nil in Hm|].
  simpl. apply elem_of_cons in Hm as [<-|Hm].
  - by rewrite Hnone.
  - rewrite (IH Hm). by destruct (timestamp x).
Qed.

(** X8.  One message gives one chunk whatever its timestamp is.  With two
    messages or more, a message whose timestamp is [None] makes the call
    raise [TypeError]. *)
Theorem chunkByConversation_missing_timestamp :
  (forall m, exists c,
     chunkByConversation' [m] = Ok [c]
     /\ createChunk TOPIC_KEYWORDS [m] channel_id 0 = Some c)
  /\ (forall messages m,
        (2 <= length messages)%nat -> m ∈ messages -> timestamp m = None ->
        chunkByConversation' messages = Raise TypeError).
Proof.
  split.
  - intros m. destruct (createChunk_is_Some TOPIC_KEYWORDS channel_id [m] 0) as [c Hc]; [done|].
    exists c. split; [|done].
    unfold chunkByConversation, sorted_by_timestamp. cbn [mbind result_bind chunk_loop].
    unfold chunk_step. cbn [ticks last_timestamp current_chunk current_chars].
    destruct (parseTimestamp fromisoformat now (timestamp m) 0) as [ts n'].
    cbn [elapsed mbind result_bind]. rewrite bool_decide_eq_true_2 by done.
    rewrite andb_false_r. cbn [current_chunk chunks chunk_index app].
    by rewrite Hc.
  - intros messages m Hlen Hm Hnone.
    unfold chunkByConversation, sorted_by_timestamp.
    destruct messages as [|m1 [|m2 ms]]; simpl in Hlen; [lia | lia |].
    by rewrite (string_keys_None _ _ Hm Hnone).
Qed.

End Degenerate.

(** ** The keyword configuration *)

Example keywords_loaded_value : topic_keywords keywords_loaded = TOPIC_KEYWORDS_initial.
Proof. by vm_compute. Qed.

(** The topics that [detectTopics] finds before it falls back on
    [general]. *)
Local Abbreviation detected TOPICS text :=
  (map fst (List.filter
     (fun tk : string * list string =>
        existsb (fun keyword => PyStr.contains keyword (PyStr.lower text)) (snd tk))
     TOPICS)).

Lemma detectTopics_detected (TOPICS : list (string * list string)) (text : string) :
  detectTopics TOPICS text
  = match detected TOPICS text with [] => ["general"] | _ => detected TOPICS text end.
Proof. done. Qed.

Lemma detected_elem (TOPICS : list (string * list string)) (text topic : string) :
  topic ∈ detected TOPICS text
  <-> exists keywords keyword,
        (topic, keywords) ∈ TOPICS /\ keyword ∈ keywords
        /\ PyStr.contains keyword (PyStr.lower text) = true.
Proof.
  rewrite list_elem_of_fmap. split.
  - intros ([t kws] & -> & Hin). apply list_elem_of_In, List.filter_In in Hin as [Hin Hex].
    apply existsb_exists in Hex as (kw & Hkw & Hc). simpl in *.
    exists kws, kw. by rewrite !list_elem_of_In.
  - intros (kws & kw & Hin & Hkw & Hc). exists (topic, kws). split; [done|].
    apply list_elem_of_In, List.filter_In. split; [by apply list_elem_of_In|].
    apply existsb_exists. exists kw. by rewrite <- list_elem_of_In.
Qed.

Lemma detectTopics_elem (TOPICS : list (string * list string)) (text topic : string) :
  topic ∈ detected TOPICS text -> topic ∈ detectTopics TOPICS text.
Proof.
  intros Hin. rewrite detectTopics_detected.
  destruct (detected TOPICS text); [by apply elem_of_nil in Hin | done].
Qed.

Lemma dict_get_Some {A} (key : string) (d : list (string * A)) (v : A) :
  dict_get key d = Some v -> (key, v) ∈ d.
Proof.
  induction d as [|[k x] d IH]; simpl; [done|].
  destruct (String.eqb_spec k key) as [->|_].
  - intros [= ->]. by left.
  - intros Hget. right. by apply IH.
Qed.

Lemma dict_get_None {A} (key : string) (d : list (string * A)) (v : A) :
  dict_get key d = None -> (key, v) ∉ d.
Proof.
  induction d as [|[k x] d IH]; simpl; intros Hget Hin; [by apply elem_of_nil in Hin|].
  destruct (String.eqb_spec k key) as [->|Hne]; [done|].
  apply elem_of_cons in Hin as [[= <- <-]|Hin]; [done | by apply IH].
Qed.

(** What the lists hold after [addTopicKeywords]: every list keeps its
    keywords, in front. *)
Lemma addTopicKeywords_extends (topic : string) (keywords : nat) (st : keyword_config)
    (address : nat) :
  exists more,
    keywords_at (addTopicKeywords topic keywords st) address
    = keywords_at st address ++ more.
Proof.
  unfold addTopicKeywords. destruct (dict_get topic (kw_TOPIC_KEYWORDS st)) as [a|].
  - unfold keywords_at at 1. simpl. destruct (decide (a = address)) as [->|Hne].
    + rewrite lookup_insert_eq. by eexists.
    + rewrite lookup_insert_ne by done. exists []. by rewrite app_nil_r.
  - exists []. by rewrite app_nil_r.
Qed.

Lemma addTopicKeywords_items (topic : string) (keywords : nat) (st : keyword_config) :
  exists more,
    kw_TOPIC_KEYWORDS (addTopicKeywords topic keywords st) = kw_TOPIC_KEYWORDS st ++ more.
Proof.
  unfold addTopicKeywords. destruct (dict_get topic (kw_TOPIC_KEYWORDS st)) as [a|]; simpl.
  - exists []. by rewrite app_nil_r.
  - by eexists.
Qed.

(** X9.  After [addTopicKeywords topic keywords], a text that contains one
    of the keywords, as it is written, once the text is put in lower case,
    has the topic among its topics. *)
Theorem addTopicKeywords_detects (topic : string) (keywords : nat) (st : keyword_config)
    (keyword text : string) :
  keyword ∈ keywords_at st keywords ->
  PyStr.contains keyword (PyStr.lower text) = true ->
  topic ∈ detectTopics (topic_keywords (addTopicKeywords topic keywords st)) text.
Proof.
  intros Hkw Hc. apply detectTopics_elem, detected_elem.
  unfold topic_keywords, items_in, addTopicKeywords.
  destruct (dict_get topic (kw_TOPIC_KEYWORDS st)) as [a|] eqn:Hget; simpl.
  - exists (keywords_at st a ++ keywords_at st keywords), keyword.
    split_and!; [|apply elem_of_app; by right | done].
    apply list_elem_of_fmap. exists (topic, a). split; [|by apply dict_get_Some].
    simpl. unfold keywords_at at 3. simpl. by rewrite lookup_insert_eq.
  - exists (keywords_at st keywords), keyword. split_and!; try done.
    apply list_elem_of_fmap. exists (topic, keywords). split; [done|].
    apply elem_of_app. right. by left.
Qed.

Lemma detected_grows (topic : string) (keywords : nat) (st : keyword_config)
    (text t : string) :
  t ∈ detected (topic_keywords st) text ->
  t ∈ detected (topic_keywords (addTopicKeywords topic keywords st)) text.
Proof.
  rewrite !detected_elem. intros (kws & kw & Hin & Hkw & Hc).
  unfold topic_keywords, items_in in Hin.
  apply list_elem_of_fmap in Hin as ([t' a] & [= -> ->] & Hin). simpl in *.
  destruct (addTopicKeywords_extends topic keywords st a) as [more Hmore].
  destruct (addTopicKeywords_items topic keywords st) as [items Hitems].
  exists (keywords_at st a ++ more), kw. split_and!; [|apply elem_of_app; by left | done].
  unfold topic_keywords, items_in. apply list_elem_of_fmap. exists (t', a).
  split; [simpl; by rewrite Hmore|]. rewrite Hitems. apply elem_of_app. by left.
Qed.

(** X10.  [addTopicKeywords] takes no topic away from a text that had
    topics. *)
Theorem addTopicKeywords_keeps_topics (topic : string) (keywords : nat)
    (st : keyword_config) (text t : string) :
  detectTopics (topic_keywords st) text <> ["general"] ->
  t ∈ detectTopics (topic_keywords st) text ->
  t ∈ detectTopics (topic_keywords (addTopicKeywords topic keywords st)) text.
Proof.
  intros Hne Ht. rewrite detectTopics_detected in Hne, Ht.
  destruct (detected (topic_keywords st) text) as [|t0 ts] eqn:Hdetected; [done|].
  apply detectTopics_elem, detected_grows. by rewrite Hdetected.
Qed.

Lemma detected_app (A B : list (string * list string)) (text : string) :
  detected (A ++ B) text = detected A text ++ detected B text.
Proof. by rewrite List.filter_app, map_app. Qed.

(** X11.  A new topic goes after the topics there are: a text that has a
    primary topic keeps it when a topic is added. *)
Theorem addTopicKeywords_keeps_primary (topic : string) (keywords : nat)
    (st : keyword_config) (text : string) :
  dict_get topic (kw_TOPIC_KEYWORDS st) = None ->
  getPrimaryTopic (detectTopics (topic_keywords st) text) <> "general" ->
  getPrimaryTopic (detectTopics (topic_keywords (addTopicKeywords topic keywords st)) text)
  = getPrimaryTopic (detectTopics (topic_keywords st) text).
Proof.
  intros Hnew Hprimary.
  assert (topic_keywords (addTopicKeywords topic keywords st)
          = topic_keywords st ++ [(topic, keywords_at st keywords)]) as ->.
  { unfold topic_keywords, items_in, addTopicKeywords. rewrite Hnew. simpl.
    by rewrite map_app. }
  rewrite !detectTopics_detected, detected_app in *.
  destruct (detected (topic_keywords st) text) as [|t ts] eqn:Hdetected; [done|].
  generalize (detected [(topic, keywords_at st keywords)] text). intros extra.
  change (getPrimaryTopic ((t :: ts) ++ extra) = getPrimaryTopic (t :: ts)).
  unfold getPrimaryTopic in *. rewrite List.filter_app.
  by destruct (List.filter _ (t :: ts)).
Qed.

Lemma dict_get_app {A} (key : string) (d1 d2 : list (string * A)) :
  dict_get key (d1 ++ d2)
  = match dict_get key d1 with Some v => Some v | None => dict_get key d2 end.
Proof.
  induction d1 as [|[k v] d1 IH]; simpl; [done|]. by destruct (String.eqb k key).
Qed.

Lemma dict_get_items (st : keyword_config) (key : string) (d : list (string * nat)) :
  dict_get key (items_in st d) = keywords_at st <$> dict_get key d.
Proof.
  induction d as [|[k a] d IH]; simpl; [done|]. by destruct (String.eqb k key).
Qed.

(** X12.  The dictionary holds the lists themselves.  The list given for a
    new topic becomes the list of the topic, so that adding keywords to the
    topic later extends the list of the caller; and a dictionary that
    [getTopicKeywords] returned shows the keywords added later to its
    topics, though not the topics added later. *)
Theorem addTopicKeywords_shares_lists (st : keyword_config) :
  (forall topic given more,
     dict_get topic (kw_TOPIC_KEYWORDS st) = None ->
     dict_get topic (getTopicKeywords (addTopicKeywords topic given st)) = Some given
     /\ keywords_at (addTopicKeywords topic more (addTopicKeywords topic given st)) given
        = keywords_at st given ++ keywords_at st more)
  /\ (forall topic address more,
        dict_get topic (getTopicKeywords st) = Some address ->
        dict_get topic (items_in (addTopicKeywords topic more st) (getTopicKeywords st))
        = Some (keywords_at st address ++ keywords_at st more))
  /\ (forall topic given,
        dict_get topic (getTopicKeywords st) = None ->
        dict_get topic (items_in (addTopicKeywords topic given st) (getTopicKeywords st))
        = None).
Proof.
  split_and!.
  - intros topic given more Hnew.
    assert (dict_get topic (kw_TOPIC_KEYWORDS (addTopicKeywords topic given st)) = Some given)
      as Hgiven.
    { unfold addTopicKeywords. rewrite Hnew. simpl. rewrite dict_get_app, Hnew.
      simpl. by rewrite String.eqb_refl. }
    split; [done|].
    unfold addTopicKeywords at 1. rewrite Hgiven.
    unfold keywords_at at 1. simpl. rewrite lookup_insert_eq. simpl.
    unfold addTopicKeywords, keywords_at. by rewrite Hnew.
  - intros topic address more Hget. unfold getTopicKeywords in *.
    rewrite dict_get_items, Hget. simpl. f_equal.
    unfold addTopicKeywords. rewrite Hget.
    unfold keywords_at at 1. simpl. by rewrite lookup_insert_eq.
  - intros topic given Hget. unfold getTopicKeywords in *.
    by rewrite dict_get_items, Hget.
Qed.

(** ** Keywords in upper case *)

Lemma lower_char_not_upper (c : ascii) : is_upper (PyStr.lower_char c) = false.
Proof.
  unfold PyStr.lower_char, is_upper.
  destruct ((65 <=? nat_of_ascii c) && (nat_of_ascii c <=? 90))%nat eqn:Hc; [|done].
  apply andb_true_iff in Hc as [H1%Nat.leb_le H2%Nat.leb_le].
  rewrite nat_ascii_embedding by lia.
  apply andb_false_iff. right. apply Nat.leb_gt. lia.
Qed.

Lemma lower_not_upper (s : string) (c : ascii) :
  In c (list_ascii_of_string (PyStr.lower s)) -> is_upper c = false.
Proof.
  induction s as [|a s IH]; simpl; [done|].
  intros [<-|Hin]; [apply lower_char_not_upper | by apply IH].
Qed.

Lemma prefix_chars (a b : string) (c : ascii) :
  String.prefix a b = true ->
  In c (list_ascii_of_string a) -> In c (list_ascii_of_string b).
Proof.
  revert b. induction a as [|x a IH]; intros [|y b]; simpl; try done.
  destruct (ascii_dec x y) as [->|_]; [|done].
  intros Hp [<-|Hin]; [by left | right; by apply IH].
Qed.

Lemma contains_chars (needle hay : string) (c : ascii) :
  PyStr.contains needle hay = true ->
  In c (list_ascii_of_string needle) -> In c (list_ascii_of_string hay).
Proof.
  induction hay as [|y hay IH]; cbn [PyStr.contains].
  - rewrite orb_false_r. apply prefix_chars.
  - intros [Hp|Hc]%orb_true_iff Hin; cbn [list_ascii_of_string].
    + by apply (prefix_chars needle (String y hay)).
    + right. by apply IH.
Qed.

(** X13.  The text is put in lower case and the keywords are not: a topic
    all of whose keywords have an upper-case letter is found in no text. *)
Theorem detectTopics_upper_case_keywords (TOPICS : list (string * list string))
    (topic text : string) :
  topic <> "general" ->
  (forall keywords keyword,
     (topic, keywords) ∈ TOPICS -> keyword ∈ keywords -> has_upper keyword = true) ->
  topic ∉ detectTopics TOPICS text.
Proof.
  intros Hgeneral Hupper Hin. rewrite detectTopics_detected in Hin.
  assert (topic ∈ detected TOPICS text) as Hdetected.
  { destruct (detected TOPICS text); [|done].
    by apply list_elem_of_singleton in Hin. }
  apply detected_elem in Hdetected as (kws & kw & Hkws & Hkw & Hc).
  pose proof (Hupper _ _ Hkws Hkw) as Hup. unfold has_upper in Hup.
  apply existsb_exists in Hup as (c & Hc1 & Hc2).
  by rewrite (lower_not_upper text c (contains_chars _ _ _ Hc Hc1)) in Hc2.
Qed.

(** * Further properties of the sync *)

(** ** The parameter of a project *)

Lemma string_app_inv_head (a x y : string) : a +:+ x = a +:+ y -> x = y.
Proof.
  induction a as [|c a IH]; [done|].
  change (String c (a +:+ x) = String c (a +:+ y) -> x = y). intros [= Heq]. by apply IH.
Qed.

Lemma string_app_length (a b : string) :
  String.length (a +:+ b) = (String.length a + String.length b)%nat.
Proof.
  induction a as [|c a IH]; [done|].
  change (S (String.length (a +:+ b)) = S (String.length a + String.length b)).
  by rewrite IH.
Qed.

Lemma string_app_inv_tail (x y s : string) : x +:+ s = y +:+ s -> x = y.
Proof.
  revert y. induction x as [|c x IH]; intros [|d y] Heq; [done|..].
  - apply (f_equal String.length) in Heq.
    rewrite !string_app_length in Heq. simpl in Heq. lia.
  - apply (f_equal String.length) in Heq.
    rewrite !string_app_length in Heq. simpl in Heq. lia.
  - change (String c (x +:+ s) = String d (y +:+ s)) in Heq.
    injection Heq as -> Heq. f_equal. by apply IH.
Qed.

(** Under one prefix, two projects have two parameters. *)
Lemma getSsmParameterName_inj (prefix p1 p2 : string) :
  getSsmParameterName prefix p1 = getSsmParameterName prefix p2 -> p1 = p2.
Proof.
  unfold getSsmParameterName. intros Heq.
  apply string_app_inv_head, string_app_inv_head in Heq.
  by apply string_app_inv_tail in Heq.
Qed.

Section StateManagement.

Context (env : environment).

(** X14.  The cursor read after it was set is the date that was set, when
    the write succeeded, and the cursor of before, when the write failed:
    [setLastProcessedDate] keeps a failure of the write to itself. *)
Theorem getLastProcessedDate_after_set (ssm_prefix project_id date_str : string)
    (w : world) :
  env_get_parameter_fails env
    (history (setLastProcessedDate env ssm_prefix project_id date_str w))
    (getSsmParameterName ssm_prefix project_id) = false ->
  fst (getLastProcessedDate env ssm_prefix project_id
         (setLastProcessedDate env ssm_prefix project_id date_str w))
  = match env_put_parameter env (history w)
            (getSsmParameterName ssm_prefix project_id) date_str with
    | None => Some date_str
    | Some _ => ssm_store w !! getSsmParameterName ssm_prefix project_id
    end.
Proof.
  intros Hread. unfold getLastProcessedDate. rewrite Hread. simpl.
  unfold setLastProcessedDate.
  destruct (env_put_parameter env (history w) _ date_str); simpl; [done|].
  by rewrite lookup_insert_eq.
Qed.

End StateManagement.

(** ** The parameters of the other projects *)

Lemma only_parameter_refl (name : string) (w : world) : only_parameter name w w.
Proof. by intros other _. Qed.

Lemma only_parameter_trans (name : string) (w1 w2 w3 : world) :
  only_parameter name w1 w2 -> only_parameter name w2 w3 -> only_parameter name w1 w3.
Proof. intros H12 H23 other Hother. by rewrite H23, H12. Qed.

Lemma only_parameter_same (name : string) (w w' : world) :
  ssm_store w' = ssm_store w -> only_parameter name w w'.
Proof. intros Hstore other _. by rewrite Hstore. Qed.

Section OtherProjects.

Context (env : environment) (cfg : config).

Local Abbreviation name := (parameter_name cfg).

Lemma setLastProcessedDate_only (d : string) (w : world) :
  only_parameter name w (setLastProcessedDate env (ssm_prefix cfg) (project_id cfg) d w).
Proof.
  destruct (setLastProcessedDate_spec env cfg d w) as (o & _ & Hstore).
  intros other Hother. rewrite Hstore. destruct o; [done|].
  by rewrite lookup_insert_ne.
Qed.

Lemma store_and_checkpoint_only (f : file_info) (w : world) (r : results)
    (vectors : list vector) :
  only_parameter name w (fst (store_and_checkpoint env cfg f w r vectors)).
Proof.
  unfold store_and_checkpoint. destruct vectors as [|v vs].
  - apply setLastProcessedDate_only.
  - destruct (storeVectorsBatch env (vector_bucket cfg) (index_name cfg) (v :: vs)
                (batch_size cfg) w) as [[w' sr]|e] eqn:Hstore; cbn [mbind result_bind fst].
    + eapply only_parameter_trans; [|apply setLastProcessedDate_only].
      apply only_parameter_same. by destruct (storeVectorsBatch_quiet env cfg _ _ _ _ Hstore).
    + apply only_parameter_refl.
Qed.

Lemma processFile_only (f : file_info) (w : world) (r : results) :
  only_parameter name w (fst (processFile env cfg f (w, r))).
Proof.
  unfold processFile. pose proof (prepare_file_quiet env cfg f w r) as Hquiet.
  destruct (prepare_file env cfg f (w, r)) as [w1 r1|w1 r1 e|w1 r1 vectors];
    destruct Hquiet as [Hstore _]; cbn [fst].
  - by apply only_parameter_same.
  - by apply only_parameter_same.
  - eapply only_parameter_trans; [by apply only_parameter_same|].
    apply store_and_checkpoint_only.
Qed.

Lemma process_loop_only (context : option (list event -> Z)) (files : list file_info)
    (st : world * results) :
  only_parameter name (fst st) (fst (process_loop env cfg context files st)).
Proof.
  revert st. induction files as [|f files IH]; intros [w r]; simpl.
  - apply only_parameter_refl.
  - destruct context as [remaining|].
    + destruct (remaining (history w) <? 30000).
      * by apply only_parameter_same.
      * eapply only_parameter_trans; [|apply IH].
        pose proof (processFile_only f (log (EvRemainingTime (remaining (history w))) w) r)
          as Hfile.
        destruct (processFile env cfg f _) as [w1 r1]. exact Hfile.
    + eapply only_parameter_trans; [|apply IH].
      pose proof (processFile_only f w r) as Hfile.
      by destruct (processFile env cfg f (w, r)) as [w1 r1].
Qed.

(** X15.  A run writes no parameter but the cursor of its project: the
    cursor of another project under the same prefix is after the run what
    it was before. *)
Theorem run_other_projects (context : option (list event -> Z))
    (pages : list (list s3_object)) (w : world) (other : config) :
  ssm_prefix other = ssm_prefix cfg ->
  project_id other <> project_id cfg ->
  cursor other (fst (run env cfg context pages w)) = cursor other w.
Proof.
  intros Hprefix Hproject. unfold cursor.
  assert (only_parameter name w (fst (run env cfg context pages w))) as Honly.
  { unfold run, getLastProcessedDate.
    set (w1 := log _ w).
    assert (only_parameter name w w1) as Hread by by apply only_parameter_same.
    destruct (env_get_parameter_fails env (history w) _).
    - destruct (getNewChatFiles pages None); [done|].
      eapply only_parameter_trans; [exact Hread|]. apply process_loop_only.
    - destruct (getNewChatFiles pages _); [done|].
      eapply only_parameter_trans; [exact Hread|]. apply process_loop_only. }
  apply Honly. unfold parameter_name. rewrite Hprefix.
  intros Heq. by apply getSsmParameterName_inj in Heq.
Qed.

End OtherProjects.

(** ** The names of the chat files *)

Lemma last_split_path (dir name : string) :
  PyStr.contains "/" name = false ->
  last (PyStr.split "/" (dir +:+ "/" +:+ name)) = Some name.
Proof. intros Hname. by apply (last_split_suffix "/" dir name). Qed.

(** The parts of [{room}_{date}_chat.json], for a date without underscore:
    the underscores of the room are not split at. *)
Lemma rsplit2_room_date (room date : string) :
  PyStr.contains "_" date = false ->
  PyStr.rsplit2 "_" (room +:+ "_" +:+ date +:+ "_chat.json") = [room; date; "chat.json"].
Proof.
  intros Hdate. unfold PyStr.rsplit2.
  change ("_" +:+ date +:+ "_chat.json") with (String "_" (date +:+ String "_" "chat.json")).
  rewrite !split_app, (split_without "_" date Hdate).
  change (PyStr.split "_" "chat.json") with ["chat.json"].
  pose proof (join_split "_" room) as Hjoin.
  pose proof (split_nonempty "_" room) as Hne.
  destruct (PyStr.split "_" room) as [|p ps] eqn:Hsplit; [done|].
  rewrite length_app. cbn [length app].
  destruct ps as [|q ps].
  - simpl in Hjoin. by subst p.
  - replace (S (length (q :: ps)) + 2 <=? 3)%nat with false
      by (symmetry; apply Nat.leb_gt; simpl; lia).
    replace (S (length (q :: ps)) + 2 - 2)%nat with (length (p :: q :: ps))
      by (simpl; lia).
    rewrite (app_comm_cons (q :: ps) _ p).
    rewrite firstn_app, firstn_all, Nat.sub_diag, firstn_O, app_nil_r.
    rewrite skipn_app, skipn_all, Nat.sub_diag, skipn_O. by rewrite Hjoin.
Qed.

Lemma rsplit2_stem (stem : string) :
  PyStr.contains "_" stem = false ->
  PyStr.rsplit2 "_" (stem +:+ "_chat.json") = [stem; "chat.json"].
Proof.
  intros Hstem. unfold PyStr.rsplit2.
  change (stem +:+ "_chat.json") with (stem +:+ String "_" "chat.json").
  rewrite split_app, (split_without "_" stem Hstem). done.
Qed.

Lemma contains_slash_name (a b : string) :
  PyStr.contains "/" a = false -> PyStr.contains "/" b = false ->
  PyStr.contains "/" (a +:+ "_" +:+ b +:+ "_chat.json") = false.
Proof. intros Ha Hb. by rewrite !contains_char_app, Ha, Hb. Qed.

(** X16.  An object named [{dir}/{room}_{date}_chat.json] is found with the
    room and the date of its name, whatever underscores the room has, and
    is left out when a cursor is given that is not before the date. *)
Theorem getNewChatFiles_room_and_date (dir room date : string) (modified : Z)
    (since_date : option string) :
  PyStr.contains "/" room = false ->
  PyStr.contains "/" date = false ->
  PyStr.contains "_" date = false ->
  getNewChatFiles
    [[mkObject (dir +:+ "/" +:+ room +:+ "_" +:+ date +:+ "_chat.json") modified]] since_date
  = if PyStr.truthy since_date && String.leb date (default "" since_date) then []
    else [ {| file_key := dir +:+ "/" +:+ room +:+ "_" +:+ date +:+ "_chat.json";
              file_room_id := room;
              file_date := date;
              file_last_modified := modified |} ].
Proof.
  intros Hroom Hdate Hunderscore.
  unfold getNewChatFiles. cbn [concat app omap list_omap].
  unfold file_of_object. cbn [obj_Key obj_LastModified].
  assert (PyStr.endswith (dir +:+ "/" +:+ room +:+ "_" +:+ date +:+ "_chat.json")
            "_chat.json" = true) as ->.
  { rewrite <- !string_app_assoc. apply endswith_app. }
  cbn [negb]. unfold file_parts.
  rewrite last_split_path by by apply contains_slash_name.
  cbn [default from_option id]. rewrite (rsplit2_room_date room date Hunderscore). cbn.
  by destruct (PyStr.truthy since_date && String.leb date (default "" since_date)).
Qed.

(** X17.  A name with one underscore only, [{stem}_chat.json], has no date
    part: the stem is taken both for the room and for the date. *)
Theorem getNewChatFiles_name_without_date (dir stem : string) (modified : Z) :
  PyStr.contains "/" stem = false ->
  PyStr.contains "_" stem = false ->
  getNewChatFiles [[mkObject (dir +:+ "/" +:+ stem +:+ "_chat.json") modified]] None
  = [ {| file_key := dir +:+ "/" +:+ stem +:+ "_chat.json";
         file_room_id := stem;
         file_date := stem;
         file_last_modified := modified |} ].
Proof.
  intros Hslash Hunderscore.
  unfold getNewChatFiles. cbn [concat app omap list_omap].
  unfold file_of_object. cbn [obj_Key obj_LastModified].
  assert (PyStr.endswith (dir +:+ "/" +:+ stem +:+ "_chat.json") "_chat.json" = true) as ->.
  { rewrite <- !string_app_assoc. apply endswith_app. }
  cbn [negb]. unfold file_parts.
  rewrite last_split_path by by rewrite contains_char_app, Hslash.
  cbn [default from_option id]. rewrite (rsplit2_stem stem Hunderscore). done.
Qed.

(** X18.  The files found are objects of the listing whose key ends in
    [_chat.json], in the order of the listing; with a cursor, they are
    among the files found without. *)
Theorem getNewChatFiles_listing (pages : list (list s3_object)) (since_date : option string) :
  sublist (map file_key (getNewChatFiles pages since_date)) (map obj_Key (concat pages))
  /\ sublist (getNewChatFiles pages since_date) (getNewChatFiles pages None)
  /\ forall f, f ∈ getNewChatFiles pages since_date ->
       PyStr.endswith (file_key f) "_chat.json" = true
       /\ mkObject (file_key f) (file_last_modified f) ∈ concat pages.
Proof.
  split_and!.
  - unfold getNewChatFiles. induction (concat pages) as [|obj objs IH]; simpl; [done|].
    destruct (file_of_object since_date obj) as [f|] eqn:Hfile; simpl.
    + assert (file_key f = obj_Key obj) as ->; [|by apply sublist_skip].
      unfold file_of_object in Hfile.
      destruct (negb _); [done|]. destruct (2 <=? _)%nat; [|done].
      destruct (_ && _); [done|]. by injection Hfile as <-.
    + by apply sublist_cons.
  - rewrite getNewChatFiles_since.
    induction (getNewChatFiles pages None) as [|f fs IH]; simpl; [done|].
    destruct (negb _); [by apply sublist_skip | by apply sublist_cons].
  - intros f Hf. unfold getNewChatFiles in Hf.
    apply list_elem_of_omap in Hf as (obj & Hobj & Hfile).
    unfold file_of_object in Hfile.
    destruct (PyStr.endswith (obj_Key obj) "_chat.json") eqn:Hends; [|done].
    cbn [negb] in Hfile. destruct (2 <=? _)%nat; [|done].
    destruct (_ && _); [done|]. injection Hfile as <-. cbn [file_key file_last_modified].
    split; [done|]. by destruct obj.
Qed.

(** ** The messages of a chat file *)

Section Loading.

Context (env : environment).

(** X19.  [loadAndTransformMessages] reads the object once and writes
    nothing; it returns the messages that have a text, in the order of the
    file, each with the room of the file, and no message when the object
    cannot be read. *)
Theorem loadAndTransformMessages_messages (bucket_name : string) (f : file_info)
    (w : world) :
  history (snd (loadAndTransformMessages env bucket_name f w))
  = history w ++ [EvGetObject bucket_name (file_key f)]
  /\ ssm_store (snd (loadAndTransformMessages env bucket_name f w)) = ssm_store w
  /\ Forall (fun m => text m <> "" /\ room_id m = file_room_id f)
       (fst (loadAndTransformMessages env bucket_name f w))
  /\ map text (fst (loadAndTransformMessages env bucket_name f w))
     = match env_get_object env (history w) bucket_name (file_key f) with
       | Some messages => texts_of messages
       | None => []
       end.
Proof.
  unfold loadAndTransformMessages.
  destruct (env_get_object env (history w) bucket_name (file_key f)) as [raw|];
    cbn [fst snd]; [|by split_and!].
  split_and!; try done.
  - induction raw as [|msg raw IH]; simpl; [constructor|].
    unfold transform at 1. destruct (raw_text msg) as [s|] eqn:Htext; simpl; [|done].
    destruct (String.eqb_spec s "") as [->|Hne]; simpl; [done|].
    by constructor.
  - unfold texts_of. induction raw as [|msg raw IH]; simpl; [done|].
    unfold transform at 1. destruct (raw_text msg) as [s|] eqn:Htext; simpl; [|done].
    destruct (String.eqb_spec s "") as [->|Hne]; simpl; [done|].
    f_equal. exact IH.
Qed.

End Loading.

(** ** Deduplicating twice *)

(** X20.  Deduplicating the messages once more changes nothing. *)
Theorem deduplicate_idempotent (seen_ids : gset string) (messages : list message) :
  deduplicate seen_ids (deduplicate seen_ids messages) = deduplicate seen_ids messages.
Proof.
  revert seen_ids. induction messages as [|msg messages IH]; intros seen_ids; [done|].
  cbn [deduplicate].
  destruct (PyStr.truthy (message_id msg)
            && negb (bool_decide (default "" (message_id msg) ∈ seen_ids))) eqn:Hnew.
  - cbn [deduplicate]. by rewrite Hnew, IH.
  - destruct (negb (PyStr.truthy (message_id msg))) eqn:Hnone; [|done].
    cbn [deduplicate]. by rewrite Hnew, Hnone, IH.
Qed.

(** ** The vectors of a file *)

Lemma prepare_vectors_acc (cfg : config) (f : file_info)
    (pairs : list (chunk * option emb_result)) (es0 es : list error_entry)
    (vs0 vs : list vector) :
  prepare_vectors cfg f pairs (es0, vs0) = (es, Ok vs) ->
  es = es0 ++ map (chunk_error f) (List.filter embedding_failed pairs)
  /\ vs = vs0 ++ map (vector_of cfg)
                   (List.filter (fun p => negb (embedding_failed p)) pairs).
Proof.
  revert es0 vs0. induction pairs as [|[c [emb_result|]] pairs IH]; intros es0 vs0;
    cbn [prepare_vectors fst snd].
  - intros [= <- <-]. by rewrite !app_nil_r.
  - cbn [List.filter].
    change (embedding_failed (c, Some emb_result))
      with (PyStr.truthy (er_error emb_result)).
    destruct (PyStr.truthy (er_error emb_result)); intros Hrest; cbn [negb];
      apply IH in Hrest as [-> ->]; by rewrite <- !app_assoc.
  - done.
Qed.

Lemma filter_partition_length {A} (p : A -> bool) (l : list A) :
  (length (List.filter p l) + length (List.filter (fun x => negb (p x)) l) = length l)%nat.
Proof. induction l as [|x l IH]; simpl; [done|]. destruct (p x); simpl; lia. Qed.

(** X21.  Of the chunks of a file, those whose embedding failed with a
    message give an error each, the others a vector each, in order and with
    the identifier of the chunk as key: no chunk is left out. *)
Theorem prepare_vectors_partition (cfg : config) (f : file_info)
    (pairs : list (chunk * option emb_result)) (es : list error_entry) (vs : list vector) :
  prepare_vectors cfg f pairs ([], []) = (es, Ok vs) ->
  es = map (chunk_error f) (List.filter embedding_failed pairs)
  /\ vs = map (vector_of cfg) (List.filter (fun p => negb (embedding_failed p)) pairs)
  /\ (length es + length vs = length pairs)%nat.
Proof.
  intros Hrun. apply prepare_vectors_acc in Hrun as [-> ->]. cbn [app].
  split_and!; try done. rewrite !length_map. apply filter_partition_length.
Qed.

(** ** The metadata that is stored *)

Section StoredMetadata.

Context (fromisoformat : string -> option datetime) (now : clock)
        (TOPIC_KEYWORDS : list (string * list string)) (channel_id : string)
        (gap_minutes max_messages max_chars : Z) (cfg : config).

Local Abbreviation chunkByConversation' :=
  (chunkByConversation fromisoformat now TOPIC_KEYWORDS channel_id
     gap_minutes max_messages max_chars).

(** X22.  The metadata stored with the vector of a chunk has the fourteen
    names below, in this order: the three names that [createChunk] sets to
    [None] are never stored, the project and the source always are. *)
Theorem chunkByConversation_stored_metadata (messages : list message)
    (chunks : list chunk) (c : chunk) :
  chunkByConversation' messages = Ok chunks ->
  c ∈ chunks ->
  map fst (sanitized_metadata cfg c) = stored_metadata_keys
  /\ dict_get "project_id" (sanitized_metadata cfg c) = Some (MdStr (project_id cfg))
  /\ dict_get "source" (sanitized_metadata cfg c) = Some (MdStr "webex")
  /\ dict_get "channel_id" (sanitized_metadata cfg c) = Some (MdStr channel_id)
  /\ dict_get "is_verified" (sanitized_metadata cfg c) = Some (MdBool false).
Proof.
  intros Hrun Hc.
  destruct (chunkByConversation_created _ _ _ _ _ _ _ _ _ Hrun)
    as (sorted & groups & _ & _ & _ & _ & Hat).
  apply list_elem_of_lookup in Hc as [i Hc]. rewrite Hat in Hc.
  destruct (groups !! i) as [grp|]; [|done]. simpl in Hc.
  unfold createChunk in Hc. destruct grp as [|first grp]; [done|].
  destruct (last (first :: grp)) as [final|]; [|done].
  injection Hc as <-. by split_and!.
Qed.

End StoredMetadata.

(** ** A batch size that is not positive *)

Section Counts.

Context (env : environment) (cfg : config).

Local Abbreviation name := (parameter_name cfg).

(** X23.  With a batch size of zero the writer raises [ValueError] before
    any call: the file gets an error and the cursor is not set.  With a
    negative batch size the writer makes no call and reports no error: the
    file is counted as processed and the cursor is set, with no vector
    stored. *)
Theorem store_and_checkpoint_batch_size_not_positive (f : file_info) (w : world)
    (r : results) (vectors : list vector) :
  batch_size cfg <= 0 ->
  vectors <> [] ->
  storeVectorsBatch env (vector_bucket cfg) (index_name cfg) vectors (batch_size cfg) w
  = (if batch_size cfg =? 0 then Raise ValueError else Ok (w, mkStore 0 None))
  /\ store_and_checkpoint env cfg f w r vectors
     = if batch_size cfg =? 0 then (w, file_error f ValueError r)
       else (setLastProcessedDate env (ssm_prefix cfg) (project_id cfg) (file_date f) w,
             {| files_processed := S (files_processed r);
                vectors_stored := vectors_stored r;
                errors := errors r |}).
Proof.
  intros Hsize Hne.
  assert (storeVectorsBatch env (vector_bucket cfg) (index_name cfg) vectors
            (batch_size cfg) w
          = if batch_size cfg =? 0 then Raise ValueError else Ok (w, mkStore 0 None))
    as Hstore.
  { unfold storeVectorsBatch, range_step.
    destruct (Z.eqb_spec (batch_size cfg) 0) as [_|Hnz]; [done|].
    by rewrite (proj2 (Z.ltb_lt (batch_size cfg) 0)) by lia. }
  split; [done|].
  unfold store_and_checkpoint. destruct vectors as [|v vs]; [done|].
  rewrite Hstore. destruct (batch_size cfg =? 0); [done|].
  cbn [mbind result_bind stored store_errors default from_option].
  by rewrite Nat.add_0_r, app_nil_r.
Qed.

(** ** The counters of a run *)

Lemma checkpoint_calls_app (h1 h2 : list event) :
  checkpoint_calls (h1 ++ h2) = (checkpoint_calls h1 + checkpoint_calls h2)%nat.
Proof. unfold checkpoint_calls. by rewrite List.filter_app, length_app. Qed.

Lemma vectors_written_app (h1 h2 : list event) :
  vectors_written (h1 ++ h2) = (vectors_written h1 + vectors_written h2)%nat.
Proof. unfold vectors_written. by rewrite omap_app, sum_nat_app. Qed.

Lemma put_outcomes_app (h1 h2 : list event) :
  put_outcomes (h1 ++ h2) = put_outcomes h1 ++ put_outcomes h2.
Proof. unfold put_outcomes. apply omap_app. Qed.

Lemma remaining_readings_app (h1 h2 : list event) :
  remaining_readings (h1 ++ h2) = remaining_readings h1 ++ remaining_readings h2.
Proof. unfold remaining_readings. apply omap_app. Qed.

(** The events of one kind of call are counted apart. *)
Local Abbreviation reads_only new :=
  (checkpoint_calls new = 0%nat /\ vectors_written new = 0%nat /\ put_outcomes new = []
   /\ remaining_readings new = []).

Lemma store_batch_step (vectors : list vector) (i : nat)
    (w : world) (total : nat) (errs : list error_entry) :
  exists ev,
    history (fst (fst (store_batch env (vector_bucket cfg) (index_name cfg) vectors
                         (batch_size cfg) (w, total, errs) i)))
    = history w ++ [ev]
    /\ checkpoint_calls [ev] = 0%nat
    /\ remaining_readings [ev] = []
    /\ snd (fst (store_batch env (vector_bucket cfg) (index_name cfg) vectors
                   (batch_size cfg) (w, total, errs) i))
       = (total + vectors_written [ev])%nat.
Proof.
  unfold store_batch.
  destruct (env_put_vectors env (history w) (vector_bucket cfg) (index_name cfg) _) as [e|];
    eexists; (split; [reflexivity|]); (split; [reflexivity|]); (split; [reflexivity|]);
    unfold vectors_written; simpl; rewrite ?length_map; lia.
Qed.

Lemma store_batch_counts (vectors : list vector) (starts : list nat)
    (w : world) (total : nat) (errs : list error_entry) :
  exists new,
    history (fst (fst (foldl (store_batch env (vector_bucket cfg) (index_name cfg) vectors
                                (batch_size cfg)) (w, total, errs) starts)))
    = history w ++ new
    /\ checkpoint_calls new = 0%nat
    /\ remaining_readings new = []
    /\ snd (fst (foldl (store_batch env (vector_bucket cfg) (index_name cfg) vectors
                          (batch_size cfg)) (w, total, errs) starts))
       = (total + vectors_written new)%nat.
Proof.
  revert w total errs. induction starts as [|i starts IH]; intros w total errs;
    cbn [foldl].
  - exists []. rewrite app_nil_r.
    split_and!; first [done | unfold vectors_written; simpl; lia].
  - destruct (store_batch_step vectors i w total errs) as (ev & Hh1 & Hc1 & Hr1 & Hv1).
    destruct (store_batch env (vector_bucket cfg) (index_name cfg) vectors
                (batch_size cfg) (w, total, errs) i) as [[w1 total1] errs1].
    cbn [fst snd] in Hh1, Hv1.
    destruct (IH w1 total1 errs1) as (new & Hh & Hc & Hr & Hv).
    exists (ev :: new). rewrite Hh, Hv, Hh1, Hv1, <- app_assoc.
    change (ev :: new) with ([ev] ++ new).
    rewrite checkpoint_calls_app, vectors_written_app, remaining_readings_app, Hc, Hc1,
      Hr, Hr1.
    split_and!; (done || lia).
Qed.

Lemma storeVectorsBatch_counts (vectors : list vector) (w w' : world) (sr : store_result) :
  storeVectorsBatch env (vector_bucket cfg) (index_name cfg) vectors (batch_size cfg) w
  = Ok (w', sr) ->
  exists new,
    history w' = history w ++ new
    /\ checkpoint_calls new = 0%nat
    /\ remaining_readings new = []
    /\ stored sr = vectors_written new.
Proof.
  unfold storeVectorsBatch.
  destruct (range_step (length vectors) (batch_size cfg)) as [starts|e]; simpl; [|done].
  destruct (store_batch_counts vectors starts w 0%nat []) as (new & Hh & Hc & Hr & Hv).
  destruct (foldl _ _ starts) as [[w1 total] errs]. simpl in *.
  intros [= <- <-]. exists new. by split_and!.
Qed.

Lemma prepare_file_counts (f : file_info) (w : world) (r : results) :
  match prepare_file env cfg f (w, r) with
  | Skipped w1 r1 | Failed w1 r1 _ | Ready w1 r1 _ =>
      (exists new, history w1 = history w ++ new /\ reads_only new)
      /\ files_processed r1 = files_processed r
      /\ vectors_stored r1 = vectors_stored r
  end.
Proof.
  unfold prepare_file, loadAndTransformMessages.
  assert (exists new, history (log (EvGetObject (source_bucket cfg) (file_key f)) w)
                      = history w ++ new /\ reads_only new) as Hload.
  { by exists [EvGetObject (source_bucket cfg) (file_key f)]. }
  destruct (env_get_object env (history w) (source_bucket cfg) (file_key f)) as [raw|];
    [|done].
  destruct (omap _ raw) as [|m ms]; [done|].
  destruct (chunkByConversation _ _ _ _ _ _ _ _) as [[|c cs]|e]; try done.
  destruct (getEmbeddingsParallel _ _ _ _) as [embedding_results|e]; [|done].
  assert (exists new,
            history (log (EvInvokeModel (map chunk_text (c :: cs)))
                       (log (EvGetObject (source_bucket cfg) (file_key f)) w))
            = history w ++ new /\ reads_only new) as Hlog.
  { exists [EvGetObject (source_bucket cfg) (file_key f);
            EvInvokeModel (map chunk_text (c :: cs))].
    split; [|done]. simpl. by rewrite <- app_assoc. }
  destruct (prepare_vectors _ _ _ _) as [es [vectors|e]]; done.
Qed.

Lemma processFile_counts (f : file_info) (w : world) (r : results) :
  exists new,
    history (fst (processFile env cfg f (w, r))) = history w ++ new
    /\ files_processed (snd (processFile env cfg f (w, r)))
       = (files_processed r + checkpoint_calls new)%nat
    /\ vectors_stored (snd (processFile env cfg f (w, r)))
       = (vectors_stored r + vectors_written new)%nat
    /\ (checkpoint_calls new <= 1)%nat
    /\ remaining_readings new = [].
Proof.
  unfold processFile. pose proof (prepare_file_counts f w r) as Hprepare.
  destruct (prepare_file env cfg f (w, r)) as [w1 r1|w1 r1 e|w1 r1 vectors];
    destruct Hprepare as ((new & Hh & Hc & Hv & _ & Hr) & Hf & Hs); cbn [fst snd].
  - exists new. split_and!; (done || lia).
  - exists new. cbn. split_and!; (done || lia).
  - unfold store_and_checkpoint.
    assert (forall w2 r2 more,
              history w2 = history w1 ++ more -> checkpoint_calls more = 0%nat ->
              remaining_readings more = [] ->
              files_processed r2 = files_processed r1 ->
              vectors_stored r2 = (vectors_stored r1 + vectors_written more)%nat ->
              exists new',
                history (setLastProcessedDate env (ssm_prefix cfg) (project_id cfg)
                           (file_date f) w2) = history w ++ new'
                /\ S (files_processed r2) = (files_processed r + checkpoint_calls new')%nat
                /\ vectors_stored r2 = (vectors_stored r + vectors_written new')%nat
                /\ (checkpoint_calls new' <= 1)%nat
                /\ remaining_readings new' = []) as Hcheckpoint.
    { intros w2 r2 more Hh2 Hc2 Hr2 Hf2 Hs2.
      destruct (setLastProcessedDate_spec env cfg (file_date f) w2) as (o & Hset & _).
      exists (new ++ more ++ [EvPutParameter name (file_date f) o]).
      rewrite Hset, Hh2, Hh, <- !app_assoc.
      rewrite !checkpoint_calls_app, !vectors_written_app, !remaining_readings_app,
        Hc, Hc2, Hv, Hf2, Hs2, Hf, Hs, Hr, Hr2.
      change (checkpoint_calls [EvPutParameter name (file_date f) o]) with 1%nat.
      change (vectors_written [EvPutParameter name (file_date f) o]) with 0%nat.
      split_and!; (done || lia). }
    destruct vectors as [|v vs].
    + cbn [fst snd files_processed vectors_stored].
      destruct (Hcheckpoint w1 r1 []) as (new' & H1 & H2 & H3 & H4 & H5);
        [by rewrite app_nil_r | done | done | done | unfold vectors_written; simpl; lia |].
      by exists new'.
    + destruct (storeVectorsBatch env (vector_bucket cfg) (index_name cfg) (v :: vs)
                  (batch_size cfg) w1) as [[w2 sr]|e] eqn:Hstore;
        cbn [mbind result_bind fst snd files_processed vectors_stored].
      * destruct (storeVectorsBatch_counts _ _ _ _ Hstore) as (more & Hh2 & Hc2 & Hr2 & Hs2).
        destruct (Hcheckpoint w2
                    {| files_processed := files_processed r1;
                       vectors_stored := (vectors_stored r1 + stored sr)%nat;
                       errors := errors r1 ++ default [] (store_errors sr) |} more)
          as (new' & H1 & H2 & H3 & H4 & H5); [done | done | done | done | simpl; lia |].
        by exists new'.
      * exists new. cbn. split_and!; (done || lia).
Qed.

Lemma process_loop_counts (context : option (list event -> Z)) (files : list file_info)
    (st : world * results) :
  exists new,
    history (fst (process_loop env cfg context files st)) = history (fst st) ++ new
    /\ files_processed (snd (process_loop env cfg context files st))
       = (files_processed (snd st) + checkpoint_calls new)%nat
    /\ vectors_stored (snd (process_loop env cfg context files st))
       = (vectors_stored (snd st) + vectors_written new)%nat
    /\ (checkpoint_calls new <= length files)%nat.
Proof.
  revert st. induction files as [|f files IH]; intros [w r]; cbn [process_loop fst snd].
  - exists []. rewrite app_nil_r. unfold checkpoint_calls, vectors_written. simpl.
    split_and!; (done || lia).
  - destruct context as [remaining|].
    + destruct (remaining (history w) <? 30000).
      * exists [EvRemainingTime (remaining (history w))].
        unfold checkpoint_calls, vectors_written. cbn. split_and!; (done || lia).
      * destruct (processFile_counts f (log (EvRemainingTime (remaining (history w))) w) r)
          as (new1 & Hh1 & Hf1 & Hs1 & Hc1 & _).
        destruct (IH (processFile env cfg f
                        (log (EvRemainingTime (remaining (history w))) w, r)))
          as (new2 & Hh2 & Hf2 & Hs2 & Hc2).
        exists ([EvRemainingTime (remaining (history w))] ++ new1 ++ new2).
        rewrite Hh2, Hf2, Hs2, Hh1, Hf1, Hs1. cbn [log history].
        rewrite !checkpoint_calls_app, !vectors_written_app, <- !app_assoc.
        change (checkpoint_calls [EvRemainingTime (remaining (history w))]) with 0%nat.
        change (vectors_written [EvRemainingTime (remaining (history w))]) with 0%nat.
        split_and!; (done || simpl; lia).
    + destruct (processFile_counts f w r) as (new1 & Hh1 & Hf1 & Hs1 & Hc1 & _).
      destruct (IH (processFile env cfg f (w, r))) as (new2 & Hh2 & Hf2 & Hs2 & Hc2).
      exists (new1 ++ new2).
      rewrite Hh2, Hf2, Hs2, Hh1, Hf1, Hs1.
      rewrite !checkpoint_calls_app, !vectors_written_app, <- !app_assoc.
      split_and!; (done || simpl; lia).
Qed.

(** X24.  The counters that [processNewFiles] returns are those of the
    calls it made: the files processed are as many as the calls of
    [put_parameter], at most one for a file, and the vectors stored are as
    many as the vectors of the calls of [put_vectors] that succeeded. *)
Theorem processNewFiles_counts (context : option (list event -> Z))
    (files : list file_info) (w : world) :
  exists new,
    history (fst (processNewFiles env cfg context files w)) = history w ++ new
    /\ files_processed (snd (processNewFiles env cfg context files w))
       = checkpoint_calls new
    /\ vectors_stored (snd (processNewFiles env cfg context files w))
       = vectors_written new
    /\ (files_processed (snd (processNewFiles env cfg context files w)) <= length files)%nat.
Proof.
  unfold processNewFiles.
  destruct (process_loop_counts context
              (stable_sort (map (fun f => (file_date f, f)) files)) (w, mkResults 0 0 []))
    as (new & Hh & Hf & Hs & Hc).
  exists new. rewrite Hh, Hf, Hs. cbn [fst snd files_processed vectors_stored].
  split_and!; try done.
  rewrite (Permutation_length (stable_sort_perm _)), !length_map in Hc. lia.
Qed.


(** ** A pool without workers *)

Lemma prepare_file_no_worker (f : file_info) (w : world) (r : results) :
  max_workers cfg <= 0 ->
  match prepare_file env cfg f (w, r) with
  | Ready _ _ _ => False
  | _ => True
  end.
Proof.
  intros Hworkers. unfold prepare_file.
  destruct (loadAndTransformMessages env (source_bucket cfg) f w) as [[|m ms] w1]; [done|].
  destruct (chunkByConversation _ _ _ _ _ _ _ _) as [[|c cs]|e]; try done.
  unfold getEmbeddingsParallel. by rewrite (proj2 (Z.leb_le _ _) Hworkers).
Qed.

Lemma processFile_no_worker (f : file_info) (w : world) (r : results) :
  max_workers cfg <= 0 ->
  (exists new, history (fst (processFile env cfg f (w, r))) = history w ++ new
               /\ reads_only new)
  /\ ssm_store (fst (processFile env cfg f (w, r))) = ssm_store w
  /\ files_processed (snd (processFile env cfg f (w, r))) = files_processed r
  /\ vectors_stored (snd (processFile env cfg f (w, r))) = vectors_stored r.
Proof.
  intros Hworkers. unfold processFile.
  pose proof (prepare_file_no_worker f w r Hworkers) as Hnot.
  pose proof (prepare_file_counts f w r) as Hcounts.
  pose proof (prepare_file_quiet env cfg f w r) as Hquiet.
  destruct (prepare_file env cfg f (w, r)) as [w1 r1|w1 r1 e|w1 r1 vectors]; [..|done];
    destruct Hcounts as (Hnew & Hf & Hs); destruct Hquiet as [Hstore _]; by split_and!.
Qed.

(** X25.  With [max_workers] at most 0 the pool cannot be made: no vector
    is stored, no file is counted and the cursor is not set, whatever the
    files. *)
Theorem processNewFiles_no_worker (context : option (list event -> Z))
    (files : list file_info) (w : world) :
  max_workers cfg <= 0 ->
  (exists new,
     history (fst (processNewFiles env cfg context files w)) = history w ++ new
     /\ checkpoint_calls new = 0%nat
     /\ put_outcomes new = [])
  /\ ssm_store (fst (processNewFiles env cfg context files w)) = ssm_store w
  /\ files_processed (snd (processNewFiles env cfg context files w)) = 0%nat
  /\ vectors_stored (snd (processNewFiles env cfg context files w)) = 0%nat.
Proof.
  intros Hworkers. unfold processNewFiles.
  generalize (stable_sort (map (fun f => (file_date f, f)) files)). intros sorted.
  assert (forall st,
            (exists new,
               history (fst (process_loop env cfg context sorted st))
               = history (fst st) ++ new
               /\ checkpoint_calls new = 0%nat /\ put_outcomes new = [])
            /\ ssm_store (fst (process_loop env cfg context sorted st)) = ssm_store (fst st)
            /\ files_processed (snd (process_loop env cfg context sorted st))
               = files_processed (snd st)
            /\ vectors_stored (snd (process_loop env cfg context sorted st))
               = vectors_stored (snd st)) as Hloop; [|by apply (Hloop (w, mkResults 0 0 []))].
  induction sorted as [|f sorted IH]; intros [w0 r0]; cbn [process_loop fst snd].
  - split_and!; try done. exists []. by rewrite app_nil_r.
  - destruct context as [remaining|].
    + destruct (remaining (history w0) <? 30000); cbn [fst snd].
      * split_and!; try done. by exists [EvRemainingTime (remaining (history w0))].
      * destruct (processFile_no_worker f
                    (log (EvRemainingTime (remaining (history w0))) w0) r0 Hworkers)
          as ((new1 & Hh1 & Hc1 & _ & Hp1 & _) & Hstore1 & Hf1 & Hs1).
        destruct (IH (processFile env cfg f
                        (log (EvRemainingTime (remaining (history w0))) w0, r0)))
          as ((new2 & Hh2 & Hc2 & Hp2) & Hstore2 & Hf2 & Hs2).
        rewrite Hstore2, Hf2, Hs2, Hstore1, Hf1, Hs1. split_and!; try done.
        exists ([EvRemainingTime (remaining (history w0))] ++ new1 ++ new2).
        rewrite Hh2, Hh1. cbn [log history].
        rewrite !checkpoint_calls_app, !put_outcomes_app, Hc1, Hc2, Hp1, Hp2, <- !app_assoc.
        done.
    + destruct (processFile_no_worker f w0 r0 Hworkers)
        as ((new1 & Hh1 & Hc1 & _ & Hp1 & _) & Hstore1 & Hf1 & Hs1).
      destruct (IH (processFile env cfg f (w0, r0)))
        as ((new2 & Hh2 & Hc2 & Hp2) & Hstore2 & Hf2 & Hs2).
      rewrite Hstore2, Hf2, Hs2, Hstore1, Hf1, Hs1. split_and!; try done.
      exists (new1 ++ new2).
      rewrite Hh2, Hh1, !checkpoint_calls_app, !put_outcomes_app, Hc1, Hc2, Hp1, Hp2,
        <- !app_assoc.
      done.
Qed.

(** ** The time that remains *)

Lemma no_reading_in (new pre post : list event) (ms : Z) :
  remaining_readings new = [] -> new <> pre ++ EvRemainingTime ms :: post.
Proof.
  intros Hnone ->. rewrite remaining_readings_app in Hnone.
  apply app_eq_nil in Hnone as [_ Hnone]. done.
Qed.

Lemma process_loop_stops (context : option (list event -> Z)) (files : list file_info)
    (st : world * results) :
  exists new,
    history (fst (process_loop env cfg context files st)) = history (fst st) ++ new
    /\ forall pre ms post,
         new = pre ++ EvRemainingTime ms :: post -> ms < 30000 -> post = [].
Proof.
  revert st. induction files as [|f files IH]; intros [w r]; cbn [process_loop fst snd].
  - exists []. rewrite app_nil_r. split; [done|]. intros pre ms post Hnew.
    by destruct pre.
  - assert (forall w0 : world,
              exists new,
                history (fst (process_loop env cfg context files
                                (processFile env cfg f (w0, r))))
                = history w0 ++ new
                /\ forall pre ms post,
                     new = pre ++ EvRemainingTime ms :: post -> ms < 30000 -> post = [])
      as Hfile.
    { intros w0.
      destruct (processFile_counts f w0 r) as (new1 & Hh1 & _ & _ & _ & Hr1).
      destruct (IH (processFile env cfg f (w0, r))) as (new2 & Hh2 & Hstop).
      exists (new1 ++ new2). rewrite Hh2, Hh1, <- app_assoc. split; [done|].
      intros pre ms post Hnew Hms. symmetry in Hnew.
      apply app_eq_app in Hnew as [l [[_ Hnew]|[Hnew1 Hnew]]].
      - by apply (Hstop l ms post).
      - destruct l as [|ev l].
        + simpl in Hnew. by apply (Hstop [] ms post).
        + simpl in Hnew. injection Hnew as <- ->.
          by destruct (no_reading_in new1 pre l ms Hr1). }
    destruct context as [remaining|]; [|apply Hfile].
    destruct (remaining (history w) <? 30000) eqn:Hlow; cbn [fst snd log history].
    + exists [EvRemainingTime (remaining (history w))]. split; [done|].
      intros [|ev pre] ms post Hnew Hms; [by injection Hnew as _ <-|].
      injection Hnew as _ Hnew. by destruct pre.
    + destruct (Hfile (log (EvRemainingTime (remaining (history w))) w))
        as (new & Hh & Hstop).
      exists (EvRemainingTime (remaining (history w)) :: new).
      rewrite Hh. cbn [log history]. rewrite <- app_assoc. split; [done|].
      intros [|ev pre] ms post Hnew Hms.
      * injection Hnew as <- _. apply Z.ltb_ge in Hlow. lia.
      * injection Hnew as _ Hnew. by apply (Hstop pre ms post).
Qed.

(** X26.  Once the remaining time is read below 30000 milliseconds,
    [processNewFiles] calls nothing more: such a reading is the last of its
    calls. *)
Theorem processNewFiles_stops_early (context : option (list event -> Z))
    (files : list file_info) (w : world) :
  exists new,
    history (fst (processNewFiles env cfg context files w)) = history w ++ new
    /\ forall pre ms post,
         new = pre ++ EvRemainingTime ms :: post -> ms < 30000 -> post = [].
Proof. unfold processNewFiles. apply process_loop_stops. Qed.

End Counts.

(** ** The handler *)

Section HandlerTheorems.

Context (int : string -> option Z) (env : environment).

Local Abbreviation getConfig' := (getConfig int).
Local Abbreviation handler' := (handler int env).

(** The three names without default are set, and not to the empty
    string. *)
Local Abbreviation required environ :=
  (PyStr.truthy (environ !! "CHAT_DATA_S3_BUCKET")
   && PyStr.truthy (environ !! "VECTOR_BUCKET")
   && PyStr.truthy (environ !! "VECTOR_INDEX")).

Lemma getConfig_raises (environ : gmap string string) (e : exn) :
  getConfig' environ = Raise e -> e = ValueError.
Proof.
  unfold getConfig, int_of.
  destruct (int (default "10" (environ !! "MAX_WORKERS"))); [|by intros [= <-]].
  destruct (int (default "50" (environ !! "BATCH_SIZE"))); [done | by intros [= <-]].
Qed.

Lemma getConfig_required (environ : gmap string string) (c : environment_config) :
  getConfig' environ = Ok c ->
  PyStr.truthy (env_source_bucket c) && PyStr.truthy (env_vector_bucket c)
  && PyStr.truthy (env_index_name c) = required environ.
Proof.
  unfold getConfig, int_of.
  destruct (int (default "10" (environ !! "MAX_WORKERS"))); [|done].
  destruct (int (default "50" (environ !! "BATCH_SIZE"))); [|done].
  by intros [= <-].
Qed.

(** X27.  When one of [CHAT_DATA_S3_BUCKET], [VECTOR_BUCKET] and
    [VECTOR_INDEX] is not set or is empty, or a number of the configuration
    is not one, the handler answers 500 for a [ValueError] and has called no
    service. *)
Theorem handler_configuration_error (environ : gmap string string)
    (listing : string + list (list s3_object)) (context : option (list event -> Z))
    (w : world) :
  required environ = false \/ getConfig' environ = Raise ValueError ->
  handler' environ listing context w
  = (w, mkResponse 500 (HandlerError (Raised ValueError))).
Proof.
  intros Hbad. unfold handler.
  destruct (getConfig' environ) as [c|e] eqn:Hconfig.
  - destruct Hbad as [Hmissing|?]; [|done].
    by rewrite (getConfig_required _ _ Hconfig), Hmissing.
  - by rewrite (getConfig_raises _ _ Hconfig).
Qed.

(** X28.  When the listing of the bucket fails, the handler answers 500
    with the failure; it has read the cursor and called nothing else. *)
Theorem handler_listing_error (environ : gmap string string) (c : environment_config)
    (message : string) (context : option (list event -> Z)) (w : world) :
  getConfig' environ = Ok c ->
  required environ = true ->
  snd (handler' environ (inl message) context w)
  = mkResponse 500 (HandlerError (ListingFailed message))
  /\ history (fst (handler' environ (inl message) context w))
     = history w ++ [EvGetParameter (parameter_name (validated c))]
  /\ ssm_store (fst (handler' environ (inl message) context w)) = ssm_store w.
Proof.
  intros Hconfig Hrequired. unfold handler. rewrite Hconfig.
  rewrite (getConfig_required _ _ Hconfig), Hrequired. cbn [negb].
  unfold getLastProcessedDate.
  by destruct (env_get_parameter_fails env (history w) _).
Qed.

(** X29.  With a configuration that is complete and a listing that
    succeeds, the handler does what [run] does and answers 200: with the
    counters of the run, the errors counted, or with [No new files] when
    there is no file after the cursor. *)
Theorem handler_run (environ : gmap string string) (c : environment_config)
    (pages : list (list s3_object)) (context : option (list event -> Z)) (w : world) :
  getConfig' environ = Ok c ->
  required environ = true ->
  fst (handler' environ (inr pages) context w)
  = fst (run env (validated c) context pages w)
  /\ snd (handler' environ (inr pages) context w)
     = mkResponse 200
         match getNewChatFiles pages
                 (fst (getLastProcessedDate env (ssm_prefix (validated c))
                         (project_id (validated c)) w)) with
         | [] => NoNewFiles
         | _ =>
             SyncComplete (files_processed (snd (run env (validated c) context pages w)))
               (vectors_stored (snd (run env (validated c) context pages w)))
               (length (errors (snd (run env (validated c) context pages w))))
         end.
Proof.
  intros Hconfig Hrequired. unfold handler, run. rewrite Hconfig.
  rewrite (getConfig_required _ _ Hconfig), Hrequired. cbn [negb].
  destruct (getLastProcessedDate env (ssm_prefix (validated c))
              (project_id (validated c)) w) as [last_date w1].
  cbn [fst]. destruct (getNewChatFiles pages last_date) as [|f files]; [done|].
  by destruct (processNewFiles env (validated c) context (f :: files) w1).
Qed.

End HandlerTheorems.

(** ** From the embeddings to the vectors *)

Section EmbeddingsToVectors.

Context (getEmbedding : nat -> string -> string + embedding).

Lemma prepare_vectors_total (cfg : config) (f : file_info)
    (pairs : list (chunk * option emb_result)) (acc : list error_entry * list vector) :
  Forall (fun p => is_Some (snd p)) pairs ->
  exists es vs, prepare_vectors cfg f pairs acc = (es, Ok vs).
Proof.
  intros Hall. revert acc. induction Hall as [|[c r] pairs [emb_result Hr] _ IH];
    intros acc; cbn [prepare_vectors].
  - by eexists _, _.
  - simpl in Hr. subst r. destruct (PyStr.truthy (er_error emb_result)); apply IH.
Qed.

(** X30.  When every future completes, in whatever order, the results are
    those of the texts in the order of the chunks, and the loop over them
    raises nothing: every chunk gives a vector or an error. *)
Theorem getEmbeddingsParallel_vectors (cfg : config) (f : file_info)
    (completed : list nat) (chunks : list chunk) (max_workers : Z) :
  0 < max_workers ->
  completed ≡ₚ seq 0 (length chunks) ->
  exists results es vs,
    getEmbeddingsParallel getEmbedding completed (map chunk_text chunks) max_workers
    = Ok results
    /\ results = imap (fun i c => Some (embedSingle getEmbedding i (chunk_text c))) chunks
    /\ prepare_vectors cfg f (zip chunks results) ([], []) = (es, Ok vs)
    /\ (length es + length vs = length chunks)%nat.
Proof.
  intros Hworkers Hcompleted.
  assert (getEmbeddingsParallel getEmbedding completed (map chunk_text chunks) max_workers
          = Ok (imap (fun i c => Some (embedSingle getEmbedding i (chunk_text c))) chunks))
    as Hresults.
  { unfold getEmbeddingsParallel. rewrite (proj2 (Z.leb_gt _ _) Hworkers). f_equal.
    apply list_eq. intros i. rewrite list_lookup_imap.
    destruct (chunks !! i) as [c|] eqn:Hc; simpl.
    - rewrite (collect_lookup getEmbedding _ _ _ i (chunk_text c)).
      + rewrite bool_decide_eq_true_2; [done|].
        rewrite Hcompleted. apply elem_of_seq. apply lookup_lt_Some in Hc. lia.
      + by rewrite length_replicate.
      + by rewrite list_lookup_fmap, Hc.
    - apply lookup_ge_None. rewrite collect_length, length_replicate, length_map.
      by apply lookup_ge_None. }
  set (results := imap _ chunks) in *.
  assert (length results = length chunks) as Hlen by apply length_imap.
  destruct (prepare_vectors_total cfg f (zip chunks results) ([], [])) as (es & vs & Hrun).
  { apply Forall_forall. intros [c r] Hin. apply elem_of_zip_r in Hin.
    unfold results in Hin. apply list_elem_of_lookup in Hin as [i Hi].
    rewrite list_lookup_imap in Hi. destruct (chunks !! i); [|done].
    injection Hi as <-. done. }
  exists results, es, vs. split_and!; try done.
  apply prepare_vectors_acc in Hrun as [-> ->]. cbn [app].
  rewrite !length_map, filter_partition_length, length_zip. lia.
Qed.

End EmbeddingsToVectors.

(** * The further properties on the examples *)

Lemma chunkByConversation_chunk_ids_witness :
  Examples.chunk_default Examples.clock_1020 Examples.scenario = Ok Examples.scenario_chunks
  /\ NoDup (map chunk_id Examples.scenario_chunks).
Proof.
  split; [vm_compute; reflexivity|].
  apply (proj1 (chunkByConversation_chunk_ids IsoBasic.fromisoformat Examples.clock_1020
                  TOPIC_KEYWORDS_initial "room" 30 50 4000
                  Examples.scenario Examples.scenario_chunks eq_refl)).
Defined.

Lemma chunkByConversation_topics_witness :
  Examples.chunk_default Examples.clock_1020 Examples.scenario = Ok Examples.scenario_chunks
  /\ Examples.scenario_first ∈ Examples.scenario_chunks
  /\ md_primary_topic (metadata Examples.scenario_first)
     ∈ md_topics (metadata Examples.scenario_first).
Proof.
  split; [vm_compute; reflexivity|].
  split; [by left|].
  apply (chunkByConversation_topics IsoBasic.fromisoformat Examples.clock_1020
           TOPIC_KEYWORDS_initial "room" 30 50 4000
           Examples.scenario Examples.scenario_chunks Examples.scenario_first eq_refl).
  by left.
Defined.

Lemma chunkByConversation_chronological_witness :
  Examples.chunk_default Examples.clock_1020 Examples.scenario = Ok Examples.scenario_chunks
  /\ forall c, c ∈ Examples.scenario_chunks ->
       String.leb (md_start_time (metadata c)) (md_end_time (metadata c)) = true.
Proof.
  split; [vm_compute; reflexivity|].
  apply (proj1 (chunkByConversation_chronological IsoBasic.fromisoformat Examples.clock_1020
                  TOPIC_KEYWORDS_initial "room" 30 50 4000
                  Examples.scenario Examples.scenario_chunks eq_refl)).
Defined.

Lemma chunkByConversation_chunk_text_witness :
  Examples.chunk_default Examples.clock_1020 Examples.scenario = Ok Examples.scenario_chunks
  /\ Examples.scenario_first ∈ Examples.scenario_chunks
  /\ String.length (md_chunk_text (metadata Examples.scenario_first))
     = Nat.min 2000 (String.length (chunk_text Examples.scenario_first)).
Proof.
  split; [vm_compute; reflexivity|].
  split; [by left|].
  apply (chunkByConversation_chunk_text IsoBasic.fromisoformat Examples.clock_1020
           TOPIC_KEYWORDS_initial "room" 30 50 4000
           Examples.scenario Examples.scenario_chunks Examples.scenario_first eq_refl).
  by left.
Defined.

Lemma sorted_by_timestamp_stable_witness :
  sorted_by_timestamp (rev Examples.scenario) = Ok Examples.scenario
  /\ Examples.scenario ≡ₚ rev Examples.scenario.
Proof.
  split; [vm_compute; reflexivity|].
  apply (proj1 (sorted_by_timestamp_stable (rev Examples.scenario) Examples.scenario eq_refl)).
Defined.

Lemma parseTimestamp_forms_witness :
  PyStr.contains "." "2024-01-03T09:00:00" = false
  /\ parseTimestamp IsoBasic.fromisoformat Examples.clock_1020
       (Some "2024-01-03T09:00:00.123+05:30") 0
     = parseTimestamp IsoBasic.fromisoformat Examples.clock_1020
         (Some "2024-01-03T09:00:00+00:00") 0.
Proof.
  split; [reflexivity|].
  apply (proj1 (parseTimestamp_forms IsoBasic.fromisoformat Examples.clock_1020
                  "2024-01-03T09:00:00" "123+05:30" 0 eq_refl)).
Defined.

Lemma chunkByConversation_one_message_chunks_witness :
  0 <= 1
  /\ chunkByConversation IsoBasic.fromisoformat Examples.clock_1020 TOPIC_KEYWORDS_initial
       "room" 30 0 4000 Examples.scenario
     = Ok (Examples.chunks_or_nil
             (chunkByConversation IsoBasic.fromisoformat Examples.clock_1020
                TOPIC_KEYWORDS_initial "room" 30 0 4000 Examples.scenario))
  /\ length (Examples.chunks_or_nil
               (chunkByConversation IsoBasic.fromisoformat Examples.clock_1020
                  TOPIC_KEYWORDS_initial "room" 30 0 4000 Examples.scenario))
     = length Examples.scenario.
Proof.
  split; [lia|].
  split; [vm_compute; reflexivity|].
  refine (proj1 (chunkByConversation_one_message_chunks IsoBasic.fromisoformat
                   Examples.clock_1020 TOPIC_KEYWORDS_initial "room" 30 0 4000
                   Examples.scenario _ _ _)).
  - lia.
  - vm_compute. reflexivity.
Defined.

Lemma chunkByConversation_missing_timestamp_witness :
  (2 <= length Further.undated_pair)%nat
  /\ mkMessage None (Some "ben") "hello" "room" None ∈ Further.undated_pair
  /\ Examples.chunk_default Examples.clock_1020 Further.undated_pair = Raise TypeError.
Proof.
  split; [simpl; lia|].
  split; [right; by left|].
  apply (proj2 (chunkByConversation_missing_timestamp IsoBasic.fromisoformat
                  Examples.clock_1020 TOPIC_KEYWORDS_initial "room" 30 50 4000)
           Further.undated_pair (mkMessage None (Some "ben") "hello" "room" None)).
  - simpl. lia.
  - right. by left.
  - reflexivity.
Defined.

Lemma addTopicKeywords_detects_witness :
  "wireguard" ∈ keywords_at Further.keywords_given 8
  /\ PyStr.contains "wireguard" (PyStr.lower "WireGuard is down") = true
  /\ "vpn" ∈ detectTopics
               (topic_keywords (addTopicKeywords "vpn" 8 Further.keywords_given))
               "WireGuard is down".
Proof.
  split; [by left|].
  split; [reflexivity|].
  apply (addTopicKeywords_detects "vpn" 8 Further.keywords_given "wireguard"
           "WireGuard is down").
  - by left.
  - reflexivity.
Defined.

Lemma addTopicKeywords_keeps_topics_witness :
  detectTopics (topic_keywords Further.keywords_given) "terraform state" <> ["general"]
  /\ "terraform" ∈ detectTopics (topic_keywords Further.keywords_given) "terraform state"
  /\ "terraform" ∈ detectTopics
                     (topic_keywords (addTopicKeywords "vpn" 8 Further.keywords_given))
                     "terraform state".
Proof.
  split; [vm_compute; discriminate|].
  split; [by left|].
  apply (addTopicKeywords_keeps_topics "vpn" 8 Further.keywords_given "terraform state"
           "terraform").
  - vm_compute. discriminate.
  - by left.
Defined.

Lemma addTopicKeywords_keeps_primary_witness :
  dict_get "wireguard" (kw_TOPIC_KEYWORDS Further.keywords_given) = None
  /\ getPrimaryTopic (detectTopics (topic_keywords Further.keywords_given)
                        "wireguard and terraform") <> "general"
  /\ getPrimaryTopic
       (detectTopics (topic_keywords (addTopicKeywords "wireguard" 8 Further.keywords_given))
          "wireguard and terraform")
     = getPrimaryTopic (detectTopics (topic_keywords Further.keywords_given)
                          "wireguard and terraform").
Proof.
  split; [reflexivity|].
  split; [vm_compute; discriminate|].
  apply (addTopicKeywords_keeps_primary "wireguard" 8 Further.keywords_given
           "wireguard and terraform").
  - reflexivity.
  - vm_compute. discriminate.
Defined.

Lemma addTopicKeywords_shares_lists_witness :
  dict_get "wireguard" (kw_TOPIC_KEYWORDS Further.keywords_given) = None
  /\ keywords_at (addTopicKeywords "wireguard" 0
                    (addTopicKeywords "wireguard" 8 Further.keywords_given)) 8
     = keywords_at Further.keywords_given 8 ++ keywords_at Further.keywords_given 0.
Proof.
  split; [reflexivity|].
  apply (proj1 (addTopicKeywords_shares_lists Further.keywords_given) "wireguard" 8%nat 0%nat).
  reflexivity.
Defined.

Lemma detectTopics_upper_case_keywords_witness :
  "network" <> "general"
  /\ (forall keywords keyword,
        ("network", keywords) ∈ Further.upper_topics -> keyword ∈ keywords ->
        has_upper keyword = true)
  /\ "network" ∉ detectTopics Further.upper_topics "the VPN is down".
Proof.
  assert (forall keywords keyword,
            ("network", keywords) ∈ Further.upper_topics -> keyword ∈ keywords ->
            has_upper keyword = true) as Hupper.
  { intros keywords keyword Hin Hkeyword.
    apply list_elem_of_singleton in Hin. injection Hin as ->.
    apply list_elem_of_singleton in Hkeyword as ->. reflexivity. }
  split; [discriminate|].
  split; [exact Hupper|].
  apply (detectTopics_upper_case_keywords Further.upper_topics "network" "the VPN is down").
  - discriminate.
  - exact Hupper.
Defined.

Lemma getLastProcessedDate_after_set_witness :
  env_get_parameter_fails (Examples.services false false)
    (history (setLastProcessedDate (Examples.services false false) "/embedding-sync"
                "ccoe-chat-history" "2024-01-04" Examples.first_run))
    (getSsmParameterName "/embedding-sync" "ccoe-chat-history") = false
  /\ fst (getLastProcessedDate (Examples.services false false) "/embedding-sync"
            "ccoe-chat-history"
            (setLastProcessedDate (Examples.services false false) "/embedding-sync"
               "ccoe-chat-history" "2024-01-04" Examples.first_run))
     = Some "2024-01-04".
Proof.
  split; [reflexivity|].
  apply (getLastProcessedDate_after_set (Examples.services false false) "/embedding-sync"
           "ccoe-chat-history" "2024-01-04" Examples.first_run).
  reflexivity.
Defined.

Lemma run_other_projects_witness :
  ssm_prefix Further.other_project = ssm_prefix Examples.cfg
  /\ project_id Further.other_project <> project_id Examples.cfg
  /\ cursor Further.other_project
       (fst (run (Examples.services false false) Examples.cfg None Examples.pages
               Examples.first_run))
     = cursor Further.other_project Examples.first_run.
Proof.
  split; [reflexivity|].
  split; [discriminate|].
  apply (run_other_projects (Examples.services false false) Examples.cfg None Examples.pages
           Examples.first_run Further.other_project).
  - reflexivity.
  - discriminate.
Defined.

Lemma getNewChatFiles_room_and_date_witness :
  PyStr.contains "/" "room_a" = false
  /\ PyStr.contains "/" "2024-01-01" = false
  /\ PyStr.contains "_" "2024-01-01" = false
  /\ getNewChatFiles [[mkObject "feed/room_a_2024-01-01_chat.json" 1]] None
     = [ mkFile "feed/room_a_2024-01-01_chat.json" "room_a" "2024-01-01" 1 ].
Proof.
  split; [reflexivity|].
  split; [reflexivity|].
  split; [reflexivity|].
  apply (getNewChatFiles_room_and_date "feed" "room_a" "2024-01-01" 1 None); reflexivity.
Defined.

Lemma getNewChatFiles_name_without_date_witness :
  PyStr.contains "/" "notes" = false
  /\ PyStr.contains "_" "notes" = false
  /\ getNewChatFiles [[mkObject "feed/notes_chat.json" 1]] None
     = [ mkFile "feed/notes_chat.json" "notes" "notes" 1 ].
Proof.
  split; [reflexivity|].
  split; [reflexivity|].
  apply (getNewChatFiles_name_without_date "feed" "notes" 1); reflexivity.
Defined.

Lemma getNewChatFiles_listing_witness :
  sublist (getNewChatFiles Examples.pages (Some "2024-01-01"))
    (getNewChatFiles Examples.pages None).
Proof.
  apply (proj1 (proj2 (getNewChatFiles_listing Examples.pages (Some "2024-01-01")))).
Defined.

Lemma prepare_vectors_partition_witness :
  prepare_vectors Examples.cfg Examples.jan03 Further.two_pairs ([], [])
  = (map (chunk_error Examples.jan03) (List.filter embedding_failed Further.two_pairs),
     Ok (map (vector_of Examples.cfg)
           (List.filter (fun p => negb (embedding_failed p)) Further.two_pairs)))
  /\ (length (map (chunk_error Examples.jan03)
                (List.filter embedding_failed Further.two_pairs))
      + length (map (vector_of Examples.cfg)
                  (List.filter (fun p => negb (embedding_failed p)) Further.two_pairs))
      = length Further.two_pairs)%nat.
Proof.
  split; [vm_compute; reflexivity|].
  apply (prepare_vectors_partition Examples.cfg Examples.jan03 Further.two_pairs).
  vm_compute. reflexivity.
Defined.

Lemma chunkByConversation_stored_metadata_witness :
  Examples.chunk_default Examples.clock_1020 Examples.scenario = Ok Examples.scenario_chunks
  /\ Examples.scenario_first ∈ Examples.scenario_chunks
  /\ map fst (sanitized_metadata Examples.cfg Examples.scenario_first) = stored_metadata_keys.
Proof.
  split; [vm_compute; reflexivity|].
  split; [by left|].
  apply (chunkByConversation_stored_metadata IsoBasic.fromisoformat Examples.clock_1020
           TOPIC_KEYWORDS_initial "room" 30 50 4000 Examples.cfg
           Examples.scenario Examples.scenario_chunks Examples.scenario_first eq_refl).
  by left.
Defined.

Lemma store_and_checkpoint_batch_size_not_positive_witness :
  batch_size (Further.with_sizes 10 (-5)) <= 0
  /\ Examples.three_vectors <> []
  /\ storeVectorsBatch (Examples.services false false) "vectors" "chat-index"
       Examples.three_vectors (-5) Examples.first_run
     = Ok (Examples.first_run, mkStore 0 None).
Proof.
  split; [simpl; lia|].
  split; [discriminate|].
  apply (proj1 (store_and_checkpoint_batch_size_not_positive (Examples.services false false)
                  (Further.with_sizes 10 (-5)) Examples.jan03 Examples.first_run
                  (mkResults 0 0 []) Examples.three_vectors
                  ltac:(simpl; lia) ltac:(discriminate))).
Defined.

Lemma processNewFiles_no_worker_witness :
  max_workers (Further.with_sizes 0 50) <= 0
  /\ files_processed
       (snd (processNewFiles (Examples.services false false) (Further.with_sizes 0 50) None
               [Examples.jan03] Examples.first_run)) = 0%nat.
Proof.
  split; [simpl; lia|].
  apply (processNewFiles_no_worker (Examples.services false false) (Further.with_sizes 0 50)
           None [Examples.jan03] Examples.first_run).
  simpl. lia.
Defined.

Lemma processNewFiles_stops_early_witness :
  exists new,
    history (fst (processNewFiles (Examples.services false false) Examples.cfg
                    (Some Further.no_time) [Examples.jan03] Examples.first_run))
    = history Examples.first_run ++ new
    /\ forall pre ms post,
         new = pre ++ EvRemainingTime ms :: post -> ms < 30000 -> post = [].
Proof.
  apply (processNewFiles_stops_early (Examples.services false false) Examples.cfg
           (Some Further.no_time) [Examples.jan03] Examples.first_run).
Defined.

Lemma handler_configuration_error_witness :
  (PyStr.truthy (Further.environ_no_index !! "CHAT_DATA_S3_BUCKET")
   && PyStr.truthy (Further.environ_no_index !! "VECTOR_BUCKET")
   && PyStr.truthy (Further.environ_no_index !! "VECTOR_INDEX") = false
   \/ getConfig Further.int_digits Further.environ_no_index = Raise ValueError)
  /\ handler Further.int_digits (Examples.services false false) Further.environ_no_index
       (inr Examples.pages) None Examples.first_run
     = (Examples.first_run, mkResponse 500 (HandlerError (Raised ValueError))).
Proof.
  split; [left; vm_compute; reflexivity|].
  apply (handler_configuration_error Further.int_digits (Examples.services false false)
           Further.environ_no_index (inr Examples.pages) None Examples.first_run).
  left. vm_compute. reflexivity.
Defined.

Lemma handler_listing_error_witness :
  getConfig Further.int_digits Further.environ_set = Ok Further.environ_config_set
  /\ PyStr.truthy (Further.environ_set !! "CHAT_DATA_S3_BUCKET")
     && PyStr.truthy (Further.environ_set !! "VECTOR_BUCKET")
     && PyStr.truthy (Further.environ_set !! "VECTOR_INDEX") = true
  /\ snd (handler Further.int_digits (Examples.services false false) Further.environ_set
            (inl "AccessDenied") None Examples.first_run)
     = mkResponse 500 (HandlerError (ListingFailed "AccessDenied")).
Proof.
  split; [vm_compute; reflexivity|].
  split; [vm_compute; reflexivity|].
  apply (handler_listing_error Further.int_digits (Examples.services false false)
           Further.environ_set Further.environ_config_set "AccessDenied" None
           Examples.first_run).
  - vm_compute. reflexivity.
  - vm_compute. reflexivity.
Defined.

Lemma handler_run_witness :
  getConfig Further.int_digits Further.environ_set = Ok Further.environ_config_set
  /\ PyStr.truthy (Further.environ_set !! "CHAT_DATA_S3_BUCKET")
     && PyStr.truthy (Further.environ_set !! "VECTOR_BUCKET")
     && PyStr.truthy (Further.environ_set !! "VECTOR_INDEX") = true
  /\ fst (handler Further.int_digits (Examples.services false false) Further.environ_set
            (inr Examples.pages) None Examples.first_run)
     = fst (run (Examples.services false false) (validated Further.environ_config_set) None
              Examples.pages Examples.first_run).
Proof.
  split; [vm_compute; reflexivity|].
  split; [vm_compute; reflexivity|].
  apply (handler_run Further.int_digits (Examples.services false false)
           Further.environ_set Further.environ_config_set Examples.pages None
           Examples.first_run).
  - vm_compute. reflexivity.
  - vm_compute. reflexivity.
Defined.

Lemma getEmbeddingsParallel_vectors_witness :
  0 < 10
  /\ [1; 0]%nat ≡ₚ seq 0 (length Further.two_chunks)
  /\ exists results es vs,
       getEmbeddingsParallel Examples.embed_but_b [1; 0]%nat
         (map chunk_text Further.two_chunks) 10 = Ok results
       /\ results = imap (fun i c => Some (embedSingle Examples.embed_but_b i (chunk_text c)))
                      Further.two_chunks
       /\ prepare_vectors Examples.cfg Examples.jan03 (zip Further.two_chunks results) ([], [])
          = (es, Ok vs)
       /\ (length es + length vs = length Further.two_chunks)%nat.
Proof.
  split; [reflexivity|].
  split; [apply (Permutation_cons_append [0]%nat 1%nat)|].
  apply (getEmbeddingsParallel_vectors Examples.embed_but_b Examples.cfg Examples.jan03
           [1; 0]%nat Further.two_chunks 10).
  - reflexivity.
  - apply (Permutation_cons_append [0]%nat 1%nat).
Defined.
